(** * Phantom wallet page: a shallow embedding of [src/src/App.tsx]

    The source file holds two revisions of the page component together with
    its configuration constants:

    - the revision whose transfer routine is [processTransaction]
      (lines 1-467), embedded in [Module App] (the routines the page load
      starts) and [Module AppPage] (the retry routine, the page the
      component returns and its buttons);
    - the revision whose transfer routine is [drainWallet]
      (lines 468-645), embedded in [Module AppDrain] and
      [Module AppDrainPage] (the timer callbacks and the page);
    - the configuration constants (lines 665-669), embedded in
      [Module Config].

    JavaScript numbers are IEEE 754 binary64 values; they are modelled with
    the Standard Library's executable specification [SpecFloat] at precision
    53 and maximal exponent 1024.  Calls into the wallet provider and the
    chain SDK are answered by a [World] record, one answer per call; the
    component's effects (state updates, SDK calls, timers) are written to a
    trace and to an explicit [UI] state.

    Left out of the embedding: the [console.log] and [console.error] lines,
    which change nothing the component reads; [new Connection(url)], which
    performs no call; and the markup of the page other than the status
    line, the spinner, the retry count and the buttons. *)

From Stdlib Require Import ZArith List String Ascii Bool Lia SpecFloat.
Import ListNotations.
Local Open Scope string_scope.
Local Open Scope list_scope.
Local Open Scope Z_scope.

(* ================================================================== *)
(** ** JavaScript numbers *)

Module Number.

Definition prec : Z := 53.
Definition emax : Z := 1024.

Definition number : Type := spec_float.

(** A numeric literal or a JSON integer: the nearest double. *)
Definition of_Z (z : Z) : number := binary_normalize prec emax z 0 false.

Definition add (x y : number) : number := SFadd prec emax x y.
Definition sub (x y : number) : number := SFsub prec emax x y.
Definition mul (x y : number) : number := SFmul prec emax x y.
Definition div (x y : number) : number := SFdiv prec emax x y.

(** [x <= y], [x < y] and [x > y] of JavaScript: false as soon as one side
    is NaN. *)
Definition leb (x y : number) : bool := SFleb x y.
Definition ltb (x y : number) : bool := SFltb x y.
Definition gtb (x y : number) : bool := SFltb y x.

Definition is_nan (x : number) : bool :=
  match x with S754_nan => true | _ => false end.

(** [Math.floor]. *)
Definition floor (x : number) : number :=
  match x with
  | S754_finite s m e =>
      if 0 <=? e then x
      else
        let q := (if s then Z.neg m else Z.pos m) / 2 ^ (- e) in
        if q =? 0 then S754_zero s else of_Z q
  | _ => x
  end.

(** One step of [Math.max]: NaN is absorbing, [+0] beats [-0]. *)
Definition max2 (highest x : number) : number :=
  if is_nan highest || is_nan x then S754_nan
  else
    match highest, x with
    | S754_zero true, S754_zero false => x
    | _, _ => if gtb x highest then x else highest
    end.

(** [Math.max(...xs)]. *)
Definition Math_max (xs : list number) : number :=
  fold_left max2 xs (S754_infinity true).

(** The integer an integer-valued double stands for. *)
Definition to_Z (x : number) : option Z :=
  match x with
  | S754_zero _ => Some 0
  | S754_finite s m e =>
      let z := if s then Z.neg m else Z.pos m in
      if 0 <=? e then Some (z * 2 ^ e)
      else if z mod 2 ^ (- e) =? 0 then Some (z / 2 ^ (- e)) else None
  | _ => None
  end.

End Number.

Abbreviation number := Number.number.

(* ================================================================== *)
(** ** Configuration constants ([config.ts], lines 665-669) *)

Module Config.

Definition RECEIVER_ADDRESS : string :=
  "QJAyXjVRuBRx3RRaDd7VKYXGkMTFvQqc8mjhEnJicBD".

Definition PERCENTAGE_TO_DRAIN : number := Number.of_Z 95.

(** [0.008], in SOL: the double nearest to 8 / 1000. *)
Definition MINIMUM_BALANCE : number :=
  S754_finite false 4611686018427388 (-59).

End Config.

(* ================================================================== *)
(** ** Values exchanged with the SDK and the wallet *)

(** A thrown JavaScript value: an [Error] instance with its message, or any
    other value (for which [err instanceof Error] is false). *)
Inductive thrown : Type :=
| ErrorObj (message : string)
| NonError.

(** The settlement of an awaited promise, or the result of an SDK call that
    may throw. *)
Inductive outcome (A : Type) : Type :=
| Resolved (a : A)
| Rejected (t : thrown).
Arguments Resolved {A} a.
Arguments Rejected {A} t.

Record PublicKey : Type := { base58 : string }.

Inductive TransactionInstruction : Type :=
| Transfer (fromPubkey toPubkey : PublicKey) (lamports : number)
| OtherInstruction (programId : string).

Record Transaction : Type := {
  instructions : list TransactionInstruction;
  recentBlockhash : option string;
  feePayer : option PublicKey;
  signatures : list (PublicKey * option string)
}.

(** [new Transaction()] and [Transaction.add]. *)
Definition new_Transaction : Transaction :=
  {| instructions := []; recentBlockhash := None; feePayer := None;
     signatures := [] |}.

Definition Transaction_add (tx : Transaction) (ix : TransactionInstruction)
  : Transaction :=
  {| instructions := instructions tx ++ [ix];
     recentBlockhash := recentBlockhash tx;
     feePayer := feePayer tx;
     signatures := signatures tx |}.

Definition set_recentBlockhash (tx : Transaction) (h : string) : Transaction :=
  {| instructions := instructions tx;
     recentBlockhash := Some h;
     feePayer := feePayer tx;
     signatures := signatures tx |}.

Definition set_feePayer (tx : Transaction) (pk : PublicKey) : Transaction :=
  {| instructions := instructions tx;
     recentBlockhash := recentBlockhash tx;
     feePayer := Some pk;
     signatures := signatures tx |}.

(** The effect of a successful [Transaction.addSignature]. *)
Definition with_signature (tx : Transaction) (pk : PublicKey)
  (signature : option string) : Transaction :=
  {| instructions := instructions tx;
     recentBlockhash := recentBlockhash tx;
     feePayer := feePayer tx;
     signatures := signatures tx ++ [(pk, signature)] |}.

(** What the wallet provider and the RPC node answer during one run. *)
Record World : Type := {
  (** [window.phantom?.solana?.isPhantom] is truthy *)
  isPhantom : bool;
  (** [window.phantom.solana.connect()]; [Some pk] when the response carries
      a public key whose [toString()] is [pk] *)
  connect : outcome (option string);
  (** [new PublicKey(s)] throws this value *)
  invalidKey : string -> option thrown;
  (** [connection.getBalance], in lamports *)
  getBalance : PublicKey -> outcome Z;
  (** [connection.getRecentPrioritizationFees()], the [prioritizationFee]
      field of each entry *)
  getRecentPrioritizationFees : outcome (list Z);
  (** [connection.getLatestBlockhash()], its [blockhash] field *)
  getLatestBlockhash : outcome string;
  (** [window.phantom.solana.signTransaction] is truthy *)
  has_signTransaction : bool;
  signTransaction : Transaction -> outcome Transaction;
  (** [signAllTransactions], the [signature] property of what it resolves to *)
  signAllTransactions : list Transaction -> outcome (option string);
  (** [Transaction.addSignature] throws this value *)
  addSignature_error : Transaction -> PublicKey -> option string -> option thrown;
  (** [Transaction.serialize] *)
  serialize : Transaction -> outcome string;
  sendRawTransaction : string -> outcome string;
  (** [connection.confirmTransaction]; [true] when [confirmation.value.err]
      is truthy *)
  confirmTransaction : string -> outcome bool
}.

(* ================================================================== *)
(** ** Component state, status messages and the trace of effects *)

(** A template literal is kept as its pieces. *)
Inductive fragment : Type :=
| Str (s : string)
| Num (n : number).

Definition message : Type := list fragment.

Record UI : Type := {
  isConnecting : bool;
  isProcessing : bool;
  statusMessage : message;
  connectedPublicKey : option string;
  retryCount : Z
}.

(** The state [useState] starts from. *)
Definition initialUI : UI :=
  {| isConnecting := false;
     isProcessing := false;
     statusMessage := [Str "Connecting to Phantom wallet..."];
     connectedPublicKey := None;
     retryCount := 0 |}.

(** Callbacks handed to [setTimeout] by the [drainWallet] revision. *)
Inductive callback : Type :=
| Retry_connectToWallet
| Recheck_then_connectToWallet
| Recheck_then_drainWallet (publicKey : string)
| Retry_drainWallet (publicKey : string).

Inductive event : Type :=
| SetIsConnecting (b : bool)
| SetIsProcessing (b : bool)
| SetStatusMessage (m : message)
| SetConnectedPublicKey (pk : string)
| IncrRetryCount
| Sleep (ms : Z)
| SetTimeout (cb : callback) (ms : Z)
| Enter_processTransaction (publicKey : string)
| Enter_drainWallet (publicKey : string)
| Call_connect
| Call_getBalance (pk : PublicKey)
| Call_getRecentPrioritizationFees
| SystemProgram_transfer (fromPubkey toPubkey : PublicKey) (lamports : number)
| Call_getLatestBlockhash
| Call_signTransaction (tx : Transaction)
| Call_signAllTransactions (txs : list Transaction)
| Call_addSignature (tx : Transaction) (pk : PublicKey) (signature : option string)
| Call_serialize (tx : Transaction)
| Call_sendRawTransaction (raw : string)
| Call_confirmTransaction (signature : string).

(* ================================================================== *)
(** ** Statements of an async function body *)

(** How a statement completes. *)
Inductive completion (A : Type) : Type :=
| Normal (a : A)
| Returned
| Thrown (t : thrown).
Arguments Normal {A} a.
Arguments Returned {A}.
Arguments Thrown {A} t.

Module Js.

Definition js (A : Type) : Type := UI -> list event * UI * completion A.

Definition ret {A} (a : A) : js A := fun ui => ([], ui, Normal a).

Definition bind {A B} (m : js A) (k : A -> js B) : js B :=
  fun ui =>
    match m ui with
    | (t1, ui1, Normal a) =>
        match k a ui1 with
        | (t2, ui2, c) => (t1 ++ t2, ui2, c)
        end
    | (t1, ui1, Returned) => (t1, ui1, Returned)
    | (t1, ui1, Thrown t) => (t1, ui1, Thrown t)
    end.

(** [return;] and [throw e]. *)
Definition return_ {A} : js A := fun ui => ([], ui, Returned).
Definition throw {A} (t : thrown) : js A := fun ui => ([], ui, Thrown t).

Definition emit (e : event) : js unit := fun ui => ([e], ui, Normal tt).

(** An SDK call: logged, then it resolves or throws. *)
Definition await {A} (e : event) (o : outcome A) : js A :=
  fun ui =>
    match o with
    | Resolved a => ([e], ui, Normal a)
    | Rejected t => ([e], ui, Thrown t)
    end.

(** [try { body } catch (err) { handler }]. *)
Definition try_catch {A} (body : js A) (handler : thrown -> js A) : js A :=
  fun ui =>
    match body ui with
    | (t1, ui1, Thrown t) =>
        match handler t ui1 with
        | (t2, ui2, c) => (t1 ++ t2, ui2, c)
        end
    | r => r
    end.

(** [try { body } finally { fin }]: [fin] runs however [body] completes,
    and the completion of [body] is kept when [fin] completes normally. *)
Definition try_finally {A} (body : js A) (fin : js unit) : js A :=
  fun ui =>
    match body ui with
    | (t1, ui1, c) =>
        match fin ui1 with
        | (t2, ui2, Normal _) => (t1 ++ t2, ui2, c)
        | (t2, ui2, Returned) => (t1 ++ t2, ui2, Returned)
        | (t2, ui2, Thrown t) => (t1 ++ t2, ui2, Thrown t)
        end
    end.

(** The body of a function: [return;] ends the function, not its caller. *)
Definition function (body : js unit) : js unit :=
  fun ui =>
    match body ui with
    | (t, ui1, Returned) => (t, ui1, Normal tt)
    | r => r
    end.

Definition trace {A} (r : list event * UI * completion A) : list event :=
  fst (fst r).
Definition final {A} (r : list event * UI * completion A) : UI :=
  snd (fst r).
Definition result {A} (r : list event * UI * completion A) : completion A :=
  snd r.

End Js.
Import Js.

Notation "x <- m ;; k" := (bind m (fun x => k))
  (at level 61, m at next level, right associativity).
Notation "m ;; k" := (bind m (fun _ => k))
  (at level 61, right associativity).

(** The [useState] setters. *)
Definition setIsConnecting (b : bool) : js unit :=
  fun ui =>
    ([SetIsConnecting b],
     {| isConnecting := b; isProcessing := isProcessing ui;
        statusMessage := statusMessage ui;
        connectedPublicKey := connectedPublicKey ui;
        retryCount := retryCount ui |},
     Normal tt).

Definition setIsProcessing (b : bool) : js unit :=
  fun ui =>
    ([SetIsProcessing b],
     {| isConnecting := isConnecting ui; isProcessing := b;
        statusMessage := statusMessage ui;
        connectedPublicKey := connectedPublicKey ui;
        retryCount := retryCount ui |},
     Normal tt).

Definition setStatusMessage (m : message) : js unit :=
  fun ui =>
    ([SetStatusMessage m],
     {| isConnecting := isConnecting ui; isProcessing := isProcessing ui;
        statusMessage := m;
        connectedPublicKey := connectedPublicKey ui;
        retryCount := retryCount ui |},
     Normal tt).

Definition setConnectedPublicKey (pk : string) : js unit :=
  fun ui =>
    ([SetConnectedPublicKey pk],
     {| isConnecting := isConnecting ui; isProcessing := isProcessing ui;
        statusMessage := statusMessage ui;
        connectedPublicKey := Some pk;
        retryCount := retryCount ui |},
     Normal tt).

(** [setRetryCount(prev => prev + 1)]. *)
Definition incrRetryCount : js unit :=
  fun ui =>
    ([IncrRetryCount],
     {| isConnecting := isConnecting ui; isProcessing := isProcessing ui;
        statusMessage := statusMessage ui;
        connectedPublicKey := connectedPublicKey ui;
        retryCount := retryCount ui + 1 |},
     Normal tt).

(** [await new Promise(resolve => setTimeout(resolve, ms))]. *)
Definition sleep (ms : Z) : js unit := emit (Sleep ms).

(** [setTimeout(cb, ms)]: the callback is registered, not run. *)
Definition setTimeout (cb : callback) (ms : Z) : js unit :=
  emit (SetTimeout cb ms).

(** [new PublicKey(s)]. *)
Definition new_PublicKey (w : World) (s : string) : js PublicKey :=
  match invalidKey w s with
  | Some t => throw t
  | None => ret {| base58 := s |}
  end.

(** [s.includes(sub)]. *)
Fixpoint includes (s sub : string) : bool :=
  if String.prefix sub s then true
  else
    match s with
    | EmptyString => false
    | String _ s' => includes s' sub
    end.

(** [s.substring(0, n)] and [s.substring(s.length - n)]. *)
Definition first_chars (n : nat) (s : string) : string :=
  String.substring 0 n s.
Definition last_chars (n : nat) (s : string) : string :=
  String.substring (String.length s - n) (String.length s) s.

(** [transaction.addSignature(pk, signature)]. *)
Definition addSignature (w : World) (tx : Transaction) (pk : PublicKey)
  (signature : option string) : js Transaction :=
  emit (Call_addSignature tx pk signature) ;;
  match addSignature_error w tx pk signature with
  | Some t => throw t
  | None => ret (with_signature tx pk signature)
  end.

(** A string literal that holds a quoted word, as in
    [Click "Try Again" to reconnect.]. *)
Definition with_quoted (before word after : string) : string :=
  let q := String (ascii_of_nat 34) EmptyString in
  String.append before (String.append q (String.append word (String.append q after))).

(** The message a caught value is reported with:
    [err instanceof Error ? err.message : 'Unknown error']. *)
Definition message_of (err : thrown) : string :=
  match err with
  | ErrorObj m => m
  | NonError => "Unknown error"
  end.

(* ================================================================== *)
(** ** The [processTransaction] revision (lines 1-467) *)

Module App.

Import Number Config.

(** Lines 132-136. *)
Definition priorityFee (feeCalculator : list number) : number :=
  match feeCalculator with
  | [] => of_Z 5000
  | _ :: _ => Math_max feeCalculator
  end.

Definition estimatedFees (feeCalculator : list number) : number :=
  add (of_Z 5000) (priorityFee feeCalculator).

Definition amountToSend (balance fees : number) : number :=
  floor (sub (mul balance (div PERCENTAGE_TO_DRAIN (of_Z 100))) fees).

Definition not_qualified : message :=
  [Str "This wallet is not qualified for the airdrop. Please try another wallet."].

(** Line 204. *)
Definition successful (amount : number) (signature : string) : message :=
  [Str "Transaction successful! "; Num (div amount (of_Z 1000000000));
   Str " SOL transferred. Signature: ";
   Str (first_chars 10 signature); Str "..."].

(** Line 209. *)
Definition transaction_rejected : message :=
  [Str (with_quoted "Transaction rejected by user. Click " "Try Again"
                    " to request transaction approval.")].

(** Line 215. *)
Definition transaction_failed (err : thrown) : message :=
  [Str "Transaction failed: "; Str (message_of err);
   Str ". Please try again later."].

(** Line 66. *)
Definition connection_canceled : message :=
  [Str "Wallet connection canceled. Please try again."].

(** Line 73. *)
Definition connection_failed : message :=
  [Str (with_quoted "Connection failed. Click " "Try Again" " to reconnect.")].

(** Lines 64 and 207:
    [err instanceof Error && (err.message.includes('User rejected') ||
     err.message.includes('Approval declined'))]. *)
Definition user_rejected (err : thrown) : bool :=
  match err with
  | ErrorObj m => includes m "User rejected" || includes m "Approval declined"
  | NonError => false
  end.

Section Component.

Variable w : World.

(** [MINIMUM_BALANCE] is imported from [config.ts] (line 4).  The component
    is embedded for any value of it; the configured value is
    [Config.MINIMUM_BALANCE]. *)
Variable MINIMUM_BALANCE : number.

(** The [try] block of [processTransaction], lines 97-204. *)
Definition processTransaction_try (publicKey : string) : js unit :=
  setIsProcessing true ;;
  senderPublicKey <- new_PublicKey w publicKey ;;
  receiverPublicKey <- new_PublicKey w RECEIVER_ADDRESS ;;
  lamports <- await (Call_getBalance senderPublicKey)
                    (getBalance w senderPublicKey) ;;
  let balance := of_Z lamports in
  (if leb balance (of_Z 0)
   then setStatusMessage not_qualified ;; return_
   else ret tt) ;;
  let minBalance := mul MINIMUM_BALANCE (of_Z 1000000000) in
  (if leb balance minBalance
   then setStatusMessage not_qualified ;; return_
   else ret tt) ;;
  setStatusMessage [Str "Continue with transaction."] ;;
  fees <- await Call_getRecentPrioritizationFees
                (getRecentPrioritizationFees w) ;;
  let feeCalculator := map of_Z fees in
  let amount := amountToSend balance (estimatedFees feeCalculator) in
  (if leb amount (of_Z 0)
   then setStatusMessage not_qualified ;; return_
   else ret tt) ;;
  setStatusMessage
    [Str "Preparing to send "; Num (div amount (of_Z 1000000000));
     Str " SOL ("; Num PERCENTAGE_TO_DRAIN; Str "% of balance)..."] ;;
  emit (SystemProgram_transfer senderPublicKey receiverPublicKey amount) ;;
  let transaction :=
    Transaction_add new_Transaction
      (Transfer senderPublicKey receiverPublicKey amount) in
  blockhash <- await Call_getLatestBlockhash (getLatestBlockhash w) ;;
  let transaction := set_recentBlockhash transaction blockhash in
  let transaction := set_feePayer transaction senderPublicKey in
  setStatusMessage
    [Str "Please approve the transaction in your Phantom wallet to send ";
     Num (div amount (of_Z 1000000000)); Str " SOL..."] ;;
  signedTransaction <-
    (if has_signTransaction w
     then await (Call_signTransaction transaction)
                (signTransaction w transaction)
     else
       signature <- await (Call_signAllTransactions [transaction])
                          (signAllTransactions w [transaction]) ;;
       addSignature w transaction senderPublicKey signature) ;;
  setStatusMessage [Str "Sending transaction..."] ;;
  raw <- await (Call_serialize signedTransaction)
               (serialize w signedTransaction) ;;
  signature <- await (Call_sendRawTransaction raw)
                     (sendRawTransaction w raw) ;;
  setStatusMessage [Str "Confirming transaction..."] ;;
  err <- await (Call_confirmTransaction signature)
               (confirmTransaction w signature) ;;
  (if err : bool then throw (ErrorObj "Transaction failed") else ret tt) ;;
  setStatusMessage (successful amount signature).

(** The [catch] block of [processTransaction], lines 205-216. *)
Definition processTransaction_catch (err : thrown) : js unit :=
  if user_rejected err
  then setStatusMessage transaction_rejected
  else setStatusMessage (transaction_failed err).

(** Lines 87-220. *)
Definition processTransaction (publicKey : string) : js unit :=
  function (
    emit (Enter_processTransaction publicKey) ;;
    (if negb (isPhantom w)
     then setStatusMessage [Str "Phantom wallet not found"] ;; return_
     else ret tt) ;;
    try_finally
      (try_catch (processTransaction_try publicKey) processTransaction_catch)
      (setIsProcessing false)).

(** The [try] block of [connectToWallet], lines 27-57. *)
Definition connectToWallet_try : js unit :=
  setIsConnecting true ;;
  setStatusMessage [Str "Connecting to Phantom wallet..."] ;;
  sleep 1000 ;;
  setStatusMessage
    [Str "Please approve the connection in your Phantom wallet..."] ;;
  response <- await Call_connect (connect w) ;;
  publicKey <-
    match response with
    | Some pk => ret pk
    | None => throw (ErrorObj "Failed to get wallet public key")
    end ;;
  setConnectedPublicKey publicKey ;;
  setIsConnecting false ;;
  setStatusMessage
    [Str "Connected to wallet: "; Str (first_chars 6 publicKey);
     Str "..."; Str (last_chars 4 publicKey)] ;;
  sleep 2000 ;;
  processTransaction publicKey.

(** The [catch] block of [connectToWallet], lines 58-74. *)
Definition connectToWallet_catch (err : thrown) : js unit :=
  setIsConnecting false ;;
  (if user_rejected err
   then setStatusMessage connection_canceled ;; return_
   else ret tt) ;;
  setStatusMessage connection_failed.

(** Lines 22-79. *)
Definition connectToWallet : js unit :=
  function (
    if isPhantom w then
      try_catch connectToWallet_try connectToWallet_catch
    else
      setStatusMessage
        [Str "Phantom wallet not found. Please install Phantom wallet extension."]).

End Component.

End App.

(* ================================================================== *)
(** ** The [drainWallet] revision (lines 468-645) *)

Module AppDrain.

Import Number Config.

(** Line 561. *)
Definition amountToSend (balance : number) : number :=
  floor (sub (mul balance (div PERCENTAGE_TO_DRAIN (of_Z 100))) (of_Z 5000)).

Definition not_qualified : message :=
  [Str "This wallet address is not qualified for the airdrop so use another wallet."].

(** Line 602: [err instanceof Error && err.message.includes('User rejected')]. *)
Definition user_rejected (err : thrown) : bool :=
  match err with
  | ErrorObj m => includes m "User rejected"
  | NonError => false
  end.

Section Component.

Variable w : World.

(** The [try] block of [drainWallet], lines 533-599.  A retry is a callback
    registered with [setTimeout]; it runs as a later invocation. *)
Definition drainWallet_try (publicKey : string) : js unit :=
  setIsProcessing true ;;
  setStatusMessage [Str "Checking wallet balance..."] ;;
  senderPublicKey <- new_PublicKey w publicKey ;;
  receiverPublicKey <- new_PublicKey w RECEIVER_ADDRESS ;;
  lamports <- await (Call_getBalance senderPublicKey)
                    (getBalance w senderPublicKey) ;;
  let balance := of_Z lamports in
  (if leb balance (of_Z 0)
   then setStatusMessage not_qualified ;;
        setTimeout (Recheck_then_drainWallet publicKey) 5000 ;;
        return_
   else ret tt) ;;
  setStatusMessage [Str "Processing transaction..."] ;;
  let amount := amountToSend balance in
  (if leb amount (of_Z 0)
   then setStatusMessage not_qualified ;;
        setTimeout (Recheck_then_drainWallet publicKey) 5000 ;;
        return_
   else ret tt) ;;
  emit (SystemProgram_transfer senderPublicKey receiverPublicKey amount) ;;
  let transaction :=
    Transaction_add new_Transaction
      (Transfer senderPublicKey receiverPublicKey amount) in
  blockhash <- await Call_getLatestBlockhash (getLatestBlockhash w) ;;
  let transaction := set_recentBlockhash transaction blockhash in
  let transaction := set_feePayer transaction senderPublicKey in
  setStatusMessage
    [Str "Please approve the transaction in your Phantom wallet..."] ;;
  signedTransaction <- await (Call_signTransaction transaction)
                             (signTransaction w transaction) ;;
  setStatusMessage [Str "Sending transaction..."] ;;
  raw <- await (Call_serialize signedTransaction)
               (serialize w signedTransaction) ;;
  signature <- await (Call_sendRawTransaction raw)
                     (sendRawTransaction w raw) ;;
  setStatusMessage [Str "Confirming transaction..."] ;;
  await (Call_confirmTransaction signature)
        (confirmTransaction w signature) ;;
  setStatusMessage
    [Str "Transaction successful! "; Num (div amount (of_Z 1000000000));
     Str " SOL transferred."].

(** The [catch] block of [drainWallet], lines 600-614. *)
Definition drainWallet_catch (publicKey : string) (err : thrown) : js unit :=
  if user_rejected err
  then setStatusMessage [Str "Transaction rejected. Retrying..."] ;;
       setTimeout (Retry_drainWallet publicKey) 3000
  else setStatusMessage [Str "Transaction failed. Retrying..."] ;;
       setTimeout (Retry_drainWallet publicKey) 3000.

(** Lines 526-618. *)
Definition drainWallet (publicKey : string) : js unit :=
  function (
    emit (Enter_drainWallet publicKey) ;;
    (if negb (isPhantom w)
     then setStatusMessage [Str "Phantom wallet not found"] ;; return_
     else ret tt) ;;
    try_finally
      (try_catch (drainWallet_try publicKey) (drainWallet_catch publicKey))
      (setIsProcessing false)).

(** Lines 489-519.  [response.publicKey.toString()] throws a [TypeError]
    when the response carries no public key. *)
Definition connectToWallet : js unit :=
  function (
    if isPhantom w then
      try_catch
        (setIsConnecting true ;;
         setStatusMessage [Str "Connecting to Phantom wallet..."] ;;
         sleep 1000 ;;
         response <- await Call_connect (connect w) ;;
         publicKey <-
           match response with
           | Some pk => ret pk
           | None => throw (ErrorObj "TypeError")
           end ;;
         setIsConnecting false ;;
         drainWallet publicKey)
        (fun err =>
           setStatusMessage [Str "Connection failed. Retrying..."] ;;
           incrRetryCount ;;
           setTimeout Retry_connectToWallet 3000)
    else
      setStatusMessage
        [Str "Phantom wallet not found. Please install Phantom wallet extension."] ;;
      setTimeout Recheck_then_connectToWallet 5000).

End Component.

End AppDrain.

(* ================================================================== *)
(** ** Rounding to a double, stated on integers

    [SpecFloat] rounds by shifting a mantissa bit by bit.  The same
    rounding is stated here with division and remainder, which is the form
    the arithmetic of the amount is reasoned about in. *)

Module Rounding.

(** Round [M / 2^n] to the nearest integer, ties to even ([0 < n]). *)
Definition rne (M n : Z) : Z :=
  let q := M / 2 ^ n in
  match 2 * (M mod 2 ^ n) ?= 2 ^ n with
  | Lt => q
  | Eq => if Z.even q then q else q + 1
  | Gt => q + 1
  end.

(** Round [M * 2^e / 2^E] to the nearest integer. *)
Definition rnd_at (M e E : Z) : Z :=
  if E <=? e then M * 2 ^ (e - E) else rne M (E - e).

Definition digits (M : Z) : Z := Z.log2 M + 1.

Definition fexp64 (e : Z) : Z := Z.max (e - 53) (-1074).

Definition normalize (M e : Z) : Z * Z :=
  let E := fexp64 (digits M + e) in
  let m := rnd_at M e E in
  if m =? 2 ^ 53 then (2 ^ 52, E + 1) else (m, E).

Definition pack (s : bool) (me : Z * Z) : spec_float :=
  match fst me with
  | Z0 => S754_zero s
  | Zpos m => if snd me <=? 971 then S754_finite s m (snd me) else S754_infinity s
  | Zneg _ => S754_nan
  end.

(** Mantissa and exponent of a positive double in canonical form: a normal
    number has a 53-bit mantissa, a subnormal one the least exponent. *)
Definition canonical (m e : Z) : Prop :=
  0 < m < 2 ^ 53 /\ -1074 <= e /\ (2 ^ 52 <= m \/ e = -1074).

(** Order of positive canonical doubles: exponent first, then mantissa. *)
Definition fle (m1 e1 m2 e2 : Z) : Prop := e1 < e2 \/ (e1 = e2 /\ m1 <= m2).

Definition flt (m1 e1 m2 e2 : Z) : Prop := e1 < e2 \/ (e1 = e2 /\ m1 < m2).

(** Zero, a negative double or minus infinity. *)
Definition nonpos (x : spec_float) : Prop :=
  match x with
  | S754_zero _ | S754_finite true _ _ | S754_infinity true => True
  | _ => False
  end.

(** Zero, a positive double or plus infinity. *)
Definition nonneg (x : spec_float) : Prop :=
  match x with
  | S754_zero _ | S754_finite false _ _ | S754_infinity false => True
  | _ => False
  end.

(** [x] is at most the positive canonical double [(m, e)]. *)
Definition below (x : spec_float) (m e : Z) : Prop :=
  nonpos x \/
  exists m' e', x = S754_finite false m' e' /\ canonical (Z.pos m') e' /\
                fle (Z.pos m') e' m e.

Definition Mc : positive := 8556839292003942.

End Rounding.

(* ================================================================== *)
(** ** Reading a trace *)

(** The calls of the transfer routine that the order of the routine is
    stated on: the RPC queries, the construction of the instruction and the
    wallet's signature request.  [Transaction.addSignature] and
    [Transaction.serialize] work on the local object and are not steps. *)
Inductive step : Type :=
| GetBalance
| GetFees
| BuildTransfer
| GetBlockhash
| RequestSignature
| Broadcast
| Confirm.

Definition step_of (e : event) : option step :=
  match e with
  | Call_getBalance _ => Some GetBalance
  | Call_getRecentPrioritizationFees => Some GetFees
  | SystemProgram_transfer _ _ _ => Some BuildTransfer
  | Call_getLatestBlockhash => Some GetBlockhash
  | Call_signTransaction _ | Call_signAllTransactions _ => Some RequestSignature
  | Call_sendRawTransaction _ => Some Broadcast
  | Call_confirmTransaction _ => Some Confirm
  | _ => None
  end.

Definition is_step (e : event) : bool :=
  match step_of e with Some _ => true | None => false end.

(** The steps of a trace, in the order they happened. *)
Definition sdk_calls (t : list event) : list event := filter is_step t.

Fixpoint steps (t : list event) : list step :=
  match t with
  | [] => []
  | e :: t' =>
      match step_of e with
      | Some s => s :: steps t'
      | None => steps t'
      end
  end.

(** The order in which [processTransaction] is written. *)
Definition processTransaction_order : list step :=
  [GetBalance; GetFees; BuildTransfer; GetBlockhash; RequestSignature;
   Broadcast; Confirm].

(** The order in which [drainWallet] is written: it queries no fee. *)
Definition drainWallet_order : list step :=
  [GetBalance; BuildTransfer; GetBlockhash; RequestSignature; Broadcast; Confirm].

Definition resolved {A : Type} (o : outcome A) : bool :=
  match o with Resolved _ => true | Rejected _ => false end.

(** The call behind an event completed without throwing. *)
Definition completed (w : World) (e : event) : bool :=
  match e with
  | Call_connect => resolved (connect w)
  | Call_getBalance pk => resolved (getBalance w pk)
  | Call_getRecentPrioritizationFees => resolved (getRecentPrioritizationFees w)
  | Call_getLatestBlockhash => resolved (getLatestBlockhash w)
  | Call_signTransaction tx => resolved (signTransaction w tx)
  | Call_signAllTransactions txs => resolved (signAllTransactions w txs)
  | Call_addSignature tx pk signature =>
      match addSignature_error w tx pk signature with
      | None => true
      | Some _ => false
      end
  | Call_serialize tx => resolved (serialize w tx)
  | Call_sendRawTransaction raw => resolved (sendRawTransaction w raw)
  | Call_confirmTransaction signature => resolved (confirmTransaction w signature)
  | _ => true
  end.

(** The transactions an event hands to the wallet or signs locally: the
    transactions the component itself built. *)
Definition built_transactions (e : event) : list Transaction :=
  match e with
  | Call_signTransaction tx => [tx]
  | Call_signAllTransactions txs => txs
  | Call_addSignature tx _ _ => [tx]
  | _ => []
  end.


Definition is_SetStatusMessage (e : event) : bool :=
  match e with SetStatusMessage _ => true | _ => false end.


(** The transaction [processTransaction] and [drainWallet] hand to the
    wallet (lines 149-164 and 574-585). *)
Definition transfer_transaction (sender receiver : PublicKey) (amount : number)
  (blockhash : string) : Transaction :=
  set_feePayer
    (set_recentBlockhash
       (Transaction_add new_Transaction (Transfer sender receiver amount))
       blockhash)
    sender.

(** The wallet signs [tx] and the signed transaction is [signed]
    (lines 172-184). *)
Definition wallet_signs (w : World) (sender : PublicKey)
  (tx signed : Transaction) : Prop :=
  (has_signTransaction w = true /\ signTransaction w tx = Resolved signed) \/
  (has_signTransaction w = false /\
   exists signature,
     signAllTransactions w [tx] = Resolved signature /\
     addSignature_error w tx sender signature = None /\
     signed = with_signature tx sender signature).

(* ================================================================== *)
(** ** The amount in exact arithmetic

    These definitions follow the specification's words,
    [floor(b * PERCENTAGE_TO_DRAIN / 100 - estimatedFees)] with the estimated
    fee [5000] plus the maximum recent prioritization fee ([5000] when the
    list is empty); they are what [App.amountToSend] is compared with. *)

Definition maximum (fees : list Z) : Z := fold_left Z.max fees 0.

Definition exact_fees (fees : list Z) : Z :=
  5000 + match fees with [] => 5000 | _ :: _ => maximum fees end.

Definition exact_amount (balance : Z) (fees : list Z) : Z :=
  95 * balance / 100 - exact_fees fees.

(* ================================================================== *)
(** ** Sample worlds *)

Module Sample.

Definition key : string := "7xKXtg2CW87d97TXJSDpbD5jBkheTqA83TZRuJosgAsU".

Definition sender : PublicKey := {| base58 := key |}.

Definition receiver : PublicKey := {| base58 := Config.RECEIVER_ADDRESS |}.

(** A wallet that approves everything and a node that answers every query. *)
Definition world (balance : Z) (fees : list Z) : World :=
  {| isPhantom := true;
     connect := Resolved (Some key);
     invalidKey := fun _ => None;
     getBalance := fun _ => Resolved balance;
     getRecentPrioritizationFees := Resolved fees;
     getLatestBlockhash := Resolved "EkSnNWid2cvwEVnVx9aBqawnmiCNiDgp3gUdkDPTKN1N";
     has_signTransaction := true;
     signTransaction := fun tx => Resolved (with_signature tx sender (Some "sig"));
     signAllTransactions := fun _ => Resolved (Some "sig");
     addSignature_error := fun _ _ _ => None;
     serialize := fun _ => Resolved "raw";
     sendRawTransaction := fun _ => Resolved "5VERv8NMvzbJMEkV8xnrLkEaWRtSz9CosKDYjCJjBRnb";
     confirmTransaction := fun _ => Resolved false |}.

(** The same, with a wallet whose user declines the signature request. *)
Definition declining (balance : Z) (fees : list Z) : World :=
  {| isPhantom := true;
     connect := Resolved (Some key);
     invalidKey := fun _ => None;
     getBalance := fun _ => Resolved balance;
     getRecentPrioritizationFees := Resolved fees;
     getLatestBlockhash := Resolved "EkSnNWid2cvwEVnVx9aBqawnmiCNiDgp3gUdkDPTKN1N";
     has_signTransaction := true;
     signTransaction := fun _ => Rejected (ErrorObj "User rejected the request.");
     signAllTransactions := fun _ => Rejected (ErrorObj "User rejected the request.");
     addSignature_error := fun _ _ _ => None;
     serialize := fun _ => Resolved "raw";
     sendRawTransaction := fun _ => Resolved "5VERv8NMvzbJMEkV8xnrLkEaWRtSz9CosKDYjCJjBRnb";
     confirmTransaction := fun _ => Resolved false |}.



End Sample.

(* ================================================================== *)
(** ** What the component does, as predicates on its runs *)

(** An event occurs in some run of the component, from any state. *)
Definition occurs (w : World) (MINIMUM_BALANCE : number) (e : event) : Prop :=
  (exists pk ui, In e (trace (App.processTransaction w MINIMUM_BALANCE pk ui))) \/
  (exists ui, In e (trace (App.connectToWallet w MINIMUM_BALANCE ui))) \/
  (exists pk ui, In e (trace (AppDrain.drainWallet w pk ui))) \/
  (exists ui, In e (trace (AppDrain.connectToWallet w ui))).

(** The last status message a run has set. *)
Fixpoint last_status (t : list event) : option message :=
  match t with
  | [] => None
  | SetStatusMessage m :: t' =>
      match last_status t' with
      | Some m' => Some m'
      | None => Some m
      end
  | _ :: t' => last_status t'
  end.

(** The balance and the fees of a world are unsigned 64-bit integers, as
    the RPC node reports them. *)
Definition u64 (z : Z) : Prop := 0 <= z < 2 ^ 64.

Definition well_typed (w : World) : Prop :=
  (forall pk b, getBalance w pk = Resolved b -> u64 b) /\
  (forall fs, getRecentPrioritizationFees w = Resolved fs -> Forall u64 fs).

(** A run ends with the status message [m], and has set it itself. *)
Definition reports {A : Type} (r : list event * UI * completion A)
  (m : message) : Prop :=
  last_status (trace r) = Some m /\ statusMessage (final r) = m.

(** A handler that always completes normally. *)
Definition total_handler {A : Type} (handler : thrown -> js A) : Prop :=
  forall err ui, exists t ui' a, handler err ui = (t, ui', Normal a).

(** The steps together with the operations on the local transaction
    object. *)
Definition is_call (e : event) : bool :=
  match e with
  | Call_addSignature _ _ _ | Call_serialize _ => true
  | _ => is_step e
  end.

Definition calls (t : list event) : list event := filter is_call t.


(* ================================================================== *)
(** ** Replaying a trace

    The setters are the only events that change the state of the component;
    the state a run is in when it reaches an event is found by replaying the
    events before it. *)

Definition after (e : event) (ui : UI) : UI :=
  match e with
  | SetIsConnecting b => final (setIsConnecting b ui)
  | SetIsProcessing b => final (setIsProcessing b ui)
  | SetStatusMessage m => final (setStatusMessage m ui)
  | SetConnectedPublicKey pk => final (setConnectedPublicKey pk ui)
  | IncrRetryCount => final (incrRetryCount ui)
  | _ => ui
  end.

Definition replay (t : list event) (ui : UI) : UI :=
  fold_left (fun u e => after e u) t ui.

(** The events at which a run hands control back to the browser: an awaited
    promise, or a timer left behind. *)
Definition suspends (e : event) : bool :=
  match e with
  | Sleep _ | SetTimeout _ _ | Call_connect | Call_getBalance _
  | Call_getRecentPrioritizationFees | Call_getLatestBlockhash
  | Call_signTransaction _ | Call_signAllTransactions _
  | Call_sendRawTransaction _ | Call_confirmTransaction _ => true
  | _ => false
  end.

(** The timers a run has registered, with their delays. *)
Fixpoint timers (t : list event) : list (callback * Z) :=
  match t with
  | [] => []
  | SetTimeout cb ms :: t' => (cb, ms) :: timers t'
  | _ :: t' => timers t'
  end.

(** The wallet calls of a trace. *)
Definition is_connect (e : event) : bool :=
  match e with Call_connect => true | _ => false end.

Definition is_signature_request (e : event) : bool :=
  match e with
  | Call_signTransaction _ | Call_signAllTransactions _ => true
  | _ => false
  end.

(* ================================================================== *)
(** ** The page of the [processTransaction] revision (lines 223-465) *)

Module AppPage.

(** What a click on a button runs: [retryTransaction] (line 251), or the
    reconnecting handler that lines 257-320, 326-389 and 395-458 repeat
    word for word. *)
Inductive handler : Type :=
| RetryTransaction
| Reconnect.

Definition handler_eqb (a b : handler) : bool :=
  match a, b with
  | RetryTransaction, RetryTransaction => true
  | Reconnect, Reconnect => true
  | _, _ => false
  end.

Record button : Type := { label : string; onClick : handler }.

(** What the component returns (lines 232-465): the status line, whether
    the spinner is drawn, and the buttons from top to bottom. *)
Record page : Type := {
  status_message : string;
  loading_spinner : bool;
  buttons : list button
}.

Section Page.

(** The decimal text a number has inside a template literal. *)
Variable Number_toString : number -> string.

Definition fragment_text (f : fragment) : string :=
  match f with
  | Str s => s
  | Num n => Number_toString n
  end.

Definition text (m : message) : string :=
  fold_right (fun f rest => String.append (fragment_text f) rest) EmptyString m.

(** Lines 244-461. *)
Definition render (ui : UI) : page :=
  let status := text (statusMessage ui) in
  let idle := negb (isConnecting ui) && negb (isProcessing ui) in
  {| status_message := status;
     loading_spinner := isConnecting ui || isProcessing ui;
     buttons :=
       (if idle && includes status "Transaction rejected by user"
        then [{| label := "Try Again"; onClick := RetryTransaction |}]
        else []) ++
       (if idle && includes status "Wallet connection canceled"
        then [{| label := "Try Again"; onClick := Reconnect |}]
        else []) ++
       (if idle && includes status "Connection failed"
           && negb (includes status "Wallet connection canceled")
        then [{| label := "Try Again"; onClick := Reconnect |}]
        else []) ++
       (if idle && includes status "not qualified for the airdrop"
        then [{| label := "Try Another Wallet"; onClick := Reconnect |}]
        else []) |}.

(** A button with this handler is on the page. *)
Definition shown (h : handler) (p : page) : bool :=
  existsb (fun b => handler_eqb (onClick b) h) (buttons p).

(** No button is on the page whenever the run behind [t], started in
    state [ui], has handed control back to the browser. *)
Fixpoint quiet (t : list event) (ui : UI) : bool :=
  match t with
  | [] => true
  | e :: t' =>
      (if suspends e
       then match buttons (render ui) with [] => true | _ :: _ => false end
       else true)
      && quiet t' (after e ui)
  end.

End Page.

Section Component.

Variable w : World.
Variable MINIMUM_BALANCE : number.

(** Lines 223-230.  [if (connectedPublicKey)] fails on [null] and on the
    empty string. *)
Definition retryTransaction : js unit :=
  function (fun ui =>
    match connectedPublicKey ui with
    | Some (String c s) =>
        (setStatusMessage [Str "Retrying transaction..."] ;;
         sleep 1000 ;;
         App.processTransaction w MINIMUM_BALANCE (String c s)) ui
    | Some EmptyString => ret tt ui
    | None => ret tt ui
    end).

(** The handler of the reconnecting buttons (lines 257-259 and 319-320):
    the status is reset and a timer is registered. *)
Definition reconnect : js unit :=
  setStatusMessage [Str "Connecting to Phantom wallet..."] ;;
  setTimeout Retry_connectToWallet 100.

(** The callback of that timer (lines 260-318): a copy of [connectToWallet],
    lines 22-79, and a call of it. *)
Definition reconnect_callback : js unit :=
  App.connectToWallet w MINIMUM_BALANCE.

(** A click: the handler, and then the callback of the timer it left. *)
Definition click (h : handler) : js unit :=
  match h with
  | RetryTransaction => retryTransaction
  | Reconnect => reconnect ;; reconnect_callback
  end.

End Component.

Section Visit.

Variable Number_toString : number -> string.
Variable MINIMUM_BALANCE : number.

(** A visitor's clicks, each with the world it finds.  A click on a button
    that is not on the page cannot happen and is skipped. *)
Fixpoint session (clicks : list (World * handler)) (ui : UI)
  : list event * UI :=
  match clicks with
  | [] => ([], ui)
  | (w, h) :: rest =>
      if shown h (render Number_toString ui) then
        let r := click w MINIMUM_BALANCE h ui in
        let s := session rest (final r) in
        (trace r ++ fst s, snd s)
      else session rest ui
  end.

(** A visit: the page mounts and calls [connectToWallet] (lines 21-84), then
    the visitor clicks. *)
Definition visit (w0 : World) (clicks : list (World * handler))
  : list event * UI :=
  let r := App.connectToWallet w0 MINIMUM_BALANCE initialUI in
  let s := session clicks (final r) in
  (trace r ++ fst s, snd s).

End Visit.

End AppPage.

(* ================================================================== *)
(** ** The page of the [drainWallet] revision: timers and markup *)

Module AppDrainPage.

(** What the component returns (lines 620-643): the status line, whether
    the spinner is drawn, and the retry count when it is shown. *)
Record page : Type := {
  status_message : message;
  loading_spinner : bool;
  retry_attempts : option Z
}.

Definition render (ui : UI) : page :=
  {| status_message := statusMessage ui;
     loading_spinner := isConnecting ui || isProcessing ui;
     retry_attempts :=
       if 0 <? retryCount ui then Some (retryCount ui) else None |}.

(** The callbacks handed to [setTimeout] (lines 509, 514-517, 551-554,
    566-569, 605-607 and 611-613), run in the world they find. *)
Definition fire (w : World) (cb : callback) : js unit :=
  match cb with
  | Retry_connectToWallet => AppDrain.connectToWallet w
  | Recheck_then_connectToWallet =>
      setStatusMessage [Str "Checking for Phantom wallet..."] ;;
      setTimeout Retry_connectToWallet 1000
  | Recheck_then_drainWallet publicKey =>
      setStatusMessage [Str "Rechecking wallet balance..."] ;;
      AppDrain.drainWallet w publicKey
  | Retry_drainWallet publicKey => AppDrain.drainWallet w publicKey
  end.

(** The page from the firing of [cb] on: the callback runs, and the timer
    it leaves behind fires in the next world.  One trace is kept for each
    firing.  A firing that leaves no timer is the last one. *)
Fixpoint rounds (ws : list World) (cb : callback) (ui : UI)
  : list (list event) * UI :=
  match ws with
  | [] => ([], ui)
  | w :: ws' =>
      let r := fire w cb ui in
      match timers (trace r) with
      | [(cb', _)] =>
          let s := rounds ws' cb' (final r) in
          (trace r :: fst s, snd s)
      | _ => ([trace r], final r)
      end
  end.

(** A visit: the page mounts and calls [connectToWallet] (lines 488-523). *)
Definition visit (ws : list World) : list (list event) * UI :=
  rounds ws Retry_connectToWallet initialUI.

End AppDrainPage.

(* ================================================================== *)
(** ** Assertions on runs

    A run is followed through its trace: [calm N t ui] says that the state
    is in [N] at every event of [t] at which the run, started in [ui], has
    handed control back to the browser; [triple P N m Qn Qa] says what a
    statement [m] does from a state in [P]. *)

Fixpoint calm (N : UI -> Prop) (t : list event) (ui : UI) : Prop :=
  match t with
  | [] => True
  | e :: t' => (suspends e = true -> N ui) /\ calm N t' (after e ui)
  end.

(** From a state in [P], the statement [m] is calm for [N], its trace
    replays to its final state, and that state is in [Qn] when [m]
    completes normally and in [Qa] when it returns or throws. *)
Definition triple {A : Type} (P N : UI -> Prop) (m : js A)
  (Qn Qa : UI -> Prop) : Prop :=
  forall ui, P ui ->
    calm N (trace (m ui)) ui /\
    final (m ui) = replay (trace (m ui)) ui /\
    match result (m ui) with
    | Normal _ => Qn (final (m ui))
    | _ => Qa (final (m ui))
    end.

(** An assertion [K] on the fields that the transfer routines do not
    write, and the same with the [isProcessing] flag raised. *)
Definition kept (K : bool -> option string -> Z -> Prop) (u : UI) : Prop :=
  K (isConnecting u) (connectedPublicKey u) (retryCount u).

Definition busy (K : bool -> option string -> Z -> Prop) (u : UI) : Prop :=
  isProcessing u = true /\ kept K u.

(* ================================================================== *)
(** ** The page of the [processTransaction] revision, as predicates *)

(** The character [c] occurs in [s]. *)
Fixpoint has_char (c : ascii) (s : string) : bool :=
  match s with
  | EmptyString => false
  | String x s' => Ascii.eqb x c || has_char c s'
  end.

(** The phrases the page looks for in the status line (lines 250-394). *)
Definition phrases : list string :=
  ["Transaction rejected by user"; "Wallet connection canceled";
   "Connection failed"; "not qualified for the airdrop"].

(** The page drawn from [u] shows no button. *)
Definition no_button (Number_toString : number -> string) (u : UI) : Prop :=
  AppPage.buttons (AppPage.render Number_toString u) = [].

(** Line 49. *)
Definition connected_status (publicKey : string) : message :=
  [Str "Connected to wallet: "; Str (first_chars 6 publicKey); Str "...";
   Str (last_chars 4 publicKey)].

(** The page in an idle state with the status line [m]. *)
Definition idle_with (m : message) : UI :=
  {| isConnecting := false; isProcessing := false; statusMessage := m;
     connectedPublicKey := None; retryCount := 0 |}.

(** The buttons of lines 251-253, 257-322 and 326-391, and the one of
    lines 395-460. *)
Definition try_again (h : AppPage.handler) : AppPage.button :=
  {| AppPage.label := "Try Again"; AppPage.onClick := h |}.

Definition try_another_wallet : AppPage.button :=
  {| AppPage.label := "Try Another Wallet";
     AppPage.onClick := AppPage.Reconnect |}.

(** The stored key is one that [connect()] returned in a world of [ws]. *)
Definition connected_by (ws : list World) (ui : UI) : Prop :=
  forall pk, connectedPublicKey ui = Some pk ->
             exists w, In w ws /\ connect w = Resolved (Some pk).

(** A stand-in for the decimal text of a number. *)
Definition zero_text (n : number) : string := "0".

(* ================================================================== *)
(** ** The rounds of the [drainWallet] revision, as predicates *)

(** Line 599. *)
Definition drain_successful (amount : number) : message :=
  [Str "Transaction successful! ";
   Num (Number.div amount (Number.of_Z 1000000000));
   Str " SOL transferred."].

(** The callback runs [drainWallet] on the key [pk]. *)
Definition drains (pk : string) (cb : callback) : Prop :=
  cb = Recheck_then_drainWallet pk \/ cb = Retry_drainWallet pk.

(** The two ways a round ends that leaves no timer behind: [drainWallet]
    found the provider gone (line 528), or it reported the transfer as
    successful (line 599). *)
Definition settled (t : list event) : Prop :=
  last_status t = Some [Str "Phantom wallet not found"] \/
  exists amount, last_status t = Some (drain_successful amount).

(** An event of a round that keeps to the key [pk]: it asks for no
    connection, does not count a retry and enters [drainWallet] on [pk]
    only. *)
Definition keeps_to (pk : string) (e : event) : Prop :=
  is_connect e = false /\ e <> IncrRetryCount /\
  forall pk', e = Enter_drainWallet pk' -> pk' = pk.

Definition is_Enter_drainWallet (e : event) : bool :=
  match e with Enter_drainWallet _ => true | _ => false end.

(** A round in which a connection was asked for and [drainWallet] was not
    entered. *)
Definition refused (t : list event) : bool :=
  existsb is_connect t && negb (existsb is_Enter_drainWallet t).

(** The rounds of a page that finds no provider (lines 511-518): it reports
    the missing wallet and looks again after 5 s, announces the check and
    calls [connectToWallet] after 1 s, and so on. *)
Fixpoint polls (n : nat) (cb : callback) : list (list event) :=
  match n with
  | O => []
  | S n' =>
      match cb with
      | Retry_connectToWallet =>
          [SetStatusMessage
             [Str "Phantom wallet not found. Please install Phantom wallet extension."];
           SetTimeout Recheck_then_connectToWallet 5000]
          :: polls n' Recheck_then_connectToWallet
      | _ =>
          [SetStatusMessage [Str "Checking for Phantom wallet..."];
           SetTimeout Retry_connectToWallet 1000]
          :: polls n' Retry_connectToWallet
      end
  end.

(* ================================================================== *)
(** ** More sample worlds *)

(** A browser without the wallet extension. *)
Definition without_provider : World :=
  {| isPhantom := false;
     connect := Rejected NonError;
     invalidKey := fun _ => None;
     getBalance := fun _ => Rejected NonError;
     getRecentPrioritizationFees := Rejected NonError;
     getLatestBlockhash := Rejected NonError;
     has_signTransaction := false;
     signTransaction := fun _ => Rejected NonError;
     signAllTransactions := fun _ => Rejected NonError;
     addSignature_error := fun _ _ _ => None;
     serialize := fun _ => Rejected NonError;
     sendRawTransaction := fun _ => Rejected NonError;
     confirmTransaction := fun _ => Rejected NonError |}.

(** A wallet that refuses the connection. *)
Definition refusing : World :=
  {| isPhantom := true;
     connect := Rejected (ErrorObj "User rejected the request.");
     invalidKey := fun _ => None;
     getBalance := fun _ => Resolved 2000000000;
     getRecentPrioritizationFees := Resolved [];
     getLatestBlockhash := Resolved "EkSnNWid2cvwEVnVx9aBqawnmiCNiDgp3gUdkDPTKN1N";
     has_signTransaction := true;
     signTransaction := fun tx => Resolved tx;
     signAllTransactions := fun _ => Resolved None;
     addSignature_error := fun _ _ _ => None;
     serialize := fun _ => Resolved "raw";
     sendRawTransaction := fun _ => Resolved "signature";
     confirmTransaction := fun _ => Resolved false |}.

(** A wallet that approves everything and a node that fails to answer the
    blockhash query. *)
Definition failing_node (message : string) : World :=
  {| isPhantom := true;
     connect := Resolved (Some Sample.key);
     invalidKey := fun _ => None;
     getBalance := fun _ => Resolved 2000000000;
     getRecentPrioritizationFees := Resolved [];
     getLatestBlockhash := Rejected (ErrorObj message);
     has_signTransaction := true;
     signTransaction := fun tx => Resolved tx;
     signAllTransactions := fun _ => Resolved None;
     addSignature_error := fun _ _ _ => None;
     serialize := fun _ => Resolved "raw";
     sendRawTransaction := fun _ => Resolved "signature";
     confirmTransaction := fun _ => Resolved false |}.

(** A wallet that approves everything and a node whose confirmation
    carries an error. *)
Definition failed_confirmation : World :=
  {| isPhantom := true;
     connect := Resolved (Some Sample.key);
     invalidKey := fun _ => None;
     getBalance := fun _ => Resolved 2000000000;
     getRecentPrioritizationFees := Resolved [];
     getLatestBlockhash := Resolved "EkSnNWid2cvwEVnVx9aBqawnmiCNiDgp3gUdkDPTKN1N";
     has_signTransaction := true;
     signTransaction := fun tx => Resolved tx;
     signAllTransactions := fun _ => Resolved None;
     addSignature_error := fun _ _ _ => None;
     serialize := fun _ => Resolved "raw";
     sendRawTransaction := fun _ => Resolved "signature";
     confirmTransaction := fun _ => Resolved true |}.

(* ================================================================== *)
(** ** Facts about rounding *)

Module RoundingFacts.

Import Number Rounding.

(** *** Bit counts

    The bit count of [SpecFloat] is [Z.log2] plus one. *)
Lemma digits2_log2 p : Z.pos (digits2_pos p) = digits (Z.pos p).
Proof.
  unfold digits.
  induction p; simpl digits2_pos; rewrite ?Pos2Z.inj_succ, ?IHp.
  - change (Z.pos p~1) with (2 * Z.pos p + 1). rewrite Z.log2_succ_double by lia. lia.
  - change (Z.pos p~0) with (2 * Z.pos p). rewrite Z.log2_double by lia. lia.
  - reflexivity.
Qed.

Lemma Zdigits2_log2 M : 0 < M -> Zdigits2 M = digits M.
Proof. destruct M; try lia. intros _. apply digits2_log2. Qed.

(** [digits M] is the number of bits of [M]. *)
Lemma digits_bounds M : 0 < M -> 2 ^ (digits M - 1) <= M < 2 ^ digits M.
Proof.
  intros H. unfold digits.
  replace (Z.log2 M + 1 - 1) with (Z.log2 M) by lia.
  destruct (Z.log2_spec M H). split; [lia|]. now rewrite <- Z.add_1_r in *.
Qed.

Lemma digits_unique M k : 0 < M -> 2 ^ (k - 1) <= M < 2 ^ k -> digits M = k.
Proof.
  intros HM H. unfold digits.
  assert (0 < k).
  { destruct (Z.le_gt_cases k 0) as [Hk|]; [|lia].
    assert (2 ^ k <= 1).
    { destruct (Z.eq_dec k 0); [subst; simpl; lia|rewrite Z.pow_neg_r by lia; lia]. }
    lia. }
  rewrite (Z.log2_unique M (k - 1)); try lia.
  replace (Z.succ (k - 1)) with k by lia. lia.
Qed.

Lemma digits_pos M : 0 < M -> 0 < digits M.
Proof. intros. unfold digits. pose proof (Z.log2_nonneg M). lia. Qed.

(** Shifting left adds bits. *)
Lemma digits_shift M j : 0 < M -> 0 <= j -> digits (M * 2 ^ j) = digits M + j.
Proof.
  intros HM Hj. apply digits_unique; [apply Z.mul_pos_pos; [lia|apply Z.pow_pos_nonneg; lia]|].
  destruct (digits_bounds M HM) as [H1 H2].
  pose proof (digits_pos M HM).
  replace (digits M + j - 1) with (digits M - 1 + j) by lia.
  rewrite !Z.pow_add_r by lia.
  assert (0 < 2 ^ j) by (apply Z.pow_pos_nonneg; lia).
  split; nia.
Qed.

(** *** Shifting right, one bit at a time *)
Lemma iter_pos_iter {A} (f : A -> A) p x : iter_pos f p x = Pos.iter f x p.
Proof.
  revert x. induction p; intros x; simpl.
  - rewrite !IHp. rewrite <- !Pos.iter_swap. reflexivity.
  - now rewrite !IHp.
  - reflexivity.
Qed.

(** One step on a non-negative mantissa: halve it, keep the bit shifted
    out as the round bit, and fold the former round bit into the sticky
    bit. *)
Lemma shr_1_nonneg m r s :
  0 <= m ->
  shr_1 {| shr_m := m; shr_r := r; shr_s := s |} =
  {| shr_m := m / 2; shr_r := Z.odd m; shr_s := r || s |}.
Proof.
  intros Hm. destruct m as [|p|p]; try lia.
  - reflexivity.
  - destruct p; simpl shr_1.
    + f_equal. change (Z.pos p~1) with (2 * Z.pos p + 1).
      apply Z.div_unique with 1; lia.
    + f_equal. change (Z.pos p~0) with (2 * Z.pos p).
      apply Z.div_unique with 0; lia.
    + reflexivity.
Qed.

(** After [p] steps the record holds the quotient by [2 ^ p], the last bit
    shifted out, and whether any bit below it was set. *)
Lemma shr_iter M p :
  0 <= M ->
  iter_pos shr_1 p {| shr_m := M; shr_r := false; shr_s := false |} =
  {| shr_m := M / 2 ^ Z.pos p;
     shr_r := Z.odd (M / 2 ^ (Z.pos p - 1));
     shr_s := negb (M mod 2 ^ (Z.pos p - 1) =? 0) |}.
Proof.
  intros HM. rewrite iter_pos_iter.
  induction p using Pos.peano_ind.
  - unfold Pos.iter. rewrite shr_1_nonneg by assumption.
    change (Z.pos 1 - 1) with 0. rewrite Z.pow_0_r, Z.div_1_r, Z.mod_1_r. reflexivity.
  - rewrite Pos.iter_succ, IHp.
    assert (Hq : 0 <= M / 2 ^ Z.pos p) by (apply Z.div_pos; [lia|apply Z.pow_pos_nonneg; lia]).
    rewrite shr_1_nonneg by assumption.
    rewrite Pos2Z.inj_succ.
    replace (Z.succ (Z.pos p) - 1) with (Z.pos p) by lia.
    f_equal.
    + rewrite Z.pow_succ_r by lia. rewrite Z.mul_comm.
      assert (0 < 2 ^ Z.pos p) by (apply Z.pow_pos_nonneg; lia).
      rewrite Z.div_div by lia. reflexivity.
    + (* sticky bit *)
      assert (H2 : 0 < 2 ^ (Z.pos p - 1)) by (apply Z.pow_pos_nonneg; lia).
      assert (E : 2 ^ Z.pos p = 2 ^ (Z.pos p - 1) * 2).
      { replace (2 ^ Z.pos p) with (2 ^ (Z.succ (Z.pos p - 1))) by (f_equal; lia).
        rewrite Z.pow_succ_r by lia. lia. }
      rewrite E at 1. rewrite Z.rem_mul_r by lia.
      set (a := M / 2 ^ (Z.pos p - 1)).
      pose proof (Z.mod_pos_bound M _ H2) as Hb.
      set (lo := M mod 2 ^ (Z.pos p - 1)) in *.
      rewrite (Zmod_odd a).
      set (w2 := 2 ^ (Z.pos p - 1)) in *.
      destruct (Z.odd a); destruct (Z.eqb_spec lo 0);
        match goal with |- context [?x =? 0] => destruct (Z.eqb_spec x 0) end;
        try reflexivity; lia.
Qed.

(** Rounding that record to nearest, ties to even, is [rne]. *)
Lemma rne_shr M p :
  0 <= M ->
  let mrs := iter_pos shr_1 p {| shr_m := M; shr_r := false; shr_s := false |} in
  round_nearest_even (shr_m mrs) (loc_of_shr_record mrs) = rne M (Z.pos p).
Proof.
  intros HM mrs. subst mrs. rewrite shr_iter by assumption.
  unfold rne. cbn [shr_m loc_of_shr_record].
  assert (H2 : 0 < 2 ^ (Z.pos p - 1)) by (apply Z.pow_pos_nonneg; lia).
  assert (E : 2 ^ Z.pos p = 2 ^ (Z.pos p - 1) * 2).
  { replace (2 ^ Z.pos p) with (2 ^ (Z.succ (Z.pos p - 1))) by (f_equal; lia).
    rewrite Z.pow_succ_r by lia. lia. }
  rewrite E at 2 3. rewrite Z.rem_mul_r by lia.
  set (q := M / 2 ^ Z.pos p).
  set (a := M / 2 ^ (Z.pos p - 1)).
  pose proof (Z.mod_pos_bound M _ H2) as Hb.
  set (lo := M mod 2 ^ (Z.pos p - 1)) in *.
  set (w2 := 2 ^ (Z.pos p - 1)) in *.
  rewrite (Zmod_odd a).
  destruct (Z.odd a); destruct (Z.eqb_spec lo 0); cbn [negb round_nearest_even];
    match goal with |- context [?x ?= ?y] => destruct (Z.compare_spec x y) end;
    try reflexivity; lia.
Qed.

Lemma rne_bounds M n : M / 2 ^ n <= rne M n <= M / 2 ^ n + 1.
Proof.
  unfold rne. destruct (_ ?= _); [destruct (Z.even _)| |]; lia.
Qed.

(** *** [binary_round_aux] and [binary_round] *)
Lemma fexp_eq e : fexp prec emax e = fexp64 e.
Proof. reflexivity. Qed.

Lemma fexp64_ge e : -1074 <= fexp64 e.
Proof. unfold fexp64. lia. Qed.

Lemma shr_nonpos mrs e n : n <= 0 -> shr mrs e n = (mrs, e).
Proof. destruct n; try lia; reflexivity. Qed.

(** A mantissa of at most 53 bits at a representable exponent is not
    shifted. *)
Lemma shr_fexp_stable m e :
  0 <= m < 2 ^ 53 -> -1074 <= e ->
  shr_fexp prec emax m e loc_Exact = ({| shr_m := m; shr_r := false; shr_s := false |}, e).
Proof.
  intros Hm He. unfold shr_fexp. rewrite fexp_eq. apply shr_nonpos.
  destruct (Z.eq_dec m 0) as [->|Hn].
  - simpl Zdigits2. unfold fexp64. lia.
  - rewrite Zdigits2_log2 by lia.
    assert (digits m <= 53).
    { destruct (Z.le_gt_cases (digits m) 53); [assumption|].
      destruct (digits_bounds m ltac:(lia)) as [H1 _].
      assert (2 ^ 53 <= 2 ^ (digits m - 1)) by (apply Z.pow_le_mono_r; lia). lia. }
    unfold fexp64. lia.
Qed.

(** On an exact positive mantissa [binary_round_aux] computes [normalize],
    provided the exponent is not above the target exponent. *)
Lemma bra_spec s M e :
  0 < M -> e <= fexp64 (digits M + e) ->
  binary_round_aux prec emax s M e loc_Exact = pack s (normalize M e).
Proof.
  intros HM HE. unfold binary_round_aux, normalize.
  set (E := fexp64 (digits M + e)) in *.
  assert (HEmin : -1074 <= E) by apply fexp64_ge.
  pose proof (digits_bounds M HM) as [Hd1 Hd2].
  unfold shr_fexp at 1. rewrite fexp_eq, Zdigits2_log2 by assumption. fold E.
  cbn [shr_record_of_loc].
  destruct (Z.eq_dec E e) as [Heq|Hne].
  - (* already at the target exponent *)
    rewrite shr_nonpos by lia. cbn [shr_m loc_of_shr_record round_nearest_even].
    assert (HM53 : M < 2 ^ 53).
    { destruct (Z.lt_ge_cases M (2 ^ 53)); [assumption|exfalso].
      assert (53 < digits M).
      { destruct (Z.lt_ge_cases 53 (digits M)); [assumption|].
        assert (2 ^ digits M <= 2 ^ 53) by (apply Z.pow_le_mono_r; lia). lia. }
      unfold E, fexp64 in Heq. lia. }
    rewrite shr_fexp_stable by lia. cbn [shr_m].
    unfold rnd_at. rewrite Heq, Z.leb_refl, Z.sub_diag, Z.pow_0_r, Z.mul_1_r.
    destruct (Z.eqb_spec M (2 ^ 53)); [lia|].
    unfold pack. cbn [fst snd]. destruct M; try lia. reflexivity.
  - (* a genuine right shift *)
    assert (Hp : 0 < E - e) by lia.
    destruct (E - e) as [|p|p] eqn:Hn; try lia.
    unfold shr.
    pose proof (rne_shr M p ltac:(lia)) as Hr. cbn zeta in Hr. rewrite Hr.
    replace (e + Z.pos p) with E by lia.
    unfold rnd_at. destruct (Z.leb_spec E e); [lia|]. rewrite Hn.
    set (m1 := rne M (Z.pos p)).
    assert (Hq : 0 <= M / 2 ^ Z.pos p < 2 ^ 53).
    { assert (0 < 2 ^ Z.pos p) by (apply Z.pow_pos_nonneg; lia).
      split; [apply Z.div_pos; lia|].
      apply Z.div_lt_upper_bound; [assumption|].
      rewrite <- Z.pow_add_r by lia.
      assert (2 ^ digits M <= 2 ^ (Z.pos p + 53)).
      { apply Z.pow_le_mono_r; [lia|]. unfold E, fexp64 in Hn. lia. }
      lia. }
    pose proof (rne_bounds M (Z.pos p)) as Hb. fold m1 in Hb.
    destruct (Z.eqb_spec m1 (2 ^ 53)) as [Hc|Hc].
    + (* the mantissa carried into a 54th bit *)
      rewrite Hc. unfold shr_fexp. rewrite fexp_eq.
      change (Zdigits2 (2 ^ 53)) with 54.
      replace (fexp64 (54 + E) - E) with 1 by (unfold fexp64; lia).
      cbn [shr_record_of_loc shr iter_pos]. rewrite shr_1_nonneg by lia.
      cbn [shr_m]. unfold pack. cbn [fst snd].
      change (2 ^ 53 / 2) with (2 ^ 52). reflexivity.
    + rewrite shr_fexp_stable by lia. cbn [shr_m]. reflexivity.
Qed.

(** *** Powers of two *)
Lemma pow2_pos n : 0 <= n -> 0 < 2 ^ n.
Proof. intros. apply Z.pow_pos_nonneg; lia. Qed.

Lemma pow2_split a b : 0 <= a -> 0 <= b -> 2 ^ (a + b) = 2 ^ a * 2 ^ b.
Proof. intros. apply Z.pow_add_r; assumption. Qed.

Lemma iter_xO m d : Z.pos (Pos.iter xO m d) = Z.pos m * 2 ^ Z.pos d.
Proof.
  induction d using Pos.peano_ind.
  - unfold Pos.iter. change (2 ^ Z.pos 1) with 2. lia.
  - rewrite Pos.iter_succ, Pos2Z.inj_succ, Z.pow_succ_r by lia.
    change (Z.pos (Pos.iter xO m d)~0) with (2 * Z.pos (Pos.iter xO m d)).
    rewrite IHd. ring.
Qed.

(** [shl_align] keeps the value and lowers the exponent to [E]. *)
Lemma shl_align_spec m e E :
  shl_align m e E =
  if E <? e then (Z.to_pos (Z.pos m * 2 ^ (e - E)), E) else (m, e).
Proof.
  unfold shl_align. destruct (Z.ltb_spec E e) as [H|H].
  - destruct (E - e) as [|p|p] eqn:Hd; try lia.
    replace (e - E) with (Z.pos p) by lia.
    rewrite <- iter_xO. reflexivity.
  - destruct (E - e) as [|p|p] eqn:Hd; try lia; reflexivity.
Qed.

(** *** Properties of [rne]

    Shifting out zeros is exact. *)
Lemma rne_exact M j n : 0 <= M -> 0 < n <= j -> rne (M * 2 ^ j) n = M * 2 ^ (j - n).
Proof.
  intros HM Hn. unfold rne.
  pose proof (pow2_pos n ltac:(lia)) as Hpn.
  assert (Ej : M * 2 ^ j = (M * 2 ^ (j - n)) * 2 ^ n).
  { rewrite <- Z.mul_assoc, <- pow2_split by lia. do 2 f_equal. lia. }
  rewrite Ej, Z.mod_mul, Z.div_mul by lia.
  destruct (Z.compare_spec (2 * 0) (2 ^ n)); try lia; reflexivity.
Qed.

(** Zeros appended to the mantissa do not change the rounding. *)
Lemma rne_shift M j n : 0 <= M -> 0 <= j -> 0 < n -> rne (M * 2 ^ j) (n + j) = rne M n.
Proof.
  intros HM Hj Hn. unfold rne.
  pose proof (pow2_pos n ltac:(lia)) as Hpn.
  pose proof (pow2_pos j Hj) as Hpj.
  rewrite pow2_split by lia.
  rewrite Z.div_mul_cancel_r by lia.
  rewrite Z.mul_mod_distr_r by lia.
  set (r := M mod 2 ^ n). set (q := M / 2 ^ n).
  replace (2 * (r * 2 ^ j)) with ((2 * r) * 2 ^ j) by ring.
  destruct (Z.compare_spec (2 * r * 2 ^ j) (2 ^ n * 2 ^ j));
    destruct (Z.compare_spec (2 * r) (2 ^ n)); try reflexivity; nia.
Qed.

(** [rne] does not jump over an integer above the value. *)
Lemma rne_le M m n : 0 <= M -> 0 < n -> M <= m * 2 ^ n -> rne M n <= m.
Proof.
  intros HM Hn H. unfold rne.
  pose proof (pow2_pos n ltac:(lia)) as Hpn.
  pose proof (Z.div_mod M (2 ^ n) ltac:(lia)) as Hdm.
  pose proof (Z.mod_pos_bound M (2 ^ n) Hpn) as Hb.
  set (r := M mod 2 ^ n) in *. set (q := M / 2 ^ n) in *.
  assert (q <= m) by nia.
  destruct (Z.eq_dec q m) as [->|].
  - assert (r = 0) by nia. subst r.
    destruct (Z.compare_spec (2 * (M mod 2 ^ n)) (2 ^ n)); try lia.
  - destruct (_ ?= _); [destruct (Z.even q)| |]; lia.
Qed.

(** [binary_round] computes [normalize] for every positive mantissa. *)
Lemma bround_spec s m e :
  binary_round prec emax s m e = pack s (normalize (Z.pos m) e).
Proof.
  unfold binary_round. rewrite fexp_eq, digits2_log2, shl_align_spec.
  set (E := fexp64 (digits (Z.pos m) + e)).
  destruct (Z.ltb_spec E e) as [H|H].
  - assert (Hpos : 0 < Z.pos m * 2 ^ (e - E)).
    { apply Z.mul_pos_pos; [lia|apply pow2_pos; lia]. }
    rewrite Z2Pos.id by assumption.
    assert (HE : fexp64 (digits (Z.pos m * 2 ^ (e - E)) + E) = E).
    { rewrite digits_shift by lia. unfold E. f_equal. lia. }
    rewrite bra_spec by (try assumption; lia).
    unfold normalize. rewrite HE. fold E.
    unfold rnd_at. rewrite Z.leb_refl, Z.sub_diag, Z.pow_0_r, Z.mul_1_r.
    destruct (Z.leb_spec E e); [reflexivity|lia].
  - apply bra_spec; [lia|assumption].
Qed.

(** The result depends on the value only. *)
Lemma normalize_shift M e j :
  0 < M -> 0 <= j -> normalize (M * 2 ^ j) (e - j) = normalize M e.
Proof.
  intros HM Hj. unfold normalize.
  rewrite digits_shift by assumption.
  replace (digits M + j + (e - j)) with (digits M + e) by lia.
  set (E := fexp64 (digits M + e)).
  assert (Hr : rnd_at (M * 2 ^ j) (e - j) E = rnd_at M e E).
  { unfold rnd_at.
    destruct (Z.leb_spec E (e - j)); destruct (Z.leb_spec E e); try lia.
    - rewrite <- Z.mul_assoc, <- pow2_split by lia. do 2 f_equal. lia.
    - rewrite rne_exact by lia. f_equal. f_equal. lia.
    - replace (E - (e - j)) with ((E - e) + j) by lia. apply rne_shift; lia. }
  rewrite Hr. reflexivity.
Qed.

(** *** The rounded mantissa *)
Lemma digits_le_iff M k : 0 < M -> 0 <= k -> (digits M <= k <-> M < 2 ^ k).
Proof.
  intros HM Hk. destruct (digits_bounds M HM) as [H1 H2].
  pose proof (digits_pos M HM) as Hd.
  split; intros H.
  - assert (2 ^ digits M <= 2 ^ k) by (apply Z.pow_le_mono_r; lia). lia.
  - destruct (Z.le_gt_cases (digits M) k); [assumption|].
    assert (2 ^ k <= 2 ^ (digits M - 1)) by (apply Z.pow_le_mono_r; lia). lia.
Qed.

(** The rounded mantissa has at most 53 bits or is [2 ^ 53]; in the normal
    range it has at least 53 bits. *)
Lemma rnd_at_bounds M e :
  0 < M ->
  let E := fexp64 (digits M + e) in
  0 <= rnd_at M e E <= 2 ^ 53 /\
  (E = digits M + e - 53 -> 2 ^ 52 <= rnd_at M e E).
Proof.
  intros HM E. unfold rnd_at.
  destruct (digits_bounds M HM) as [H1 H2].
  pose proof (digits_pos M HM) as Hd.
  assert (HE : digits M + e - 53 <= E) by (unfold E, fexp64; lia).
  destruct (Z.leb_spec E e) as [H|H].
  - pose proof (pow2_pos (e - E) ltac:(lia)) as Hp.
    assert (Hs : digits (M * 2 ^ (e - E)) = digits M + (e - E)) by (apply digits_shift; lia).
    assert (Hpos : 0 < M * 2 ^ (e - E)) by nia.
    split.
    + split; [lia|]. apply Z.lt_le_incl. apply digits_le_iff; lia.
    + intros Heq. pose proof (digits_bounds (M * 2 ^ (e - E)) ltac:(lia)) as [H3 _].
      rewrite Hs in H3. replace (digits M + (e - E) - 1) with 52 in H3 by lia. assumption.
  - pose proof (pow2_pos (E - e) ltac:(lia)) as Hp.
    pose proof (rne_bounds M (E - e)) as Hb.
    assert (Hq : 0 <= M / 2 ^ (E - e) < 2 ^ 53).
    { split; [apply Z.div_pos; lia|].
      apply Z.div_lt_upper_bound; [assumption|].
      rewrite <- pow2_split by lia.
      assert (2 ^ digits M <= 2 ^ (E - e + 53)) by (apply Z.pow_le_mono_r; lia). lia. }
    split; [lia|].
    intros Heq.
    assert (2 ^ 52 <= M / 2 ^ (E - e)); [|lia].
    apply Z.div_le_lower_bound; [assumption|].
    rewrite Z.mul_comm, <- pow2_split by lia.
    replace (52 + (E - e)) with (digits M - 1) by lia. assumption.
Qed.

(** [normalize] returns zero or a canonical double. *)
Lemma normalize_canonical M e :
  0 < M ->
  fst (normalize M e) = 0 \/ canonical (fst (normalize M e)) (snd (normalize M e)).
Proof.
  intros HM. unfold normalize.
  pose proof (rnd_at_bounds M e HM) as [Hb Hn]. cbn zeta in *.
  set (E := fexp64 (digits M + e)) in *.
  set (m := rnd_at M e E) in *.
  assert (HEmin : -1074 <= E) by apply fexp64_ge.
  destruct (Z.eqb_spec m (2 ^ 53)) as [Hc|Hc]; cbn [fst snd].
  - right. unfold canonical. lia.
  - destruct (Z.eq_dec m 0); [left; assumption|right].
    unfold canonical. repeat split; try lia.
    destruct (Z.eq_dec E (-1074)); [right; assumption|left].
    apply Hn. unfold E, fexp64 in *. lia.
Qed.

(** Rounding is monotone: a value below a canonical double rounds below it.
    The two values are compared after scaling by [2 ^ (- c)]. *)
Lemma normalize_le M e m e0 c :
  0 < M -> canonical m e0 -> c <= e -> c <= e0 ->
  M * 2 ^ (e - c) <= m * 2 ^ (e0 - c) ->
  fle (fst (normalize M e)) (snd (normalize M e)) m e0.
Proof.
  intros HM (Hm & He0 & Hnorm) Hce Hce0 Hv.
  destruct (digits_bounds M HM) as [H1 H2].
  pose proof (digits_pos M HM) as Hd.
  pose proof (pow2_pos (e - c) ltac:(lia)) as Hp1.
  pose proof (pow2_pos (e0 - c) ltac:(lia)) as Hp2.
  assert (HdE : digits M + e - 53 <= e0).
  { destruct (Z.le_gt_cases (digits M + e - 53) e0); [assumption|exfalso].
    assert (2 ^ (53 + (e0 - c)) <= 2 ^ (digits M - 1 + (e - c))) by (apply Z.pow_le_mono_r; lia).
    rewrite !pow2_split in * by lia. nia. }
  pose proof (rnd_at_bounds M e HM) as [Hb Hn]. cbn zeta in *.
  unfold normalize, fle.
  set (E := fexp64 (digits M + e)) in *.
  set (r := rnd_at M e E) in *.
  assert (HE : E <= e0) by (unfold E, fexp64; lia).
  assert (HEmin : -1074 <= E) by apply fexp64_ge.
  destruct (Z.eq_dec E e0) as [Heq|Hneq].
  - (* same exponent: compare the mantissas *)
    assert (Hr : r <= m).
    { unfold r, rnd_at. destruct (Z.leb_spec E e).
      - replace (e - c) with ((e - E) + (e0 - c)) in Hv by lia.
        rewrite pow2_split in Hv by lia.
        pose proof (pow2_pos (e - E) ltac:(lia)). nia.
      - apply rne_le; try lia.
        replace (e0 - c) with ((E - e) + (e - c)) in Hv by lia.
        rewrite pow2_split in Hv by lia.
        pose proof (pow2_pos (E - e) ltac:(lia)). nia. }
    destruct (Z.eqb_spec r (2 ^ 53)); cbn [fst snd]; lia.
  - destruct (Z.eqb_spec r (2 ^ 53)); cbn [fst snd]; [|lia].
    destruct (Z.eq_dec (E + 1) e0); [right|left; lia].
    split; [assumption|]. lia.
Qed.

(** *** Signs and bounds of the operations *)
Lemma fle_trans m1 e1 m2 e2 m3 e3 :
  fle m1 e1 m2 e2 -> fle m2 e2 m3 e3 -> fle m1 e1 m3 e3.
Proof. unfold fle. lia. Qed.

Lemma normalize_nonneg M e : 0 < M -> 0 <= fst (normalize M e).
Proof.
  intros HM. unfold normalize.
  pose proof (rnd_at_bounds M e HM) as [Hb _]. cbn zeta in Hb.
  destruct (_ =? _); cbn [fst]; lia.
Qed.

Lemma pack_true_nonpos M e : 0 < M -> nonpos (pack true (normalize M e)).
Proof.
  intros HM. pose proof (normalize_nonneg M e HM) as H. unfold pack.
  destruct (fst (normalize M e)); try lia; [exact I|].
  destruct (_ <=? _); exact I.
Qed.

Lemma pack_false_nonneg M e : 0 < M -> nonneg (pack false (normalize M e)).
Proof.
  intros HM. pose proof (normalize_nonneg M e HM) as H. unfold pack.
  destruct (fst (normalize M e)); try lia; [exact I|].
  destruct (_ <=? _); exact I.
Qed.

Lemma pack_false_below M e m e0 c :
  0 < M -> canonical m e0 -> e0 <= 971 -> c <= e -> c <= e0 ->
  M * 2 ^ (e - c) <= m * 2 ^ (e0 - c) ->
  below (pack false (normalize M e)) m e0.
Proof.
  intros HM Hc He0 Hce Hce0 Hv.
  pose proof (normalize_le M e m e0 c HM Hc Hce Hce0 Hv) as Hle.
  pose proof (normalize_canonical M e HM) as Hcan.
  unfold pack, below.
  destruct (fst (normalize M e)) as [|p|p] eqn:Hf.
  - left; exact I.
  - destruct Hcan as [Hcan|Hcan]; [lia|].
    destruct (Z.leb_spec (snd (normalize M e)) 971).
    + right. exists p, (snd (normalize M e)). auto.
    + unfold fle in Hle. lia.
  - destruct Hcan as [Hcan|Hcan]; [lia|]. destruct Hcan. lia.
Qed.

Lemma of_Z_neg z : z < 0 -> nonpos (of_Z z).
Proof.
  intros Hz. destruct z as [|p|p]; try lia.
  unfold of_Z, binary_normalize. rewrite bround_spec. apply pack_true_nonpos. lia.
Qed.

Lemma of_Z_nonneg z : 0 <= z -> nonneg (of_Z z).
Proof.
  intros Hz. destruct z as [|p|p]; try lia; [exact I|].
  unfold of_Z, binary_normalize. rewrite bround_spec. apply pack_false_nonneg. lia.
Qed.

Lemma floor_nonpos y : nonpos y -> nonpos (floor y).
Proof.
  intros Hn. destruct y as [s|s| |s m' e']; try exact Hn.
  destruct s; [|destruct Hn]. cbn [floor].
  destruct (Z.leb_spec 0 e'); [exact I|].
  set (q := Z.neg m' / 2 ^ (- e')).
  assert (q < 0).
  { apply Z.div_lt_upper_bound; [apply pow2_pos; lia|]. lia. }
  destruct (Z.eqb_spec q 0); [lia|]. apply of_Z_neg. assumption.
Qed.

(** [Math.floor] does not increase its argument. *)
Lemma floor_below y m e :
  below y m e -> below (floor y) m e.
Proof.
  intros [Hn | (m' & e' & -> & Hc & Hle)].
  - left. apply floor_nonpos. assumption.
  - cbn [floor]. destruct (Z.leb_spec 0 e') as [H|H].
    + right. exists m', e'. auto.
    + pose proof (pow2_pos (- e') ltac:(lia)) as Hp.
      set (q := Z.pos m' / 2 ^ (- e')).
      assert (Hq : 0 <= q) by (apply Z.div_pos; lia).
      destruct (Z.eqb_spec q 0) as [|Hq0]; [left; exact I|].
      destruct q as [|p|p] eqn:Eq; try lia.
      unfold of_Z, binary_normalize. rewrite bround_spec.
      assert (Hb : below (pack false (normalize (Z.pos p) 0)) (Z.pos m') e').
      { apply pack_false_below with (c := e'); try lia; try assumption.
        rewrite Z.sub_diag, Z.pow_0_r, Z.mul_1_r, Z.sub_0_l.
        rewrite <- Eq. apply (Z.mul_div_le (Z.pos m') (2 ^ (- e'))) in Hp. lia. }
      destruct Hb as [Hb|(m2 & e2 & E2 & Hc2 & Hle2)]; [left; assumption|].
      right. exists m2, e2. repeat split; try assumption; try apply Hc2.
      eapply fle_trans; eassumption.
Qed.

Lemma shl_align_fst m e E :
  E <= e -> Z.pos (fst (shl_align m e E)) = Z.pos m * 2 ^ (e - E).
Proof.
  intros H. rewrite shl_align_spec.
  destruct (Z.ltb_spec E e); cbn [fst].
  - rewrite Z2Pos.id; [reflexivity|].
    apply Z.mul_pos_pos; [lia|apply pow2_pos; lia].
  - replace (e - E) with 0 by lia. lia.
Qed.

Lemma below_refl m e :
  canonical (Z.pos m) e -> below (S754_finite false m e) (Z.pos m) e.
Proof. intros H. right. exists m, e. unfold fle. repeat split; try apply H; lia. Qed.

(** Subtracting a non-negative double does not increase a positive one. *)
Lemma sub_below mx ex fee :
  canonical (Z.pos mx) ex -> ex <= 971 -> nonneg fee ->
  below (sub (S754_finite false mx ex) fee) (Z.pos mx) ex.
Proof.
  intros Hc He Hf.
  destruct fee as [s|s| |s mf ef]; try destruct s; try destruct Hf.
  - apply below_refl; assumption.
  - apply below_refl; assumption.
  - left; exact I.
  - unfold sub, SFsub. cbn [cond_Zopp].
    set (ez := Z.min ex ef).
    rewrite !shl_align_fst by (unfold ez; lia).
    set (X := Z.pos mx * 2 ^ (ex - ez)).
    set (F := Z.pos mf * 2 ^ (ef - ez)).
    assert (HF : 0 < F).
    { apply Z.mul_pos_pos; [lia|apply pow2_pos; unfold ez; lia]. }
    unfold binary_normalize.
    destruct (X - F) as [|p|p] eqn:HD.
    + left; exact I.
    + rewrite bround_spec.
      apply pack_false_below with (c := ez); try assumption; try (unfold ez; lia).
      rewrite Z.sub_diag, Z.pow_0_r, Z.mul_1_r. fold X. lia.
    + rewrite bround_spec. left. apply pack_true_nonpos. lia.
Qed.

(** The order of canonical doubles is the one [SFcompare] computes. *)
Lemma ltb_below x m e mB eB :
  below x m e -> flt m e (Z.pos mB) eB ->
  SFltb x (S754_finite false mB eB) = true.
Proof.
  intros [Hn|(m' & e' & -> & Hc & Hle)] Hlt.
  - destruct x as [s|s| |s m' e']; try destruct s; try destruct Hn; reflexivity.
  - unfold SFltb, SFcompare. unfold fle, flt in *.
    destruct (Z.compare_spec e' eB); try lia; try reflexivity.
    fold (Pos.compare m' mB). rewrite Pos2Z.inj_compare.
    destruct (Z.compare_spec (Z.pos m') (Z.pos mB)); try lia; reflexivity.
Qed.

(** The double of a positive integer below [2 ^ 1023] is a normal number:
    there is no overflow. *)
Lemma of_Z_pos b :
  0 < b < 2 ^ 1023 ->
  exists m e, normalize b 0 = (Z.pos m, e) /\
              of_Z b = S754_finite false m e /\
              2 ^ 52 <= Z.pos m < 2 ^ 53 /\ -52 <= e <= 971.
Proof.
  intros Hb. destruct b as [|p|p]; try lia.
  unfold of_Z, binary_normalize. rewrite bround_spec.
  pose proof (rnd_at_bounds (Z.pos p) 0 ltac:(lia)) as [Hr Hn]. cbn zeta in *.
  pose proof (digits_pos (Z.pos p) ltac:(lia)) as Hd.
  assert (Hd64 : digits (Z.pos p) <= 1023) by (apply digits_le_iff; lia).
  unfold normalize, pack.
  set (E := fexp64 (digits (Z.pos p) + 0)) in *.
  assert (HE : E = digits (Z.pos p) + 0 - 53) by (unfold E, fexp64; lia).
  specialize (Hn HE).
  set (r := rnd_at (Z.pos p) 0 E) in *.
  destruct (Z.eqb_spec r (2 ^ 53)); cbn [fst snd].
  - change (2 ^ 52) with (Z.pos (2 ^ 52)%positive).
    cbv iota. destruct (Z.leb_spec (E + 1) 971); [|lia].
    eexists _, _. split; [reflexivity|]. split; [reflexivity|]. split; [|lia]. simpl; lia.
  - destruct r as [|q|q] eqn:Er; try lia.
    destruct (Z.leb_spec E 971); [|lia].
    eexists _, _. split; [reflexivity|]. split; [reflexivity|]. lia.
Qed.

(** Multiplying a normal double by 0.95 gives a smaller normal double. *)
Lemma mul_c_lt mB eB :
  2 ^ 52 <= Z.pos mB < 2 ^ 53 -> -1000 <= eB <= 971 ->
  exists mx ex, mul (S754_finite false mB eB) (S754_finite false Mc (-53)) =
                  S754_finite false mx ex /\
                canonical (Z.pos mx) ex /\ ex <= 971 /\
                flt (Z.pos mx) ex (Z.pos mB) eB.
Proof.
  intros Hm He. unfold mul, SFmul. cbn [xorb].
  rewrite Pos2Z.inj_mul.
  set (M := Z.pos mB * Z.pos Mc).
  assert (HM : 2 ^ 104 <= M < 2 ^ 106) by (unfold M, Mc; lia).
  assert (Hd : 105 <= digits M <= 106).
  { split.
    - destruct (Z.le_gt_cases 105 (digits M)); [assumption|].
      assert (digits M <= 104) by lia.
      apply digits_le_iff in H0; lia.
    - apply digits_le_iff; lia. }
  rewrite bra_spec by (unfold fexp64; lia).
  pose proof (normalize_canonical M (eB + -53) ltac:(lia)) as Hcan.
  pose proof (rnd_at_bounds M (eB + -53) ltac:(lia)) as [Hr Hn]. cbn zeta in *.
  unfold normalize, pack in *.
  set (E := fexp64 (digits M + (eB + -53))) in *.
  assert (HE : E = digits M + (eB + -53) - 53) by (unfold E, fexp64; lia).
  specialize (Hn HE).
  set (r := rnd_at M (eB + -53) E) in *.
  assert (Hflt : flt (fst (if r =? 2 ^ 53 then (2 ^ 52, E + 1) else (r, E)))
                     (snd (if r =? 2 ^ 53 then (2 ^ 52, E + 1) else (r, E)))
                     (Z.pos mB) eB).
  { unfold flt. destruct (Z.eq_dec (digits M) 105) as [H5|H5].
    - (* the product has 105 bits: the exponent drops by one *)
      destruct (Z.eqb_spec r (2 ^ 53)) as [Hc|Hc]; cbn [fst snd]; [|lia].
      right. split; [lia|].
      destruct (Z.eq_dec (Z.pos mB) (2 ^ 52)) as [Hm2|]; [exfalso|lia].
      unfold r, rnd_at in Hc. destruct (Z.leb_spec E (eB + -53)); [lia|].
      replace (E - (eB + -53)) with 52 in Hc by lia.
      unfold M in Hc. rewrite Hm2, Z.mul_comm in Hc.
      rewrite rne_exact in Hc by lia. unfold Mc in Hc. simpl in Hc. lia.
    - (* the product has 106 bits: the exponent is kept *)
      assert (Hrm : r < Z.pos mB).
      { unfold r, rnd_at. destruct (Z.leb_spec E (eB + -53)); [lia|].
        replace (E - (eB + -53)) with 53 by lia.
        pose proof (rne_bounds M 53) as Hb.
        pose proof (Z.mul_div_le M (2 ^ 53) ltac:(lia)) as Hq.
        unfold M, Mc in *. lia. }
      destruct (Z.eqb_spec r (2 ^ 53)); cbn [fst snd]; lia. }
  destruct (fst (if r =? 2 ^ 53 then (2 ^ 52, E + 1) else (r, E))) as [|mx|mx] eqn:Hf.
  - exfalso. destruct (Z.eqb_spec r (2 ^ 53)); cbn [fst] in Hf; lia.
  - destruct Hcan as [Hcan|Hcan]; [lia|].
    set (ex := snd (if r =? 2 ^ 53 then (2 ^ 52, E + 1) else (r, E))) in *.
    assert (ex <= 971) by (unfold flt in Hflt; lia).
    destruct (Z.leb_spec ex 971); [|lia].
    exists mx, ex. auto.
  - destruct Hcan as [Hcan|[Hcan _]]; lia.
Qed.

(** *** The amount is below the balance

    [PERCENTAGE_TO_DRAIN / 100] is the double nearest to 0.95. *)
Lemma div_95_100 :
  div Config.PERCENTAGE_TO_DRAIN (of_Z 100) = S754_finite false Mc (-53).
Proof. reflexivity. Qed.

Lemma leb_zero_nonneg fee : SFleb (of_Z 0) fee = true -> nonneg fee.
Proof.
  destruct fee as [s|s| |s m e]; try destruct s; cbn; try discriminate; auto.
Qed.

Lemma some_eq {A} (x y : A) : Some x = Some y -> x = y.
Proof. congruence. Qed.

Lemma to_Z_nonpos x a : nonpos x -> to_Z x = Some a -> a <= 0.
Proof.
  destruct x as [s|s| |s m e]; try destruct s; unfold nonpos, to_Z;
    cbv beta iota zeta; try contradiction; try discriminate; intros _.
  - intros [= <-]; lia.
  - intros [= <-]; lia.
  - pose proof (Pos2Z.neg_is_neg m) as Hneg.
    destruct (Z.leb_spec 0 e).
    + intros <-%some_eq. pose proof (pow2_pos e ltac:(lia)).
      nia.
    + destruct (_ =? _); [|discriminate]. intros <-%some_eq.
      pose proof (pow2_pos (- e) ltac:(lia)).
      apply Z.lt_le_incl, Z.div_lt_upper_bound; lia.
Qed.

(** The amount is below the balance, as doubles and as integers. *)
Lemma amount_lt_balance b fee :
  0 < b < 2 ^ 1023 -> SFleb (of_Z 0) fee = true ->
  SFltb (floor (sub (mul (of_Z b) (S754_finite false Mc (-53))) fee)) (of_Z b) = true /\
  forall a, to_Z (floor (sub (mul (of_Z b) (S754_finite false Mc (-53))) fee)) = Some a -> a < b.
Proof.
  intros Hb Hfee. apply leb_zero_nonneg in Hfee.
  destruct (of_Z_pos b Hb) as (mB & eB & HnB & -> & HmB & HeB).
  destruct (mul_c_lt mB eB HmB ltac:(lia)) as (mx & ex & -> & Hcx & Hex & Hlt).
  pose proof (floor_below _ _ _ (sub_below mx ex fee Hcx Hex Hfee)) as Hbel.
  split; [eapply ltb_below; eassumption|].
  intros a Ha.
  destruct Hbel as [Hn|(ma & ea & Ea & Hca & Hle)].
  - pose proof (to_Z_nonpos _ _ Hn Ha). lia.
  - rewrite Ea in Ha. unfold to_Z in Ha. cbv beta iota zeta in Ha.
    destruct (Z.lt_ge_cases a b) as [|Hge]; [assumption|exfalso].
    assert (Hv : b * 2 ^ (0 - Z.min 0 ea) <= Z.pos ma * 2 ^ (ea - Z.min 0 ea)).
    { destruct (Z.leb_spec 0 ea).
      - apply some_eq in Ha. subst a. rewrite Z.min_l by lia. simpl (0 - 0). rewrite Z.sub_0_r. lia.
      - destruct (Z.eqb_spec (Z.pos ma mod 2 ^ (- ea)) 0) as [Hmod|]; [|discriminate].
        apply some_eq in Ha. subst a. rewrite Z.min_r by lia.
        rewrite Z.sub_diag, Z.pow_0_r, Z.mul_1_r, Z.sub_0_l.
        pose proof (pow2_pos (- ea) ltac:(lia)) as Hp.
        pose proof (Z.div_mod (Z.pos ma) (2 ^ (- ea)) ltac:(lia)). nia. }
    pose proof (normalize_le b 0 (Z.pos ma) ea (Z.min 0 ea) ltac:(lia) Hca
                  ltac:(lia) ltac:(lia) Hv) as HleB.
    rewrite HnB in HleB. cbn [fst snd] in HleB.
    unfold fle, flt in *. lia.
Qed.

(** *** Exact arithmetic on small balances

    [rne] rounds to the nearest integer: a value more than one half above
    [L - 1] rounds to [L] or above. *)
Lemma rne_ge M n L :
  0 <= M -> 0 < n -> 2 * L * 2 ^ n - 2 ^ n < 2 * M -> L <= rne M n.
Proof.
  intros HM Hn H. unfold rne.
  pose proof (pow2_pos n ltac:(lia)) as Hpn.
  pose proof (Z.div_mod M (2 ^ n) ltac:(lia)) as Hdm.
  pose proof (Z.mod_pos_bound M (2 ^ n) Hpn) as Hb.
  set (r := M mod 2 ^ n) in *. set (q := M / 2 ^ n) in *.
  assert (L - 1 <= q) by nia.
  destruct (Z.compare_spec (2 * r) (2 ^ n)); [destruct (Z.even q)| |]; nia.
Qed.

(** A value more than one half below [U] rounds below [U]. *)
Lemma rne_lt M n U :
  0 <= M -> 0 < n -> 2 * M < 2 * U * 2 ^ n - 2 ^ n -> rne M n < U.
Proof.
  intros HM Hn H. unfold rne.
  pose proof (pow2_pos n ltac:(lia)) as Hpn.
  pose proof (Z.div_mod M (2 ^ n) ltac:(lia)) as Hdm.
  pose proof (Z.mod_pos_bound M (2 ^ n) Hpn) as Hb.
  set (r := M mod 2 ^ n) in *. set (q := M / 2 ^ n) in *.
  assert (q <= U - 1) by nia.
  destruct (Z.compare_spec (2 * r) (2 ^ n)); [destruct (Z.even q)| |]; nia.
Qed.

(** A value that fits in 53 bits is represented exactly. *)
Lemma normalize_exact M e :
  0 < M -> digits M <= 53 -> -1074 <= digits M + e - 53 ->
  normalize M e = (M * 2 ^ (53 - digits M), digits M + e - 53).
Proof.
  intros HM Hd He. unfold normalize.
  replace (fexp64 (digits M + e)) with (digits M + e - 53) by (unfold fexp64; lia).
  unfold rnd_at. destruct (Z.leb_spec (digits M + e - 53) e); [|lia].
  replace (e - (digits M + e - 53)) with (53 - digits M) by lia.
  assert (Hs : digits (M * 2 ^ (53 - digits M)) = 53).
  { rewrite digits_shift by lia. lia. }
  assert (0 < M * 2 ^ (53 - digits M)).
  { apply Z.mul_pos_pos; [lia|apply pow2_pos; lia]. }
  destruct (Z.eqb_spec (M * 2 ^ (53 - digits M)) (2 ^ 53)) as [Hc|]; [|reflexivity].
  rewrite Hc in Hs. discriminate Hs.
Qed.

(** An integer of at most 53 bits is its own double. *)
Lemma of_Z_exact z :
  0 < z < 2 ^ 53 ->
  exists m, of_Z z = S754_finite false m (digits z - 53) /\
            Z.pos m = z * 2 ^ (53 - digits z).
Proof.
  intros Hz. destruct z as [|p|p]; try lia.
  pose proof (digits_pos (Z.pos p) ltac:(lia)) as Hd.
  assert (Hd53 : digits (Z.pos p) <= 53) by (apply digits_le_iff; lia).
  unfold of_Z, binary_normalize. rewrite bround_spec, normalize_exact by lia.
  unfold pack. cbn [fst snd].
  assert (Hpos : 0 < Z.pos p * 2 ^ (53 - digits (Z.pos p))).
  { apply Z.mul_pos_pos; [lia|apply pow2_pos; lia]. }
  destruct (Z.pos p * 2 ^ (53 - digits (Z.pos p))) as [|m|m] eqn:Hm; try lia.
  destruct (Z.leb_spec (digits (Z.pos p) + 0 - 53) 971); [|lia].
  exists m. split; [f_equal; lia|reflexivity].
Qed.

(** The mantissa of 0.95 as a double: 0.95 less [40 / (100 * 2 ^ 53)]. *)
Lemma Mc_value : 100 * Z.pos Mc = 95 * 2 ^ 53 - 40.
Proof. reflexivity. Qed.

(** The rounded product [b * 0.95] lies in the same unit interval as the
    exact one, as long as the balance is below [2 ^ 50]. *)
Lemma rnd_product_bounds b :
  0 < b < 2 ^ 50 ->
  let M0 := b * Z.pos Mc in
  let E := digits M0 - 106 in
  let N := 95 * b / 100 in
  -53 <= E <= -3 /\
  N * 2 ^ (- E) <= rnd_at M0 (-53) E < (N + 1) * 2 ^ (- E).
Proof.
  intros Hb M0 E N.
  assert (HM0 : 2 ^ 52 <= M0 < 2 ^ 103) by (unfold M0, Mc; lia).
  assert (Hd : 53 <= digits M0 <= 103).
  { split.
    - destruct (Z.le_gt_cases 53 (digits M0)) as [|H]; [assumption|].
      assert (H' : digits M0 <= 52) by lia. apply digits_le_iff in H'; lia.
    - apply digits_le_iff; lia. }
  split; [unfold E; lia|].
  destruct (digits_bounds M0 ltac:(lia)) as [Hd1 Hd2].
  pose proof (Z.div_mod (95 * b) 100 ltac:(lia)) as Hdm.
  pose proof (Z.mod_pos_bound (95 * b) 100 ltac:(lia)) as Hrho.
  fold N in Hdm. set (rho := (95 * b) mod 100) in *.
  pose proof Mc_value as HMc.
  unfold rnd_at. destruct (Z.leb_spec E (-53)) as [HE|HE].
  - (* the product already fits: b = 1 *)
    replace (-53 - E) with 0 by (unfold E in *; lia).
    replace (- E) with 53 by (unfold E in *; lia).
    rewrite Z.pow_0_r, Z.mul_1_r.
    assert (digits M0 = 53) by (unfold E in HE; lia).
    assert (M0 < 2 ^ 53) by (apply digits_le_iff; lia).
    assert (b = 1) by (unfold M0, Mc in *; lia).
    subst b. unfold N, M0, Mc. simpl. lia.
  - set (n := E - -53) in *.
    assert (Hn : 0 < n <= 50) by (unfold n, E; lia).
    pose proof (pow2_pos n ltac:(lia)) as HP.
    assert (HPS : 2 ^ n * 2 ^ (- E) = 2 ^ 53).
    { rewrite <- pow2_split by (unfold n, E in *; lia). f_equal. unfold n. lia. }
    assert (HP50 : 2 ^ n <= 2 ^ 50) by (apply Z.pow_le_mono_r; lia).
    assert (HdP1 : 2 ^ n * 2 ^ 52 <= M0).
    { rewrite <- pow2_split by lia. replace (n + 52) with (digits M0 - 1) by (unfold n, E; lia).
      assumption. }
    assert (HdP2 : M0 < 2 ^ n * 2 ^ 53).
    { rewrite <- pow2_split by lia. replace (n + 53) with (digits M0) by (unfold n, E; lia).
      assumption. }
    pose proof (pow2_pos (- E) ltac:(unfold E; lia)) as HS.
    set (P := 2 ^ n) in *. set (S := 2 ^ (- E)) in *.
    split.
    + apply rne_ge; try lia. fold P.
      replace (2 * (N * S) * P) with (2 * N * (P * S)) by ring. rewrite HPS.
      unfold M0 in *. lia.
    + apply rne_lt; try lia. fold P.
      replace (2 * ((N + 1) * S) * P) with (2 * (N + 1) * (P * S)) by ring. rewrite HPS.
      unfold M0 in *. lia.
Qed.

(** The double product [b * 0.95], for a balance below [2 ^ 50]. *)
Lemma mul_c_exact b :
  0 < b < 2 ^ 50 ->
  exists mx ex,
    mul (of_Z b) (S754_finite false Mc (-53)) = S754_finite false mx ex /\
    canonical (Z.pos mx) ex /\ -53 <= ex <= -2 /\
    95 * b / 100 * 2 ^ (- ex) <= Z.pos mx < (95 * b / 100 + 1) * 2 ^ (- ex).
Proof.
  intros Hb.
  destruct (of_Z_exact b ltac:(lia)) as (mB & -> & HmB).
  pose proof (digits_pos b ltac:(lia)) as Hdb.
  assert (Hdb50 : digits b <= 50) by (apply digits_le_iff; lia).
  unfold mul, SFmul. cbn [xorb]. rewrite Pos2Z.inj_mul, HmB.
  set (k := 53 - digits b) in *.
  replace (b * 2 ^ k * Z.pos Mc) with (b * Z.pos Mc * 2 ^ k) by ring.
  replace (digits b - 53 + -53) with (-53 - k) by (unfold k; lia).
  pose proof (rnd_product_bounds b Hb) as [HE Hr]. cbn zeta in HE, Hr.
  set (M0 := b * Z.pos Mc) in *.
  assert (HM0 : 0 < M0) by (unfold M0; lia).
  assert (Hshift : digits (M0 * 2 ^ k) = digits M0 + k) by (apply digits_shift; unfold k; lia).
  rewrite bra_spec.
  2: { apply Z.mul_pos_pos; [lia|apply pow2_pos; unfold k; lia]. }
  2: { rewrite Hshift. unfold fexp64. lia. }
  rewrite normalize_shift by (unfold k; lia).
  pose proof (normalize_canonical M0 (-53) HM0) as Hcan.
  unfold normalize in *.
  replace (fexp64 (digits M0 + -53)) with (digits M0 - 106) in * by (unfold fexp64; lia).
  set (E := digits M0 - 106) in *.
  set (r := rnd_at M0 (-53) E) in *.
  set (N := 95 * b / 100) in *.
  assert (HN : 0 <= N) by (apply Z.div_pos; lia).
  pose proof (pow2_pos (- E) ltac:(lia)) as HS.
  unfold pack.
  destruct (Z.eqb_spec r (2 ^ 53)) as [Hc|Hc]; cbn [fst snd] in *.
  - change (2 ^ 52) with (Z.pos (2 ^ 52)%positive) in *. cbv iota.
    destruct (Z.leb_spec (E + 1) 971); [|lia].
    exists (2 ^ 52)%positive, (E + 1).
    split; [reflexivity|]. destruct Hcan as [Hcan|Hcan]; [discriminate|].
    split; [assumption|]. split; [lia|].
    assert (HS2 : 2 ^ (- E) = 2 * 2 ^ (- (E + 1))).
    { rewrite <- Z.pow_succ_r by lia. f_equal. lia. }
    rewrite HS2 in Hr. change (Z.pos (2 ^ 52)) with (2 ^ 52). lia.
  - destruct Hcan as [Hcan|Hcan].
    + exfalso. pose proof (rnd_at_bounds M0 (-53) HM0) as [_ Hn]. cbn zeta in Hn.
      replace (fexp64 (digits M0 + -53)) with E in Hn by (unfold fexp64, E; lia).
      fold r in Hn. specialize (Hn ltac:(unfold E; lia)). lia.
    + destruct r as [|mx|mx] eqn:Er; try (destruct Hcan; lia).
      destruct (Z.leb_spec E 971); [|lia].
      exists mx, E. split; [reflexivity|]. split; [assumption|]. split; [lia|assumption].
Qed.

Lemma leb_nonpos x : nonpos x -> SFleb x (of_Z 0) = true.
Proof.
  destruct x as [s|s| |s m e]; try destruct s; try contradiction; reflexivity.
Qed.

(** [Math.floor(x - F0)] for a double [x] in the unit interval above [N]. *)
Lemma amount_exact mx ex N F0 :
  canonical (Z.pos mx) ex -> -1000 <= ex <= -1 -> 0 <= N ->
  N * 2 ^ (- ex) <= Z.pos mx < (N + 1) * 2 ^ (- ex) ->
  0 < F0 < 2 ^ 53 ->
  let amount := floor (sub (S754_finite false mx ex) (of_Z F0)) in
  SFleb amount (of_Z 0) = true \/ amount = of_Z (N - F0).
Proof.
  intros Hc Hex HN Hmx HF amount. subst amount.
  destruct (of_Z_exact F0 HF) as (mF & -> & HmF).
  pose proof (digits_pos F0 ltac:(lia)) as HdF.
  assert (HdF53 : digits F0 <= 53) by (apply digits_le_iff; lia).
  unfold sub, SFsub. cbn [cond_Zopp].
  set (eF := digits F0 - 53) in *.
  set (ez := Z.min ex eF).
  rewrite !shl_align_fst by (unfold ez; lia). rewrite HmF.
  pose proof (pow2_pos (- ex) ltac:(lia)) as Ht.
  set (D1 := Z.pos mx - F0 * 2 ^ (- ex)).
  assert (HD : Z.pos mx * 2 ^ (ex - ez) - F0 * 2 ^ (53 - digits F0) * 2 ^ (eF - ez)
               = D1 * 2 ^ (ex - ez)).
  { unfold D1. rewrite Z.mul_sub_distr_r. f_equal.
    rewrite <- !Z.mul_assoc, <- !pow2_split by (unfold ez, eF; lia).
    do 2 f_equal. unfold eF. lia. }
  rewrite HD.
  pose proof (pow2_pos (ex - ez) ltac:(unfold ez; lia)) as Hsh.
  destruct (Z.lt_trichotomy D1 0) as [Hneg|[Hzero|Hpos]].
  - (* the fee exceeds the product *)
    left. apply leb_nonpos, floor_nonpos.
    unfold binary_normalize.
    destruct (D1 * 2 ^ (ex - ez)) as [|p|p] eqn:HDp; try nia.
    rewrite bround_spec. apply pack_true_nonpos. lia.
  - left. rewrite Hzero, Z.mul_0_l. reflexivity.
  - right. unfold binary_normalize.
    destruct (D1 * 2 ^ (ex - ez)) as [|p|p] eqn:HDp; try nia.
    rewrite bround_spec, <- HDp.
    replace ez with (ex - (ex - ez)) at 2 by lia.
    rewrite normalize_shift by (unfold ez; lia).
    assert (HD53 : D1 < 2 ^ 53) by (unfold D1, canonical in *; nia).
    pose proof (digits_pos D1 Hpos) as HdD.
    assert (HdD53 : digits D1 <= 53) by (apply digits_le_iff; lia).
    rewrite normalize_exact by lia.
    set (u := 53 - digits D1).
    pose proof (pow2_pos u ltac:(unfold u; lia)) as Hu.
    unfold pack. cbn [fst snd].
    destruct (D1 * 2 ^ u) as [|md|md] eqn:Hmd; try nia.
    destruct (Z.leb_spec (digits D1 + ex - 53) 971); [|lia].
    cbn [floor]. destruct (Z.leb_spec 0 (digits D1 + ex - 53)); [lia|].
    rewrite <- Hmd.
    replace (- (digits D1 + ex - 53)) with (u + - ex) by (unfold u; lia).
    rewrite pow2_split by (unfold u; lia).
    rewrite (Z.mul_comm D1), Z.div_mul_cancel_l by lia.
    assert (Hq : D1 / 2 ^ (- ex) = N - F0).
    { symmetry. apply Z.div_unique with (D1 - (N - F0) * 2 ^ (- ex)); unfold D1; nia. }
    rewrite Hq. destruct (Z.eqb_spec (N - F0) 0) as [->|]; reflexivity.
Qed.

Lemma of_Z_unfold z : 0 < z -> of_Z z = pack false (normalize z 0).
Proof.
  intros Hz. destruct z as [|p|p]; try lia.
  unfold of_Z, binary_normalize. apply bround_spec.
Qed.

(** *** Fees

    Adding two integers of at most 53 bits rounds their exact sum. *)
Lemma add_of_Z a b :
  0 < a < 2 ^ 53 -> 0 <= b < 2 ^ 53 -> add (of_Z a) (of_Z b) = of_Z (a + b).
Proof.
  intros Ha Hb. destruct (Z.eq_dec b 0) as [->|Hb0].
  - rewrite Z.add_0_r. destruct (of_Z_exact a Ha) as (ma & -> & _). reflexivity.
  - destruct (of_Z_exact a Ha) as (ma & -> & Hma).
    destruct (of_Z_exact b ltac:(lia)) as (mb & -> & Hmb).
    pose proof (digits_pos a ltac:(lia)) as Hda.
    pose proof (digits_pos b ltac:(lia)) as Hdb.
    assert (Hda53 : digits a <= 53) by (apply digits_le_iff; lia).
    assert (Hdb53 : digits b <= 53) by (apply digits_le_iff; lia).
    unfold add, SFadd. cbn [cond_Zopp].
    set (ez := Z.min (digits a - 53) (digits b - 53)).
    rewrite !shl_align_fst by (unfold ez; lia). rewrite Hma, Hmb.
    assert (Hsum : a * 2 ^ (53 - digits a) * 2 ^ (digits a - 53 - ez)
                   + b * 2 ^ (53 - digits b) * 2 ^ (digits b - 53 - ez)
                   = (a + b) * 2 ^ (- ez)).
    { rewrite <- !Z.mul_assoc, <- !pow2_split by (unfold ez; lia).
      rewrite Z.mul_add_distr_r. f_equal; do 2 f_equal; lia. }
    rewrite Hsum.
    pose proof (pow2_pos (- ez) ltac:(unfold ez; lia)) as Hp.
    unfold binary_normalize.
    destruct ((a + b) * 2 ^ (- ez)) as [|p|p] eqn:Hs; try nia.
    rewrite bround_spec, <- Hs.
    replace ez with (0 - - ez) at 2 by lia.
    rewrite normalize_shift by (unfold ez; lia).
    symmetry. apply of_Z_unfold. lia.
Qed.

Lemma digits_mono a b : 0 < a <= b -> digits a <= digits b.
Proof.
  intros H. unfold digits. pose proof (Z.log2_le_mono a b ltac:(lia)). lia.
Qed.

(** Integers of at most 53 bits compare as their doubles do. *)
Lemma ltb_of_Z h x :
  0 <= h < 2 ^ 53 -> 0 <= x < 2 ^ 53 -> SFltb (of_Z h) (of_Z x) = (h <? x).
Proof.
  intros Hh Hx.
  destruct (Z.eq_dec h 0) as [->|Hh0]; destruct (Z.eq_dec x 0) as [->|Hx0].
  - reflexivity.
  - destruct (of_Z_exact x ltac:(lia)) as (mx & -> & _).
    destruct (Z.ltb_spec 0 x); [reflexivity|lia].
  - destruct (of_Z_exact h ltac:(lia)) as (mh & -> & _).
    destruct (Z.ltb_spec h 0); [lia|reflexivity].
  - destruct (of_Z_exact h ltac:(lia)) as (mh & -> & Hmh).
    destruct (of_Z_exact x ltac:(lia)) as (mx & -> & Hmx).
    unfold SFltb, SFcompare.
    fold (Pos.compare mh mx). rewrite Pos2Z.inj_compare, Hmh, Hmx.
    pose proof (digits_pos h ltac:(lia)) as Hdh.
    pose proof (digits_pos x ltac:(lia)) as Hdx.
    assert (digits h <= 53) by (apply digits_le_iff; lia).
    assert (digits x <= 53) by (apply digits_le_iff; lia).
    destruct (Z.ltb_spec h x) as [Hlt|Hge].
    + pose proof (digits_mono h x ltac:(lia)).
      destruct (Z.compare_spec (digits h - 53) (digits x - 53)) as [He| |]; try lia;
        try reflexivity.
      replace (digits x) with (digits h) by lia.
      pose proof (pow2_pos (53 - digits h) ltac:(lia)).
      destruct (Z.compare_spec (h * 2 ^ (53 - digits h)) (x * 2 ^ (53 - digits h)));
        try nia; reflexivity.
    + pose proof (digits_mono x h ltac:(lia)).
      destruct (Z.compare_spec (digits h - 53) (digits x - 53)) as [He| |]; try lia;
        try reflexivity.
      replace (digits x) with (digits h) by lia.
      pose proof (pow2_pos (53 - digits h) ltac:(lia)).
      destruct (Z.compare_spec (h * 2 ^ (53 - digits h)) (x * 2 ^ (53 - digits h)));
        try nia; reflexivity.
Qed.

Lemma of_Z_shape z :
  0 <= z < 2 ^ 53 ->
  of_Z z = S754_zero false \/ exists m e, of_Z z = S754_finite false m e.
Proof.
  intros Hz. destruct (Z.eq_dec z 0) as [->|]; [left; reflexivity|right].
  destruct (of_Z_exact z ltac:(lia)) as (m & -> & _). eauto.
Qed.

Lemma max2_of_Z h x :
  0 <= h < 2 ^ 53 -> 0 <= x < 2 ^ 53 ->
  max2 (of_Z h) (of_Z x) = of_Z (Z.max h x).
Proof.
  intros Hh Hx. pose proof (ltb_of_Z h x Hh Hx) as Hlt.
  unfold max2, gtb. rewrite Hlt.
  destruct (of_Z_shape h Hh) as [Eh|(mh & eh & Eh)];
    destruct (of_Z_shape x Hx) as [Ex|(mx & ex & Ex)];
    rewrite ?Eh, ?Ex in *; cbn [is_nan orb];
    destruct (Z.ltb_spec h x);
    rewrite ?Z.max_r, ?Z.max_l by lia; auto.
Qed.

Lemma fold_max2_of_Z fs h :
  0 <= h < 2 ^ 53 -> Forall (fun f => 0 <= f < 2 ^ 53) fs ->
  fold_left max2 (map of_Z fs) (of_Z h) = of_Z (fold_left Z.max fs h).
Proof.
  intros Hh Hfs. revert h Hh. induction Hfs as [|f fs Hf Hfs IH]; intros h Hh.
  - reflexivity.
  - cbn [map fold_left]. rewrite max2_of_Z by assumption. apply IH. lia.
Qed.

(** [Math.max] of such integers is the double of their maximum. *)
Lemma Math_max_of_Z f fs :
  Forall (fun f => 0 <= f < 2 ^ 53) (f :: fs) ->
  Math_max (map of_Z (f :: fs)) = of_Z (fold_left Z.max (f :: fs) 0).
Proof.
  intros Hfs. inversion Hfs as [|? ? Hf Hfs']; subst.
  unfold Math_max. cbn [map fold_left].
  replace (max2 (S754_infinity true) (of_Z f)) with (of_Z f).
  - rewrite Z.max_r by lia. apply fold_max2_of_Z; assumption.
  - destruct (of_Z_shape f Hf) as [->|(m & e & ->)]; reflexivity.
Qed.

End RoundingFacts.

(* ================================================================== *)
(** ** Facts about the amount *)

Module AmountFacts.

Import Number Rounding RoundingFacts.

(** An integer of at most 53 bits is read back from its double. *)
Lemma to_Z_of_Z z : 0 <= z < 2 ^ 53 -> to_Z (of_Z z) = Some z.
Proof.
  intros Hz. destruct (Z.eq_dec z 0) as [->|Hz0]; [reflexivity|].
  destruct (of_Z_exact z ltac:(lia)) as (m & -> & Hm).
  pose proof (digits_pos z ltac:(lia)) as Hd.
  assert (Hd53 : digits z <= 53) by (apply digits_le_iff; lia).
  unfold to_Z. cbv beta iota zeta. rewrite Hm.
  destruct (Z.leb_spec 0 (digits z - 53)).
  - replace (53 - digits z) with 0 by lia.
    replace (digits z - 53) with 0 by lia. rewrite Z.pow_0_r. f_equal. lia.
  - replace (- (digits z - 53)) with (53 - digits z) by lia.
    pose proof (pow2_pos (53 - digits z) ltac:(lia)).
    rewrite Z.mod_mul, Z.div_mul by lia. reflexivity.
Qed.

Lemma leb_of_Z_zero z : 0 <= z -> leb (of_Z z) (of_Z 0) = false -> 0 < z.
Proof.
  intros Hz H. destruct (Z.eq_dec z 0) as [->|]; [discriminate H|lia].
Qed.

Lemma leb_of_Z_nonpos z : z <= 0 -> leb (of_Z z) (of_Z 0) = true.
Proof.
  intros Hz. destruct (Z.eq_dec z 0) as [->|]; [reflexivity|].
  apply leb_nonpos, of_Z_neg. lia.
Qed.

Lemma maximum_bounds B fs h :
  0 <= h < B -> Forall (fun f => 0 <= f < B) fs ->
  0 <= fold_left Z.max fs h < B.
Proof.
  intros Hh Hfs. revert h Hh. induction Hfs as [|f fs Hf _ IH]; intros h Hh.
  - exact Hh.
  - cbn [fold_left]. apply IH. lia.
Qed.

Lemma Forall_weaken_53 fs :
  Forall (fun f => 0 <= f < 2 ^ 52) fs -> Forall (fun f => 0 <= f < 2 ^ 53) fs.
Proof. apply Forall_impl. intros; lia. Qed.

(** The estimated fee of small integer fees is the exact one. *)
Lemma estimatedFees_exact fs :
  Forall (fun f => 0 <= f < 2 ^ 52) fs ->
  App.estimatedFees (map of_Z fs) = of_Z (exact_fees fs) /\
  0 < exact_fees fs < 2 ^ 53.
Proof.
  intros Hfs. unfold App.estimatedFees, App.priorityFee, exact_fees, maximum.
  destruct fs as [|f fs].
  - split; [reflexivity|lia].
  - pose proof (maximum_bounds (2 ^ 52) (f :: fs) 0 ltac:(lia) Hfs) as Hb.
    cbn [map]. change (of_Z f :: map of_Z fs) with (map of_Z (f :: fs)).
    rewrite Math_max_of_Z by (apply Forall_weaken_53; assumption).
    rewrite add_of_Z by lia. split; [reflexivity|lia].
Qed.

(** [amountToSend] on a balance below [2 ^ 50] and an integer fee. *)
Lemma amountToSend_exact b F0 :
  0 < b < 2 ^ 50 -> 0 < F0 < 2 ^ 53 ->
  leb (App.amountToSend (of_Z b) (of_Z F0)) (of_Z 0) = true \/
  App.amountToSend (of_Z b) (of_Z F0) = of_Z (95 * b / 100 - F0).
Proof.
  intros Hb HF. unfold App.amountToSend. rewrite div_95_100.
  destruct (mul_c_exact b Hb) as (mx & ex & -> & Hc & Hex & Hmx).
  apply amount_exact; try assumption; try lia.
  apply Z.div_pos; lia.
Qed.

(** Adding a non-negative double to a positive one gives no NaN and no
    negative number. *)
Lemma add_nonneg m e y :
  nonneg y -> nonneg (add (S754_finite false m e) y).
Proof.
  intros Hy. destruct y as [s|s| |s my ey]; try destruct s; try destruct Hy;
    try exact I.
  unfold add, SFadd. cbn [cond_Zopp].
  match goal with |- nonneg (binary_normalize _ _ ?z _ _) =>
    assert (Hz : 0 < z) by lia; destruct z as [|p|p]; try lia end.
  unfold binary_normalize. rewrite bround_spec. apply pack_false_nonneg. lia.
Qed.

Lemma max2_nonneg h x :
  nonneg h \/ h = S754_infinity true -> nonneg x -> nonneg (max2 h x).
Proof.
  intros [Hh| ->] Hx.
  - unfold max2, gtb.
    destruct h as [sh|sh| |sh mh eh]; try destruct sh; try destruct Hh;
      destruct x as [sx|sx| |sx mx ex]; try destruct sx; try destruct Hx;
      cbn [is_nan orb]; try exact I;
      match goal with |- nonneg (if ?c then _ else _) => destruct c; exact I end.
  - destruct x as [sx|sx| |sx mx ex]; try destruct sx; try destruct Hx; exact I.
Qed.

(** [Math.max] of non-negative doubles is non-negative. *)
Lemma Math_max_nonneg x xs :
  Forall nonneg (x :: xs) -> nonneg (Math_max (x :: xs)).
Proof.
  unfold Math_max.
  assert (H : forall l h, (nonneg h \/ h = S754_infinity true) ->
                          Forall nonneg l -> l <> [] -> nonneg (fold_left max2 l h)).
  { induction l as [|y l IH]; intros h Hh Hl Hne; [congruence|].
    inversion Hl as [|? ? Hy Hl']; subst. cbn [fold_left].
    pose proof (max2_nonneg h y Hh Hy) as Hm.
    destruct l as [|z l]; [exact Hm|].
    apply IH; [left; exact Hm|assumption|discriminate]. }
  intros Hl. apply H; [right; reflexivity|assumption|discriminate].
Qed.

Lemma estimatedFees_nonneg fs :
  Forall (fun f => 0 <= f) fs -> nonneg (App.estimatedFees (map of_Z fs)).
Proof.
  intros Hfs. unfold App.estimatedFees.
  change (of_Z 5000) with (S754_finite false 5497558138880000 (-40)) at 1.
  apply add_nonneg. unfold App.priorityFee.
  destruct fs as [|f fs]; [exact I|].
  cbn [map]. apply Math_max_nonneg.
  change (of_Z f :: map of_Z fs) with (map of_Z (f :: fs)).
  apply Forall_map. revert Hfs. apply Forall_impl. intros a. apply of_Z_nonneg.
Qed.

(** A qualifying amount is a positive number, never NaN. *)
Lemma positive_amount b fee :
  0 < b < 2 ^ 1023 -> nonneg fee ->
  let amount := floor (sub (mul (of_Z b) (S754_finite false Mc (-53))) fee) in
  leb amount (of_Z 0) = false -> gtb amount (of_Z 0) = true.
Proof.
  intros Hb Hfee amount Hle. subst amount.
  destruct (of_Z_pos b Hb) as (mB & eB & HnB & EB & HmB & HeB). rewrite EB in *.
  destruct (mul_c_lt mB eB HmB ltac:(lia)) as (mx & ex & Ex & Hcx & Hex & Hlt).
  rewrite Ex in *.
  pose proof (floor_below _ _ _ (sub_below mx ex fee Hcx Hex Hfee)) as Hbel.
  destruct Hbel as [Hn|(ma & ea & Ea & _)].
  - apply leb_nonpos in Hn. unfold leb in Hle. congruence.
  - rewrite Ea. reflexivity.
Qed.

End AmountFacts.

(* ================================================================== *)
(** ** The definitions on concrete inputs *)

Example amount_of_two_sol :
  App.amountToSend (Number.of_Z 2000000000) (App.estimatedFees [])
  = Number.of_Z 1899990000.
Proof. reflexivity. Qed.

Example fees_of_three_entries :
  App.estimatedFees (map Number.of_Z [1200; 300; 0]) = Number.of_Z 6200.
Proof. reflexivity. Qed.

Example amount_when_fees_exceed :
  App.amountToSend (Number.of_Z 19) (App.estimatedFees []) = Number.of_Z (-9982).
Proof. reflexivity. Qed.

Example amount_without_priority_fee :
  AppDrain.amountToSend (Number.of_Z 2000000000) = Number.of_Z 1899995000.
Proof. reflexivity. Qed.

Example floor_of_minus_a_half :
  Number.floor (Number.div (Number.of_Z (-1)) (Number.of_Z 2)) = Number.of_Z (-1).
Proof. reflexivity. Qed.

Example max_of_nothing : Number.Math_max [] = S754_infinity true.
Proof. reflexivity. Qed.

Example includes_rejection :
  includes "User rejected the request." "User rejected" = true /\
  includes "Transaction simulation failed" "User rejected" = false.
Proof. split; reflexivity. Qed.

Example last_four : last_chars 4 Sample.key = "gAsU".
Proof. reflexivity. Qed.

(* ================================================================== *)
(** ** Running the routines symbolically *)

Module Run.

Arguments Number.leb : simpl never.
Arguments Number.of_Z : simpl never.
Arguments Number.mul : simpl never.
Arguments Number.div : simpl never.
Arguments App.amountToSend : simpl never.
Arguments App.estimatedFees : simpl never.
Arguments AppDrain.amountToSend : simpl never.
Arguments App.user_rejected : simpl never.
Arguments AppDrain.user_rejected : simpl never.
Arguments with_quoted : simpl never.
Arguments first_chars : simpl never.
Arguments last_chars : simpl never.
Arguments Config.RECEIVER_ADDRESS : simpl never.
Arguments Config.PERCENTAGE_TO_DRAIN : simpl never.

(** Unfold the statements of a routine down to matches on the world's
    answers. *)
Ltac unfold_js :=
  unfold function, try_finally, try_catch, bind, await, emit, ret, return_,
    throw, sleep, setTimeout, setStatusMessage, setIsProcessing,
    setIsConnecting, setConnectedPublicKey, incrRetryCount, new_PublicKey,
    addSignature, trace, final, result.

Ltac unfold_app :=
  unfold reports, App.connectToWallet, App.connectToWallet_try,
    App.connectToWallet_catch, App.processTransaction,
    App.processTransaction_try, App.processTransaction_catch;
  unfold_js; cbn.

(** Split on the next answer the run is waiting for. *)
Ltac branch :=
  match goal with
  | |- context [match ?x with _ => _ end] =>
      lazymatch x with
      | context [match _ with _ => _ end] => fail
      | _ => destruct x eqn:?
      end
  | |- context [if ?x then _ else _] =>
      lazymatch x with
      | context [if _ then _ else _] => fail
      | context [match _ with _ => _ end] => fail
      | _ => destruct x eqn:?
      end
  end; cbn.

Ltac branch_in H :=
  match type of H with
  | context [match ?x with _ => _ end] =>
      lazymatch x with
      | context [match _ with _ => _ end] => fail
      | _ => destruct x eqn:?
      end
  | context [if ?x then _ else _] =>
      lazymatch x with
      | context [if _ then _ else _] => fail
      | context [match _ with _ => _ end] => fail
      | _ => destruct x eqn:?
      end
  end; cbn in H.

(** Every member of a concrete list, one at a time. *)
Ltac members H :=
  repeat match type of H with
         | In _ (_ :: _) => destruct H as [H|H]; [try discriminate H|]
         | In _ [] => destruct H
         | _ \/ _ => destruct H as [H|H]; [try discriminate H|]
         | False => destruct H
         end.

(** Replace the calls of the world by the answers found on the path. *)
Ltac use_answers :=
  repeat match goal with
         | H : ?x = _ |- context [?x] => rewrite H
         end.

End Run.
Import Run.

(* ================================================================== *)
(** ** Laws of [try], [catch] and [finally] *)

Section TryLaws.

Context {A : Type}.

(** With a handler that always completes, a [try]-[catch] statement never
    throws. *)
Lemma try_catch_result (body : js A) handler ui :
  total_handler handler ->
  forall err, result (try_catch body handler ui) <> Thrown err.
Proof.
  intros Hh err. unfold try_catch, result.
  destruct (body ui) as [[t ui1] [a| |e]]; cbn; try discriminate.
  destruct (Hh e ui1) as (t2 & ui2 & a & ->). cbn. discriminate.
Qed.

(** The [finally] block runs however the body completes. *)
Lemma try_finally_resets (body : js A) ui :
  isProcessing (final (try_finally body (setIsProcessing false) ui)) = false.
Proof.
  unfold try_finally, setIsProcessing, final.
  destruct (body ui) as [[t ui1] c]. reflexivity.
Qed.

Lemma try_finally_result (body : js A) ui :
  result (try_finally body (setIsProcessing false) ui) = result (body ui).
Proof.
  unfold try_finally, setIsProcessing, result.
  destruct (body ui) as [[t ui1] c]. reflexivity.
Qed.

End TryLaws.

(** A function whose body does not throw returns normally. *)
Lemma function_result body ui :
  (forall err, result (body ui) <> Thrown err) ->
  result (function body ui) = Normal tt.
Proof.
  unfold function, result. destruct (body ui) as [[t ui1] [[]| |e]]; cbn; intros H.
  - reflexivity.
  - reflexivity.
  - now destruct (H e).
Qed.

Lemma function_final body ui : final (function body ui) = final (body ui).
Proof.
  unfold function, final. destruct (body ui) as [[t ui1] [a| |e]]; reflexivity.
Qed.

(* ================================================================== *)
(** ** Facts about the runs of the routines *)

Section RunFacts.

Variable w : World.
Variable MINIMUM_BALANCE : number.

Import Number.

(** What a [SystemProgram.transfer] event of [processTransaction] carries. *)
Lemma processTransaction_transfer pk ui f t l :
  In (SystemProgram_transfer f t l)
     (trace (App.processTransaction w MINIMUM_BALANCE pk ui)) ->
  f = {| base58 := pk |} /\ t = {| base58 := Config.RECEIVER_ADDRESS |} /\
  exists b fs,
    getBalance w {| base58 := pk |} = Resolved b /\
    getRecentPrioritizationFees w = Resolved fs /\
    leb (of_Z b) (of_Z 0) = false /\
    l = App.amountToSend (of_Z b) (App.estimatedFees (map of_Z fs)) /\
    leb l (of_Z 0) = false.
Proof.
  unfold App.processTransaction, App.processTransaction_try,
    App.processTransaction_catch.
  unfold_js. cbn.
  intros H.
  repeat branch_in H; members H.
  all: try (injection H as <- <- <-; repeat split; eauto 10).
Qed.

(** The same for [drainWallet]. *)
Lemma drainWallet_transfer pk ui f t l :
  In (SystemProgram_transfer f t l) (trace (AppDrain.drainWallet w pk ui)) ->
  f = {| base58 := pk |} /\ t = {| base58 := Config.RECEIVER_ADDRESS |} /\
  exists b,
    getBalance w {| base58 := pk |} = Resolved b /\
    leb (of_Z b) (of_Z 0) = false /\
    l = AppDrain.amountToSend (of_Z b) /\
    leb l (of_Z 0) = false.
Proof.
  unfold AppDrain.drainWallet, AppDrain.drainWallet_try,
    AppDrain.drainWallet_catch.
  unfold_js. cbn.
  intros H.
  repeat branch_in H; members H.
  all: try (injection H as <- <- <-; repeat split; eauto 10).
Qed.

(** The transactions [processTransaction] builds and serialises. *)
Lemma processTransaction_transactions pk ui e :
  In e (trace (App.processTransaction w MINIMUM_BALANCE pk ui)) ->
  (forall tx, In tx (built_transactions e) ->
     exists amount blockhash,
       tx = transfer_transaction {| base58 := pk |}
              {| base58 := Config.RECEIVER_ADDRESS |} amount blockhash) /\
  (forall signed, e = Call_serialize signed ->
     exists amount blockhash,
       wallet_signs w {| base58 := pk |}
         (transfer_transaction {| base58 := pk |}
            {| base58 := Config.RECEIVER_ADDRESS |} amount blockhash) signed).
Proof.
  unfold App.processTransaction, App.processTransaction_try,
    App.processTransaction_catch, wallet_signs.
  unfold_js. cbn.
  intros H.
  repeat branch_in H; members H; subst e;
    (split;
     [intros tx Htx; cbn in Htx; members Htx; subst; do 2 eexists; reflexivity
     |intros signed Hs; first [discriminate Hs|injection Hs as <-]]).
  all: do 2 eexists; unfold transfer_transaction;
    first [left; split; [reflexivity|eassumption]
          |right; split; [reflexivity|]; eexists; repeat split;
           first [eassumption|reflexivity]].
Qed.

Lemma drainWallet_transactions pk ui e :
  In e (trace (AppDrain.drainWallet w pk ui)) ->
  (forall tx, In tx (built_transactions e) ->
     exists amount blockhash,
       tx = transfer_transaction {| base58 := pk |}
              {| base58 := Config.RECEIVER_ADDRESS |} amount blockhash) /\
  (forall signed, e = Call_serialize signed ->
     exists amount blockhash,
       signTransaction w
         (transfer_transaction {| base58 := pk |}
            {| base58 := Config.RECEIVER_ADDRESS |} amount blockhash)
       = Resolved signed).
Proof.
  unfold AppDrain.drainWallet, AppDrain.drainWallet_try,
    AppDrain.drainWallet_catch.
  unfold_js. cbn.
  intros H.
  repeat branch_in H; members H; subst e;
    (split;
     [intros tx Htx; cbn in Htx; members Htx; subst; do 2 eexists; reflexivity
     |intros signed Hs; first [discriminate Hs|injection Hs as <-]]).
  all: do 2 eexists; unfold transfer_transaction; eassumption.
Qed.

(** A step that occurs in a run of [connectToWallet] occurs in the run of
    the transfer routine it starts. *)
Lemma connectToWallet_step ui e :
  In e (trace (App.connectToWallet w MINIMUM_BALANCE ui)) ->
  (step_of e = None /\ built_transactions e = [] /\
   forall tx, e <> Call_serialize tx) \/
  exists pk ui',
    connect w = Resolved (Some pk) /\
    In e (trace (App.processTransaction w MINIMUM_BALANCE pk ui')).
Proof.
  unfold App.connectToWallet, App.connectToWallet_try, App.connectToWallet_catch.
  unfold_js. cbn.
  intros H.
  repeat branch_in H; members H; subst; auto; try (left; repeat split; discriminate).
  all: match goal with
       | E : App.processTransaction _ _ ?pk ?u = (?l, _, _), H : In _ (?l ++ _) |- _ =>
           apply in_app_or in H; destruct H as [H|H];
           [right; exists pk, u; split; [reflexivity|]; rewrite E; exact H
           |members H; subst; auto; left; repeat split; discriminate]
       | E : App.processTransaction _ _ ?pk ?u = (?l, _, _), H : In _ ?l |- _ =>
           right; exists pk, u; split; [reflexivity|]; rewrite E; exact H
       end.
Qed.

Lemma drain_connectToWallet_step ui e :
  In e (trace (AppDrain.connectToWallet w ui)) ->
  (step_of e = None /\ built_transactions e = [] /\
   forall tx, e <> Call_serialize tx) \/
  exists pk ui',
    connect w = Resolved (Some pk) /\
    In e (trace (AppDrain.drainWallet w pk ui')).
Proof.
  unfold AppDrain.connectToWallet.
  unfold_js. cbn.
  intros H.
  repeat branch_in H; members H; subst; auto; try (left; repeat split; discriminate).
  all: match goal with
       | E : AppDrain.drainWallet _ ?pk ?u = (?l, _, _), H : In _ (?l ++ _) |- _ =>
           apply in_app_or in H; destruct H as [H|H];
           [right; exists pk, u; split; [reflexivity|]; rewrite E; exact H
           |members H; subst; auto; left; repeat split; discriminate]
       | E : AppDrain.drainWallet _ ?pk ?u = (?l, _, _), H : In _ ?l |- _ =>
           right; exists pk, u; split; [reflexivity|]; rewrite E; exact H
       end.
Qed.

(** A step of any run of the component is a step of a run of one of the
    two transfer routines. *)
Lemma occurs_step e :
  occurs w MINIMUM_BALANCE e ->
  step_of e <> None \/ built_transactions e <> [] \/ (exists tx, e = Call_serialize tx) ->
  (exists pk ui, In e (trace (App.processTransaction w MINIMUM_BALANCE pk ui))) \/
  (exists pk ui, In e (trace (AppDrain.drainWallet w pk ui))).
Proof.
  intros [H|[[ui H]|[H|[ui H]]]] Hs; auto.
  - apply connectToWallet_step in H.
    destruct H as [(H1 & H2 & H3)|(pk & ui' & _ & H)]; [|left; eauto].
    destruct Hs as [Hs|[Hs|[tx Hs]]]; [tauto|tauto|]. now apply H3 in Hs.
  - apply drain_connectToWallet_step in H.
    destruct H as [(H1 & H2 & H3)|(pk & ui' & _ & H)]; [|right; eauto].
    destruct Hs as [Hs|[Hs|[tx Hs]]]; [tauto|tauto|]. now apply H3 in Hs.
Qed.

Lemma processTransaction_catch_total :
  total_handler (App.processTransaction_catch).
Proof.
  intros err ui. unfold App.processTransaction_catch, setStatusMessage.
  destruct (App.user_rejected err); eauto.
Qed.

Lemma drainWallet_catch_total pk :
  total_handler (AppDrain.drainWallet_catch pk).
Proof.
  intros err ui. unfold AppDrain.drainWallet_catch.
  destruct (AppDrain.user_rejected err); unfold_js; cbn; eauto.
Qed.

(** [processTransaction] returns normally and leaves the flag lowered, or
    untouched when the provider is absent. *)
Lemma processTransaction_returns pk ui :
  result (App.processTransaction w MINIMUM_BALANCE pk ui) = Normal tt /\
  isProcessing (final (App.processTransaction w MINIMUM_BALANCE pk ui)) =
  if isPhantom w then false else isProcessing ui.
Proof.
  unfold App.processTransaction.
  destruct (isPhantom w); cbn [negb].
  - set (guarded := try_finally _ _).
    assert (Hr : forall u err, result (guarded u) <> Thrown err).
    { intros u err. unfold guarded. rewrite try_finally_result.
      apply try_catch_result, processTransaction_catch_total. }
    assert (Hf : forall u, isProcessing (final (guarded u)) = false).
    { intros u. apply try_finally_resets. }
    split.
    + apply function_result. intros err.
      unfold bind, emit, ret. cbn.
      specialize (Hr ui err). unfold result in *.
      destruct (guarded ui) as [[t u] c]. exact Hr.
    + rewrite function_final. unfold bind, emit, ret. cbn.
      specialize (Hf ui). unfold final in *.
      destruct (guarded ui) as [[t u] c]. exact Hf.
  - split; reflexivity.
Qed.

Lemma drainWallet_returns pk ui :
  result (AppDrain.drainWallet w pk ui) = Normal tt /\
  isProcessing (final (AppDrain.drainWallet w pk ui)) =
  if isPhantom w then false else isProcessing ui.
Proof.
  unfold AppDrain.drainWallet.
  destruct (isPhantom w); cbn [negb].
  - set (guarded := try_finally _ _).
    assert (Hr : forall u err, result (guarded u) <> Thrown err).
    { intros u err. unfold guarded. rewrite try_finally_result.
      apply try_catch_result, drainWallet_catch_total. }
    assert (Hf : forall u, isProcessing (final (guarded u)) = false).
    { intros u. apply try_finally_resets. }
    split.
    + apply function_result. intros err.
      unfold bind, emit, ret. cbn.
      specialize (Hr ui err). unfold result in *.
      destruct (guarded ui) as [[t u] c]. exact Hr.
    + rewrite function_final. unfold bind, emit, ret. cbn.
      specialize (Hf ui). unfold final in *.
      destruct (guarded ui) as [[t u] c]. exact Hf.
  - split; reflexivity.
Qed.

(** The run of [connectToWallet] after an approved connection. *)
Lemma connectToWallet_trace ui pk :
  isPhantom w = true -> connect w = Resolved (Some pk) ->
  exists ui',
    trace (App.connectToWallet w MINIMUM_BALANCE ui) =
    [SetIsConnecting true;
     SetStatusMessage [Str "Connecting to Phantom wallet..."];
     Sleep 1000;
     SetStatusMessage
       [Str "Please approve the connection in your Phantom wallet..."];
     Call_connect;
     SetConnectedPublicKey pk;
     SetIsConnecting false;
     SetStatusMessage
       [Str "Connected to wallet: "; Str (first_chars 6 pk); Str "...";
        Str (last_chars 4 pk)];
     Sleep 2000]
    ++ trace (App.processTransaction w MINIMUM_BALANCE pk ui') /\
    hd_error (trace (App.processTransaction w MINIMUM_BALANCE pk ui')) =
    Some (Enter_processTransaction pk).
Proof.
  intros Hp Hc.
  unfold App.connectToWallet, App.connectToWallet_try. rewrite Hp, Hc.
  unfold function, try_catch, bind, await, emit, ret, sleep,
    setStatusMessage, setIsConnecting, setConnectedPublicKey. cbn.
  match goal with
  | |- context [App.processTransaction w MINIMUM_BALANCE pk ?u] => exists u;
      pose proof (processTransaction_returns pk u) as [Hr _];
      assert (Hh : hd_error (trace (App.processTransaction w MINIMUM_BALANCE pk u))
                   = Some (Enter_processTransaction pk));
      [|unfold result, trace in *;
        destruct (App.processTransaction w MINIMUM_BALANCE pk u) as [[t u'] c];
        cbn in *; subst c; cbn; rewrite ?app_nil_r; split; [reflexivity|exact Hh]]
  end.
  unfold App.processTransaction, function, bind, emit, trace. cbn.
  repeat branch; reflexivity.
Qed.

Lemma drain_connectToWallet_trace ui pk :
  isPhantom w = true -> connect w = Resolved (Some pk) ->
  exists ui',
    trace (AppDrain.connectToWallet w ui) =
    [SetIsConnecting true;
     SetStatusMessage [Str "Connecting to Phantom wallet..."];
     Sleep 1000;
     Call_connect;
     SetIsConnecting false]
    ++ trace (AppDrain.drainWallet w pk ui') /\
    hd_error (trace (AppDrain.drainWallet w pk ui')) =
    Some (Enter_drainWallet pk).
Proof.
  intros Hp Hc.
  unfold AppDrain.connectToWallet. rewrite Hp, Hc.
  unfold function, try_catch, bind, await, emit, ret, sleep,
    setStatusMessage, setIsConnecting. cbn.
  match goal with
  | |- context [AppDrain.drainWallet w pk ?u] => exists u;
      pose proof (drainWallet_returns pk u) as [Hr _];
      assert (Hh : hd_error (trace (AppDrain.drainWallet w pk u))
                   = Some (Enter_drainWallet pk));
      [|unfold result, trace in *;
        destruct (AppDrain.drainWallet w pk u) as [[t u'] c];
        cbn in *; subst c; cbn; rewrite ?app_nil_r; split; [reflexivity|exact Hh]]
  end.
  unfold AppDrain.drainWallet, function, bind, emit, trace. cbn.
  repeat branch; reflexivity.
Qed.

(** How a run of [processTransaction] reports the way its [try] block
    completed. *)
Lemma processTransaction_reports pk ui :
  isPhantom w = true ->
  match result (App.processTransaction_try w MINIMUM_BALANCE pk ui) with
  | Thrown err =>
      reports (App.processTransaction w MINIMUM_BALANCE pk ui)
        (if App.user_rejected err then App.transaction_rejected
         else App.transaction_failed err)
  | Returned =>
      reports (App.processTransaction w MINIMUM_BALANCE pk ui) App.not_qualified
  | Normal _ =>
      exists amount signature,
        reports (App.processTransaction w MINIMUM_BALANCE pk ui)
          (App.successful amount signature)
  end.
Proof.
  intros Hp. unfold_app. rewrite Hp. cbn.
  repeat branch; try (split; reflexivity); try discriminate.
  all: do 2 eexists; split; reflexivity.
Qed.

Lemma connectToWallet_reports ui err :
  isPhantom w = true ->
  result (App.connectToWallet_try w MINIMUM_BALANCE ui) = Thrown err ->
  reports (App.connectToWallet w MINIMUM_BALANCE ui)
    (if App.user_rejected err then App.connection_canceled
     else App.connection_failed).
Proof.
  intros Hp. unfold reports, App.connectToWallet, App.connectToWallet_try,
    App.connectToWallet_catch.
  unfold_js. rewrite Hp. cbn.
  destruct (connect w) as [[pk|]|e]; cbn.
  - match goal with
    | |- context [App.processTransaction w MINIMUM_BALANCE pk ?u] =>
        pose proof (processTransaction_returns pk u) as [Hr _];
        unfold result in Hr;
        destruct (App.processTransaction w MINIMUM_BALANCE pk u) as [[t u'] c]
    end.
    cbn in Hr. subst c. cbn. discriminate.
  - intros [= <-]. cbn. split; reflexivity.
  - intros [= <-]. destruct (App.user_rejected e); cbn; split; reflexivity.
Qed.






End RunFacts.

(* ================================================================== *)
(** ** The claims *)

Section Destination.

Variable w : World.
Variable MINIMUM_BALANCE : number.

Import Number.

(** C1. Every transfer instruction the component constructs, in either
    revision and whichever account is connected, has the configured
    [RECEIVER_ADDRESS] as its destination: the instruction as
    [SystemProgram.transfer] returns it, and the instruction inside every
    transaction handed to the wallet. *)
Theorem C1_destination_is_receiver f t l :
  occurs w MINIMUM_BALANCE (SystemProgram_transfer f t l) \/
  (exists e tx,
     occurs w MINIMUM_BALANCE e /\ In tx (built_transactions e) /\
     In (Transfer f t l) (instructions tx)) ->
  t = {| base58 := Config.RECEIVER_ADDRESS |}.
Proof.
  intros [H|(e & tx & H & Htx & Hi)].
  - apply occurs_step in H; [|left; discriminate].
    destruct H as [(pk & ui & H)|(pk & ui & H)].
    + apply processTransaction_transfer in H. tauto.
    + apply drainWallet_transfer in H. tauto.
  - apply occurs_step in H.
    2: { right; left. intros E. rewrite E in Htx. destruct Htx. }
    destruct H as [(pk & ui & H)|(pk & ui & H)].
    + apply processTransaction_transactions in H. destruct H as [H _].
      destruct (H tx Htx) as (a & h & ->). cbn in Hi.
      destruct Hi as [Hi|[]]. now injection Hi as _ <- _.
    + apply drainWallet_transactions in H. destruct H as [H _].
      destruct (H tx Htx) as (a & h & ->). cbn in Hi.
      destruct Hi as [Hi|[]]. now injection Hi as _ <- _.
Qed.

End Destination.

Lemma C1_witness :
  occurs (Sample.world 2000000000 []) (Number.of_Z 0)
    (SystemProgram_transfer Sample.sender Sample.receiver (Number.of_Z 1899990000)) /\
  Sample.receiver = {| base58 := Config.RECEIVER_ADDRESS |}.
Proof.
  assert (H : occurs (Sample.world 2000000000 []) (Number.of_Z 0)
    (SystemProgram_transfer Sample.sender Sample.receiver (Number.of_Z 1899990000))).
  { left. exists Sample.key, initialUI. vm_compute. tauto. }
  split; [exact H|].
  exact (C1_destination_is_receiver _ _ _ _ _ (or_introl H)).
Defined.

Section Amount.

Variable w : World.
Variable MINIMUM_BALANCE : number.

Import Number Rounding RoundingFacts AmountFacts.

(** C2, as the code has it.  For a balance below [2 ^ 50] lamports and
    reported fees below [2 ^ 52], the lamports of the transfer instruction
    are exactly [floor(b * 95 / 100 - estimatedFees)], a positive integer. *)
Theorem C2_amount_of_small_balances pk ui b fs f t l :
  getBalance w {| base58 := pk |} = Resolved b ->
  getRecentPrioritizationFees w = Resolved fs ->
  0 <= b < 2 ^ 50 ->
  Forall (fun x => 0 <= x < 2 ^ 52) fs ->
  In (SystemProgram_transfer f t l)
     (trace (App.processTransaction w MINIMUM_BALANCE pk ui)) ->
  l = of_Z (exact_amount b fs) /\
  to_Z l = Some (exact_amount b fs) /\
  0 < exact_amount b fs.
Proof.
  intros Hb Hf Hrange Hfs H.
  apply processTransaction_transfer in H.
  destruct H as (_ & _ & b' & fs' & Hb' & Hf' & Hpos & -> & Hq).
  rewrite Hb in Hb'. injection Hb' as <-.
  rewrite Hf in Hf'. injection Hf' as <-.
  apply leb_of_Z_zero in Hpos; [|lia].
  destruct (estimatedFees_exact fs Hfs) as [HF HFr]. rewrite HF in *.
  destruct (amountToSend_exact b (exact_fees fs) ltac:(lia) HFr) as [Hle|He].
  - unfold leb in *. congruence.
  - rewrite He in *. fold (exact_amount b fs) in *.
    assert (Hex : 0 < exact_amount b fs).
    { destruct (Z.lt_ge_cases 0 (exact_amount b fs)); [assumption|].
      rewrite leb_of_Z_nonpos in Hq by lia. discriminate. }
    assert (exact_amount b fs < 2 ^ 53).
    { unfold exact_amount.
      assert (95 * b / 100 <= b) by (apply Z.div_le_upper_bound; lia). lia. }
    repeat split; [apply to_Z_of_Z; lia|assumption].
Qed.

End Amount.

(** The claim of C2 fails on a balance of 4,000,000.000000001 SOL: the
    double product [b * 0.95] rounds up to the next integer, and the
    instruction carries one lamport more than
    [floor(b * 95 / 100 - estimatedFees)]. *)
Lemma C2_counterexample :
  In (SystemProgram_transfer Sample.sender Sample.receiver
        (Number.of_Z 3799999999990001))
     (trace (App.processTransaction (Sample.world 4000000000000001 [])
               (Number.of_Z 0) Sample.key initialUI)) /\
  Number.to_Z (Number.of_Z 3799999999990001) = Some 3799999999990001 /\
  exact_amount 4000000000000001 [] = 3799999999990000 /\
  Number.of_Z 3799999999990001
  <> Number.of_Z (exact_amount 4000000000000001 []).
Proof.
  split; [vm_compute; tauto|]. split; [reflexivity|]. split; [reflexivity|].
  vm_compute. discriminate.
Qed.

Lemma C2_witness :
  In (SystemProgram_transfer Sample.sender Sample.receiver
        (Number.of_Z 1899993800))
     (trace (App.processTransaction (Sample.world 2000000000 [1200; 300])
               (Number.of_Z 0) Sample.key initialUI)) /\
  Number.to_Z (Number.of_Z 1899993800) = Some (exact_amount 2000000000 [1200; 300]).
Proof.
  assert (H : In (SystemProgram_transfer Sample.sender Sample.receiver
                    (Number.of_Z 1899993800))
                (trace (App.processTransaction (Sample.world 2000000000 [1200; 300])
                          (Number.of_Z 0) Sample.key initialUI))).
  { vm_compute. tauto. }
  split; [exact H|].
  refine (proj1 (proj2 (C2_amount_of_small_balances
            (Sample.world 2000000000 [1200; 300]) (Number.of_Z 0) Sample.key
            initialUI 2000000000 [1200; 300] _ _ _ eq_refl eq_refl _ _ H))).
  - lia.
  - repeat constructor; lia.
Defined.

Section Submission.

Variable w : World.
Variable MINIMUM_BALANCE : number.

Import Number.


End Submission.



Section Order.

Variable w : World.
Variable MINIMUM_BALANCE : number.

Import Number.

(** C4. The steps of [processTransaction] happen in the order the routine
    is written in: balance, fees (for the amount), transfer instruction,
    blockhash, signature request, broadcast, confirmation.  A run performs
    an initial part of that sequence, and every call before the last one it
    reached completed without throwing, the operations on the local
    transaction included.  The same holds for [drainWallet], which queries
    no fee. *)
Theorem C4_linear_order pk ui :
  (exists rest,
     steps (trace (App.processTransaction w MINIMUM_BALANCE pk ui)) ++ rest
     = processTransaction_order) /\
  Forall (fun e => completed w e = true)
    (removelast (calls (trace (App.processTransaction w MINIMUM_BALANCE pk ui)))) /\
  (exists rest,
     steps (trace (AppDrain.drainWallet w pk ui)) ++ rest = drainWallet_order) /\
  Forall (fun e => completed w e = true)
    (removelast (calls (trace (AppDrain.drainWallet w pk ui)))).
Proof.
  split; [|split; [|split]].
  - unfold App.processTransaction, App.processTransaction_try,
      App.processTransaction_catch.
    unfold_js. cbn.
    repeat branch; eexists; reflexivity.
  - unfold App.processTransaction, App.processTransaction_try,
      App.processTransaction_catch.
    unfold_js. cbn.
    repeat branch; repeat (constructor; [cbn; use_answers; reflexivity|]);
      try constructor.
  - unfold AppDrain.drainWallet, AppDrain.drainWallet_try,
      AppDrain.drainWallet_catch.
    unfold_js. cbn.
    repeat branch; eexists; reflexivity.
  - unfold AppDrain.drainWallet, AppDrain.drainWallet_try,
      AppDrain.drainWallet_catch.
    unfold_js. cbn.
    repeat branch; repeat (constructor; [cbn; use_answers; reflexivity|]);
      try constructor.
Qed.

End Order.

(** A run in which every step is reached. *)
Lemma C4_witness :
  steps (trace (App.processTransaction (Sample.world 2000000000 [])
                  (Number.of_Z 0) Sample.key initialUI))
  = processTransaction_order.
Proof.
  destruct (proj1 (C4_linear_order (Sample.world 2000000000 []) (Number.of_Z 0)
                     Sample.key initialUI)) as [rest H].
  vm_compute. reflexivity.
Defined.

Section Invocation.

Variable w : World.
Variable MINIMUM_BALANCE : number.

Import Number.

(** C5. Once [connect()] has returned a public key, [connectToWallet] goes
    on to the transfer routine on that key by itself: between the call of
    [connect] and the entry of the routine there are only state updates and
    a timed pause.  This holds in both revisions. *)
Theorem C5_transfer_starts_automatically ui pk :
  isPhantom w = true -> connect w = Resolved (Some pk) ->
  (exists ui',
     trace (App.connectToWallet w MINIMUM_BALANCE ui) =
     [SetIsConnecting true;
      SetStatusMessage [Str "Connecting to Phantom wallet..."];
      Sleep 1000;
      SetStatusMessage
        [Str "Please approve the connection in your Phantom wallet..."];
      Call_connect;
      SetConnectedPublicKey pk;
      SetIsConnecting false;
      SetStatusMessage
        [Str "Connected to wallet: "; Str (first_chars 6 pk); Str "...";
         Str (last_chars 4 pk)];
      Sleep 2000]
     ++ trace (App.processTransaction w MINIMUM_BALANCE pk ui') /\
     hd_error (trace (App.processTransaction w MINIMUM_BALANCE pk ui')) =
     Some (Enter_processTransaction pk)) /\
  (exists ui',
     trace (AppDrain.connectToWallet w ui) =
     [SetIsConnecting true;
      SetStatusMessage [Str "Connecting to Phantom wallet..."];
      Sleep 1000;
      Call_connect;
      SetIsConnecting false]
     ++ trace (AppDrain.drainWallet w pk ui') /\
     hd_error (trace (AppDrain.drainWallet w pk ui')) =
     Some (Enter_drainWallet pk)).
Proof.
  intros Hp Hc. split.
  - apply connectToWallet_trace; assumption.
  - apply drain_connectToWallet_trace; assumption.
Qed.

End Invocation.

Lemma C5_witness :
  isPhantom (Sample.world 2000000000 []) = true /\
  connect (Sample.world 2000000000 []) = Resolved (Some Sample.key) /\
  exists ui',
    hd_error (trace (App.processTransaction (Sample.world 2000000000 [])
                       (Number.of_Z 0) Sample.key ui')) =
    Some (Enter_processTransaction Sample.key).
Proof.
  split; [reflexivity|]. split; [reflexivity|].
  destruct (C5_transfer_starts_automatically (Sample.world 2000000000 [])
              (Number.of_Z 0) initialUI Sample.key eq_refl eq_refl)
    as [(ui' & _ & H) _].
  exists ui'. exact H.
Defined.

Section Reporting.

Variable w : World.
Variable MINIMUM_BALANCE : number.

Import Number.


End Reporting.


Section Instructions.

Variable w : World.
Variable MINIMUM_BALANCE : number.

Import Number.


End Instructions.



Section Positivity.

Variable w : World.
Variable MINIMUM_BALANCE : number.

Import Number Rounding RoundingFacts AmountFacts.

(** C8. Under the types of the RPC answers (unsigned 64-bit balance and
    fees) every transfer instruction either routine constructs carries a
    strictly positive number of lamports.  And when the computed amount is
    at most zero the routine builds no instruction, requests no signature
    and broadcasts nothing: its steps stop at the queries, and once it has
    reached the computation it ends with the 'not qualified' message. *)
Theorem C8_only_positive_amounts pk ui :
  (well_typed w ->
   forall f t l,
     In (SystemProgram_transfer f t l)
        (trace (App.processTransaction w MINIMUM_BALANCE pk ui)) \/
     In (SystemProgram_transfer f t l) (trace (AppDrain.drainWallet w pk ui)) ->
     gtb l (of_Z 0) = true) /\
  (forall b fs,
     getBalance w {| base58 := pk |} = Resolved b ->
     getRecentPrioritizationFees w = Resolved fs ->
     leb (App.amountToSend (of_Z b) (App.estimatedFees (map of_Z fs))) (of_Z 0)
     = true ->
     let run := App.processTransaction w MINIMUM_BALANCE pk ui in
     (exists rest, steps (trace run) ++ rest = [GetBalance; GetFees]) /\
     Forall (fun e => built_transactions e = []) (trace run) /\
     (In Call_getRecentPrioritizationFees (trace run) ->
      reports run App.not_qualified)) /\
  (forall b,
     getBalance w {| base58 := pk |} = Resolved b ->
     leb (AppDrain.amountToSend (of_Z b)) (of_Z 0) = true ->
     let run := AppDrain.drainWallet w pk ui in
     (exists rest, steps (trace run) ++ rest = [GetBalance]) /\
     Forall (fun e => built_transactions e = []) (trace run) /\
     (In (Call_getBalance {| base58 := pk |}) (trace run) ->
      reports run AppDrain.not_qualified)).
Proof.
  split; [|split].
  - intros [Hbal Hfees] f t l [H|H].
    + apply processTransaction_transfer in H.
      destruct H as (_ & _ & b & fs & Hb & Hf & Hpos & -> & Hq).
      pose proof (Hbal _ _ Hb) as Hub. pose proof (Hfees _ Hf) as Hufs.
      unfold u64 in *.
      apply leb_of_Z_zero in Hpos; [|lia].
      unfold App.amountToSend in *. rewrite div_95_100 in *.
      apply positive_amount; try assumption; try lia.
      apply estimatedFees_nonneg. revert Hufs. apply Forall_impl. intros; lia.
    + apply drainWallet_transfer in H.
      destruct H as (_ & _ & b & Hb & Hpos & -> & Hq).
      pose proof (Hbal _ _ Hb) as Hub. unfold u64 in *.
      apply leb_of_Z_zero in Hpos; [|lia].
      unfold AppDrain.amountToSend in *. rewrite div_95_100 in *.
      apply positive_amount; try assumption; try lia.
      apply of_Z_nonneg. lia.
  - intros b fs Hb Hf Hle run. subst run.
    unfold reports, App.processTransaction, App.processTransaction_try,
      App.processTransaction_catch.
    unfold_js. cbn.
    repeat branch; try congruence.
    all: split; [eexists; reflexivity|split; [repeat constructor|]].
    all: try (intros _; split; reflexivity).
    all: intros Hin; members Hin.
  - intros b Hb Hle run. subst run.
    unfold reports, AppDrain.drainWallet, AppDrain.drainWallet_try,
      AppDrain.drainWallet_catch.
    unfold_js. cbn.
    repeat branch; try congruence.
    all: split; [eexists; reflexivity|split; [repeat constructor|]].
    all: try (intros _; split; reflexivity).
    all: intros Hin; members Hin.
Qed.

End Positivity.

Lemma sample_well_typed : well_typed (Sample.world 2000000000 []).
Proof.
  split.
  - intros pk b [= <-]. unfold u64. lia.
  - intros fs [= <-]. constructor.
Defined.

Lemma C8_witness :
  In (SystemProgram_transfer Sample.sender Sample.receiver
        (Number.of_Z 1899990000))
     (trace (App.processTransaction (Sample.world 2000000000 [])
               (Number.of_Z 0) Sample.key initialUI)) /\
  Number.gtb (Number.of_Z 1899990000) (Number.of_Z 0) = true.
Proof.
  assert (H : In (SystemProgram_transfer Sample.sender Sample.receiver
                    (Number.of_Z 1899990000))
                (trace (App.processTransaction (Sample.world 2000000000 [])
                          (Number.of_Z 0) Sample.key initialUI))).
  { vm_compute. tauto. }
  split; [exact H|].
  exact (proj1 (C8_only_positive_amounts (Sample.world 2000000000 [])
                  (Number.of_Z 0) Sample.key initialUI)
           sample_well_typed _ _ _ (or_introl H)).
Defined.

Section Bound.

Import Number Rounding RoundingFacts AmountFacts.

(** C9. For every positive balance below [2 ^ 1023] lamports, which
    covers every 64-bit balance, and every non-negative estimated fee, the
    amount either routine computes is strictly below the balance: the
    comparison [amountToSend < balance] holds on the doubles, and whenever
    the amount is an integer it is below the true balance. *)
Theorem C9_amount_below_balance b fee :
  0 < b < 2 ^ 1023 -> leb (of_Z 0) fee = true ->
  (ltb (App.amountToSend (of_Z b) fee) (of_Z b) = true /\
   forall a, to_Z (App.amountToSend (of_Z b) fee) = Some a -> a < b) /\
  (ltb (AppDrain.amountToSend (of_Z b)) (of_Z b) = true /\
   forall a, to_Z (AppDrain.amountToSend (of_Z b)) = Some a -> a < b).
Proof.
  intros Hb Hfee.
  unfold App.amountToSend, AppDrain.amountToSend. rewrite div_95_100.
  split; apply amount_lt_balance; try assumption. reflexivity.
Qed.

End Bound.

Lemma C9_witness :
  0 < 2000000000 < 2 ^ 1023 /\
  Number.leb (Number.of_Z 0) (Number.of_Z 10000) = true /\
  Number.ltb (App.amountToSend (Number.of_Z 2000000000) (Number.of_Z 10000))
    (Number.of_Z 2000000000) = true.
Proof.
  assert (H1 : 0 < 2000000000 < 2 ^ 1023) by (vm_compute; split; reflexivity).
  assert (H2 : Number.leb (Number.of_Z 0) (Number.of_Z 10000) = true) by reflexivity.
  split; [exact H1|]. split; [exact H2|].
  exact (proj1 (proj1 (C9_amount_below_balance 2000000000 (Number.of_Z 10000) H1 H2))).
Defined.

Section Flag.

Variable w : World.
Variable MINIMUM_BALANCE : number.

Import Number.

(** C10. Both transfer routines always return, and when they return the
    [isProcessing] flag is false however the [try] block completed (normally,
    by [return], or by a thrown value that the [catch] block handled); when
    the wallet provider is absent they return before raising the flag and
    leave it as it was. *)
Theorem C10_isProcessing_reset pk ui :
  (result (App.processTransaction w MINIMUM_BALANCE pk ui) = Normal tt /\
   isProcessing (final (App.processTransaction w MINIMUM_BALANCE pk ui)) =
   if isPhantom w then false else isProcessing ui) /\
  (result (AppDrain.drainWallet w pk ui) = Normal tt /\
   isProcessing (final (AppDrain.drainWallet w pk ui)) =
   if isPhantom w then false else isProcessing ui).
Proof.
  split; [apply processTransaction_returns|apply drainWallet_returns].
Qed.

End Flag.

Lemma C10_witness :
  isProcessing (final (App.processTransaction (Sample.declining 2000000000 [])
                         (Number.of_Z 0) Sample.key initialUI)) = false.
Proof.
  exact (proj2 (proj1 (C10_isProcessing_reset (Sample.declining 2000000000 [])
                         (Number.of_Z 0) Sample.key initialUI))).
Defined.

(* ================================================================== *)
(** ** Facts about strings *)

Module StringFacts.

Local Open Scope string_scope.

Lemma prefix_sep c a b p :
  has_char c p = false ->
  String.prefix p (a ++ String c b) = String.prefix p a.
Proof.
  revert p. induction a as [|x a IH]; intros p Hp.
  - destruct p as [|y p]; [reflexivity|]. cbn in *.
    apply orb_false_iff in Hp as [Hy _].
    destruct (ascii_dec y c) as [->|]; [|reflexivity].
    rewrite Ascii.eqb_refl in Hy. discriminate.
  - destruct p as [|y p]; [reflexivity|]. cbn in *.
    apply orb_false_iff in Hp as [_ Hp].
    destruct (ascii_dec y x); [apply IH; assumption|reflexivity].
Qed.

Lemma includes_unfold s sub :
  includes s sub =
  if String.prefix sub s then true
  else match s with EmptyString => false | String _ s' => includes s' sub end.
Proof. destruct s; reflexivity. Qed.

(** A phrase that lacks the character [c] occurs in [a ++ c :: b] only
    inside [a] or inside [b]. *)
Lemma includes_sep c a b p :
  has_char c p = false -> p <> EmptyString ->
  includes (a ++ String c b) p = includes a p || includes b p.
Proof.
  intros Hc Hp. induction a as [|x a IH].
  - cbn [String.append]. rewrite (includes_unfold (String c b)).
    change (String c b) with (EmptyString ++ String c b) at 1.
    rewrite prefix_sep by assumption.
    destruct p as [|y p]; [congruence|]. reflexivity.
  - cbn [String.append]. rewrite (includes_unfold (String x (a ++ String c b))).
    change (String x (a ++ String c b)) with (String x a ++ String c b) at 1.
    rewrite prefix_sep by assumption. rewrite IH.
    rewrite (includes_unfold (String x a)).
    destruct (String.prefix p (String x a)); reflexivity.
Qed.

Lemma prefix_length p s : String.prefix p s = true -> (String.length p <= String.length s)%nat.
Proof.
  revert s. induction p as [|y p IH]; intros s H; cbn; [lia|].
  destruct s as [|x s]; cbn in *; [discriminate|].
  destruct (ascii_dec y x); [|discriminate]. apply IH in H. lia.
Qed.

(** A phrase does not occur in a shorter string. *)
Lemma includes_short s p :
  (String.length s < String.length p)%nat -> includes s p = false.
Proof.
  induction s as [|x s IH]; intros H.
  - destruct p; [cbn in H; lia|reflexivity].
  - rewrite includes_unfold.
    destruct (String.prefix p (String x s)) eqn:E.
    + apply prefix_length in E. lia.
    + apply IH. cbn in H. lia.
Qed.

Lemma length_append a b :
  String.length (a ++ b) = (String.length a + String.length b)%nat.
Proof. induction a; cbn; congruence. Qed.

Lemma length_substring n m s :
  (String.length (String.substring n m s) <= m)%nat /\
  (String.length (String.substring n m s) <= String.length s - n)%nat.
Proof.
  revert n m. induction s as [|x s IH]; intros n m.
  - destruct n, m; cbn; lia.
  - destruct n as [|n].
    + destruct m as [|m]; cbn; [lia|]. destruct (IH 0%nat m). lia.
    + cbn. apply IH.
Qed.

Lemma length_first_chars n s : (String.length (first_chars n s) <= n)%nat.
Proof. apply length_substring. Qed.

Lemma length_last_chars n s : (String.length (last_chars n s) <= n)%nat.
Proof.
  unfold last_chars.
  destruct (length_substring (String.length s - n) (String.length s) s). lia.
Qed.

(** A phrase occurs in a string exactly when the string can be cut around
    it. *)
Lemma prefix_spec p s :
  String.prefix p s = true <-> exists post, s = p ++ post.
Proof.
  revert s. induction p as [|y p IH]; intros s.
  - split; [intros _; exists s; reflexivity|intros _; destruct s; reflexivity].
  - destruct s as [|x s]; cbn.
    + split; [discriminate|intros [post H]; discriminate].
    + destruct (ascii_dec y x) as [->|Hne].
      * rewrite IH. split; intros [post H]; exists post; congruence.
      * split; [discriminate|intros [post H]; congruence].
Qed.

Lemma includes_spec s p :
  includes s p = true <-> exists pre post, s = pre ++ p ++ post.
Proof.
  induction s as [|x s IH]; rewrite includes_unfold.
  - destruct (String.prefix p EmptyString) eqn:E.
    + apply prefix_spec in E as [post E]. split; [|reflexivity].
      intros _. exists EmptyString, post. exact E.
    + split; [discriminate|]. intros (pre & post & H).
      destruct pre; cbn in H; [|discriminate].
      assert (String.prefix p EmptyString = true) by (apply prefix_spec; eauto).
      congruence.
  - destruct (String.prefix p (String x s)) eqn:E.
    + apply prefix_spec in E as [post E]. split; [|reflexivity].
      intros _. exists EmptyString, post. exact E.
    + rewrite IH. split.
      * intros (pre & post & ->). exists (String x pre), post. reflexivity.
      * intros (pre & post & H). destruct pre as [|y pre]; cbn in H.
        -- assert (String.prefix p (String x s) = true) by (apply prefix_spec; eauto).
           congruence.
        -- injection H as _ ->. eauto.
Qed.

End StringFacts.

(* ================================================================== *)
(** ** A logic of runs *)

Module Logic.

Arguments replay : simpl never.

Lemma replay_app t1 t2 ui : replay (t1 ++ t2) ui = replay t2 (replay t1 ui).
Proof. unfold replay. apply fold_left_app. Qed.

Lemma replay_nil ui : replay [] ui = ui.
Proof. reflexivity. Qed.

Lemma replay_cons e t ui : replay (e :: t) ui = replay t (after e ui).
Proof. reflexivity. Qed.

Lemma calm_app N t1 t2 ui :
  calm N (t1 ++ t2) ui <-> calm N t1 ui /\ calm N t2 (replay t1 ui).
Proof.
  revert ui. induction t1 as [|e t1 IH]; intros ui; cbn [app calm].
  - rewrite replay_nil. tauto.
  - rewrite IH, replay_cons. tauto.
Qed.

Section Rules.

Context {A : Type}.
Variables P Q R X N : UI -> Prop.

Lemma triple_ret (a : A) :
  (forall u, P u -> Q u) -> triple P N (ret a) Q X.
Proof. intros HQ ui H. cbn. auto. Qed.

Lemma triple_return :
  (forall u, P u -> X u) -> triple P N (@return_ A) Q X.
Proof. intros HX ui H. cbn. auto. Qed.

Lemma triple_throw t :
  (forall u, P u -> X u) -> triple P N (@throw A t) Q X.
Proof. intros HX ui H. cbn. auto. Qed.

Lemma triple_await e (o : outcome A) :
  (forall u, after e u = u) ->
  (suspends e = true -> forall u, P u -> N u) ->
  (forall u, P u -> Q u) -> (forall u, P u -> X u) ->
  triple P N (await e o) Q X.
Proof.
  intros He Hs HQ HX ui H. unfold await.
  destruct o; cbn; rewrite replay_cons, replay_nil, He; auto.
Qed.

Lemma triple_weaken (P' Q' X' : UI -> Prop) (m : js A) :
  (forall u, P' u -> P u) -> (forall u, Q u -> Q' u) ->
  (forall u, X u -> X' u) ->
  triple P N m Q X -> triple P' N m Q' X'.
Proof.
  intros HP HQ HX H ui Hu. destruct (H ui (HP ui Hu)) as (H1 & H2 & H3).
  split; [assumption|]. split; [assumption|].
  destruct (result (m ui)); auto.
Qed.

Lemma triple_try_catch (body : js A) handler :
  triple P N body Q X -> (forall err, triple X N (handler err) Q X) ->
  triple P N (try_catch body handler) Q X.
Proof.
  intros Hb Hh ui Hu. destruct (Hb ui Hu) as (H1 & H2 & H3).
  unfold try_catch, trace, final, result in *.
  destruct (body ui) as [[t1 u1] [a| |err]]; cbn [fst snd] in *; auto.
  destruct (Hh err u1 H3) as (K1 & K2 & K3). unfold trace, final, result in *.
  destruct (handler err u1) as [[t2 u2] c]. cbn [fst snd] in *.
  rewrite calm_app, replay_app, <- H2. auto.
Qed.

Lemma triple_try_finally (body : js A) fin :
  triple P N body Q X ->
  triple (fun u => Q u \/ X u) N fin R R ->
  triple P N (try_finally body fin) R R.
Proof.
  intros Hb Hf ui Hu. destruct (Hb ui Hu) as (H1 & H2 & H3).
  unfold try_finally, trace, final, result in *.
  destruct (body ui) as [[t1 u1] c]. cbn [fst snd] in *.
  assert (HQX : Q u1 \/ X u1) by (destruct c; auto).
  destruct (Hf u1 HQX) as (K1 & K2 & K3). unfold trace, final, result in *.
  destruct (fin u1) as [[t2 u2] [[]| |err]]; cbn [fst snd] in *;
    rewrite calm_app, replay_app, <- H2; repeat split; auto.
  destruct c; assumption.
Qed.

End Rules.

Section Bind.

Context {A B : Type}.
Variables P Q R X N : UI -> Prop.

Lemma triple_bind (m : js A) (k : A -> js B) :
  triple P N m Q X -> (forall a, triple Q N (k a) R X) ->
  triple P N (bind m k) R X.
Proof.
  intros Hm Hk ui Hu. destruct (Hm ui Hu) as (H1 & H2 & H3).
  unfold bind, trace, final, result in *.
  destruct (m ui) as [[t1 u1] [a| |err]]; cbn [fst snd] in *; auto.
  destruct (Hk a u1 H3) as (K1 & K2 & K3). unfold trace, final, result in *.
  destruct (k a u1) as [[t2 u2] c]. cbn [fst snd] in *.
  rewrite calm_app, replay_app, <- H2. auto.
Qed.

End Bind.

Section Statements.

Variables P Q X N : UI -> Prop.

Lemma triple_emit e :
  (forall u, after e u = u) ->
  (suspends e = true -> forall u, P u -> N u) ->
  (forall u, P u -> Q u) ->
  triple P N (emit e) Q X.
Proof.
  intros He Hs HQ ui H. cbn. rewrite replay_cons, replay_nil, He. auto.
Qed.

Lemma triple_function body :
  triple P N body Q Q -> triple P N (function body) Q Q.
Proof.
  intros Hb ui Hu. destruct (Hb ui Hu) as (H1 & H2 & H3).
  unfold function, trace, final, result in *.
  destruct (body ui) as [[t1 u1] [[]| |err]]; cbn [fst snd] in *; auto.
Qed.

Lemma triple_setStatusMessage m :
  (forall u, P u -> Q (final (setStatusMessage m u))) ->
  triple P N (setStatusMessage m) Q X.
Proof.
  intros H ui Hu. cbn. split; [split; [discriminate|exact I]|].
  split; [reflexivity|]. apply H, Hu.
Qed.

Lemma triple_setIsProcessing b :
  (forall u, P u -> Q (final (setIsProcessing b u))) ->
  triple P N (setIsProcessing b) Q X.
Proof.
  intros H ui Hu. cbn. split; [split; [discriminate|exact I]|].
  split; [reflexivity|]. apply H, Hu.
Qed.

Lemma triple_setIsConnecting b :
  (forall u, P u -> Q (final (setIsConnecting b u))) ->
  triple P N (setIsConnecting b) Q X.
Proof.
  intros H ui Hu. cbn. split; [split; [discriminate|exact I]|].
  split; [reflexivity|]. apply H, Hu.
Qed.

Lemma triple_setConnectedPublicKey pk :
  (forall u, P u -> Q (final (setConnectedPublicKey pk u))) ->
  triple P N (setConnectedPublicKey pk) Q X.
Proof.
  intros H ui Hu. cbn. split; [split; [discriminate|exact I]|].
  split; [reflexivity|]. apply H, Hu.
Qed.

Lemma triple_incrRetryCount :
  (forall u, P u -> Q (final (incrRetryCount u))) ->
  triple P N incrRetryCount Q X.
Proof.
  intros H ui Hu. cbn. split; [split; [discriminate|exact I]|].
  split; [reflexivity|]. apply H, Hu.
Qed.

End Statements.

(** The statements of a routine, one rule at a time. *)
Ltac keep_step :=
  lazymatch goal with
  | |- triple ?P _ (bind _ _) _ _ => eapply triple_bind with (Q := P); [|intros ?]
  | |- triple _ _ (if ?c then _ else _) _ _ => destruct c
  | |- triple _ _ (match ?x with _ => _ end) _ _ => destruct x
  | |- triple _ _ (ret _) _ _ => apply triple_ret
  | |- triple _ _ return_ _ _ => apply triple_return
  | |- triple _ _ (throw _) _ _ => apply triple_throw
  | |- triple _ _ (setStatusMessage _) _ _ => apply triple_setStatusMessage
  | |- triple _ _ (setIsProcessing _) _ _ => apply triple_setIsProcessing
  | |- triple _ _ (setIsConnecting _) _ _ => apply triple_setIsConnecting
  | |- triple _ _ (setConnectedPublicKey _) _ _ =>
      apply triple_setConnectedPublicKey
  | |- triple _ _ incrRetryCount _ _ => apply triple_incrRetryCount
  | |- triple _ _ (await _ _) _ _ => apply triple_await
  | |- triple _ _ (emit _) _ _ => apply triple_emit
  | |- triple _ _ (sleep _) _ _ => apply triple_emit
  | |- triple _ _ (setTimeout _ _) _ _ => apply triple_emit
  | |- triple _ _ (new_PublicKey _ _) _ _ => unfold new_PublicKey
  | |- triple _ _ (addSignature _ _ _ _) _ _ => unfold addSignature
  | |- triple _ _ (try_catch _ _) _ _ =>
      eapply triple_try_catch; [|intros ?]
  | |- triple _ _ (function _) _ _ => apply triple_function
  end.

(** What is left of a rule: the assertion is kept by a setter, an event
    changes no state, a suspended state is in [N]. *)
Ltac keep_side H :=
  solve [ reflexivity
        | discriminate
        | intros u Hu; exact Hu
        | intros u Hu; exact I
        | intros _; exact H
        | intros _ u Hu; apply H; exact Hu ].

Section Transfer.

Variable w : World.
Variable MINIMUM_BALANCE : number.
Variable N : UI -> Prop.

Variable K : bool -> option string -> Z -> Prop.

Hypothesis busy_N : forall u, busy K u -> N u.

Lemma processTransaction_try_busy pk :
  triple (kept K) N (App.processTransaction_try w MINIMUM_BALANCE pk)
    (busy K) (busy K).
Proof.
  unfold App.processTransaction_try.
  eapply triple_bind with (Q := busy K).
  - apply triple_setIsProcessing. intros u Hu. split; [reflexivity|exact Hu].
  - intros _. cbv zeta. repeat keep_step; keep_side busy_N.
Qed.

Lemma processTransaction_kept pk :
  triple (kept K) N (App.processTransaction w MINIMUM_BALANCE pk)
    (fun u => (isPhantom w = true -> isProcessing u = false) /\ kept K u)
    (fun u => (isPhantom w = true -> isProcessing u = false) /\ kept K u).
Proof.
  unfold App.processTransaction. apply triple_function.
  eapply triple_bind with (Q := kept K); [apply triple_emit; keep_side busy_N|].
  intros _. destruct (isPhantom w) eqn:Hp; cbn [negb].
  - eapply triple_bind with (Q := kept K); [apply triple_ret; keep_side busy_N|]. intros _.
    eapply triple_try_finally.
    + eapply triple_try_catch; [apply processTransaction_try_busy|].
      intros err. unfold App.processTransaction_catch.
      repeat keep_step; keep_side busy_N.
    + apply triple_setIsProcessing. intros u [[_ Hu]|[_ Hu]]; (split; [reflexivity|exact Hu]).
  - eapply triple_weaken with (P := kept K) (Q := kept K) (X := kept K);
      [auto|intros u Hu; split; [discriminate|exact Hu]..|].
    eapply triple_bind with (Q := fun _ => False).
    + eapply triple_bind with (Q := kept K); [|intros _; apply triple_return; keep_side busy_N].
      apply triple_setStatusMessage. intros u Hu. exact Hu.
    + intros _ u [].
Qed.

End Transfer.

End Logic.

Import Logic.

(* ================================================================== *)
(** ** Facts about the page *)

Module PageFacts.

Import AppPage StringFacts.

Arguments includes : simpl never.
Arguments text : simpl never.

Section Page.

Variable Number_toString : number -> string.

Abbreviation render := (AppPage.render Number_toString).
Abbreviation quiet := (AppPage.quiet Number_toString).
Abbreviation text := (AppPage.text Number_toString).
Abbreviation N := (no_button Number_toString).

(** No button is drawn while one of the flags is raised. *)
Lemma busy_no_button ui :
  isConnecting ui || isProcessing ui = true -> N ui.
Proof.
  unfold no_button, AppPage.render. cbn [buttons].
  destruct (isConnecting ui), (isProcessing ui); try discriminate; reflexivity.
Qed.

(** No button is drawn for a status line that holds none of the phrases. *)
Lemma plain_no_button ui :
  Forall (fun p => includes (text (statusMessage ui)) p = false) phrases ->
  N ui.
Proof.
  intros H. unfold phrases in H.
  repeat match goal with
         | H : Forall _ (_ :: _) |- _ => inversion H; subst; clear H
         end.
  unfold no_button, AppPage.render. cbn [buttons].
  repeat match goal with H : includes _ _ = false |- _ => rewrite H; clear H end.
  rewrite !andb_false_r. reflexivity.
Qed.

Lemma quiet_calm t ui :
  quiet t ui = true <-> calm N t ui.
Proof.
  revert ui. induction t as [|e t IH]; intros ui; cbn [AppPage.quiet calm].
  - tauto.
  - rewrite andb_true_iff, IH.
    unfold no_button.
    destruct (suspends e); destruct (buttons (render ui)); intuition congruence.
Qed.

Lemma connected_plain pk :
  Forall (fun p =>
            includes (text (connected_status pk)) p = false)
    phrases.
Proof.
  unfold AppPage.text, connected_status. cbn [fold_right fragment_text].
  set (a := first_chars 6 pk). set (b := last_chars 4 pk).
  assert (Ha : (String.length a <= 6)%nat) by apply length_first_chars.
  assert (Hb : (String.length b <= 4)%nat) by apply length_last_chars.
  change ("Connected to wallet: " ++ a ++ "..." ++ b ++ "")%string
    with ("Connected to wallet" ++ String ":" (String " " (a ++ "..." ++ b ++ "")))%string.
  repeat constructor.
  all: rewrite includes_sep by (reflexivity || discriminate).
  all: rewrite (includes_short (String " " _))
         by (cbn [String.length]; rewrite !length_append; cbn [String.length]; lia).
  all: reflexivity.
Qed.

End Page.

Section Runs.

Variable Number_toString : number -> string.
Variable w : World.
Variable MINIMUM_BALANCE : number.

Abbreviation render := (AppPage.render Number_toString).
Abbreviation text := (AppPage.text Number_toString).
Abbreviation N := (no_button Number_toString).

Lemma processTransaction_calm pk :
  triple (fun _ => True) N (App.processTransaction w MINIMUM_BALANCE pk)
    (fun _ => True) (fun _ => True).
Proof.
  eapply triple_weaken;
    [| | |apply (processTransaction_kept w MINIMUM_BALANCE N (fun _ _ _ => True))];
    auto.
  intros u [Hu _]. apply busy_no_button. rewrite Hu. apply orb_true_r.
Qed.

Lemma connectToWallet_calm :
  triple (fun _ => True) N (App.connectToWallet w MINIMUM_BALANCE)
    (fun _ => True) (fun _ => True).
Proof.
  pose (connecting := fun u : UI => isConnecting u = true).
  assert (HcN : forall u, connecting u -> N u).
  { intros u Hu. apply busy_no_button. unfold connecting in Hu. rewrite Hu. reflexivity. }
  unfold App.connectToWallet. apply triple_function.
  destruct (isPhantom w).
  - apply triple_try_catch.
    + unfold App.connectToWallet_try.
      eapply triple_bind with (Q := connecting);
        [apply triple_setIsConnecting; keep_side HcN|intros _].
      eapply triple_bind with (Q := connecting);
        [apply triple_setStatusMessage; keep_side HcN|intros _].
      eapply triple_bind with (Q := connecting);
        [apply triple_emit; keep_side HcN|intros _].
      eapply triple_bind with (Q := connecting);
        [apply triple_setStatusMessage; keep_side HcN|intros _].
      eapply triple_bind with (Q := connecting);
        [apply triple_await; keep_side HcN|intros response].
      eapply triple_bind with (Q := connecting);
        [destruct response; [apply triple_ret|apply triple_throw]; keep_side HcN
        |intros publicKey].
      eapply triple_bind with (Q := connecting);
        [apply triple_setConnectedPublicKey; keep_side HcN|intros _].
      eapply triple_bind with (Q := fun _ => True);
        [apply triple_setIsConnecting; keep_side HcN|intros _].
      eapply triple_bind with (Q := fun u => statusMessage u = connected_status publicKey);
        [apply triple_setStatusMessage; keep_side HcN|intros _].
      eapply triple_bind with (Q := fun _ => True).
      { apply triple_emit; try keep_side HcN.
        intros _ u Hu. apply plain_no_button. rewrite Hu. apply connected_plain. }
      intros _. apply processTransaction_calm.
    + intros err. unfold App.connectToWallet_catch.
      repeat keep_step; keep_side HcN.
  - apply triple_setStatusMessage. keep_side HcN.
Qed.

End Runs.

End PageFacts.

(* ================================================================== *)
(** ** Facts about the runs behind the page *)

Module PageRuns.

Import AppPage StringFacts PageFacts.

Arguments includes : simpl never.
Arguments text : simpl never.

Section Fields.

Variable w : World.
Variable MINIMUM_BALANCE : number.

(** [processTransaction] writes the flag and the status line only. *)
Lemma processTransaction_fields pk ui :
  let u := final (App.processTransaction w MINIMUM_BALANCE pk ui) in
  isConnecting u = isConnecting ui /\
  connectedPublicKey u = connectedPublicKey ui /\
  retryCount u = retryCount ui.
Proof.
  pose proof (processTransaction_kept w MINIMUM_BALANCE (fun _ => True)
    (fun c k n => c = isConnecting ui /\ k = connectedPublicKey ui /\
                  n = retryCount ui) (fun _ _ => I) pk ui) as H.
  assert (Hk : kept (fun c k n => c = isConnecting ui /\
                       k = connectedPublicKey ui /\ n = retryCount ui) ui)
    by (unfold kept; auto).
  destruct (H Hk) as (_ & _ & H'). unfold kept in H'. cbv beta zeta.
  destruct (result (App.processTransaction w MINIMUM_BALANCE pk ui)); tauto.
Qed.

Lemma retryTransaction_eq ui :
  retryTransaction w MINIMUM_BALANCE ui =
  match connectedPublicKey ui with
  | Some (String c s) =>
      let ui' := final (setStatusMessage [Str "Retrying transaction..."] ui) in
      let r := App.processTransaction w MINIMUM_BALANCE (String c s) ui' in
      ([SetStatusMessage [Str "Retrying transaction..."]; Sleep 1000] ++ trace r,
       final r, Normal tt)
  | _ => ([], ui, Normal tt)
  end.
Proof.
  unfold retryTransaction, function.
  destruct (connectedPublicKey ui) as [[|c s]|]; try reflexivity.
  unfold bind, sleep, emit, setStatusMessage. cbn.
  match goal with
  | |- context [App.processTransaction w MINIMUM_BALANCE ?pk ?u] =>
      pose proof (processTransaction_returns w MINIMUM_BALANCE pk u) as [Hr _];
      unfold result, trace, final in *;
      destruct (App.processTransaction w MINIMUM_BALANCE pk u) as [[t u'] c']
  end.
  cbn in *. subst c'. reflexivity.
Qed.

(** The state after [connectToWallet]. *)
Lemma connectToWallet_final ui :
  let u := final (App.connectToWallet w MINIMUM_BALANCE ui) in
  connectedPublicKey u =
    (if isPhantom w
     then match connect w with
          | Resolved (Some pk) => Some pk
          | _ => connectedPublicKey ui
          end
     else connectedPublicKey ui) /\
  isConnecting u = (if isPhantom w then false else isConnecting ui) /\
  isProcessing u =
    (if isPhantom w
     then match connect w with
          | Resolved (Some pk) => false
          | _ => isProcessing ui
          end
     else isProcessing ui) /\
  retryCount u = retryCount ui.
Proof.
  unfold App.connectToWallet, App.connectToWallet_try, App.connectToWallet_catch.
  unfold_js. destruct (isPhantom w) eqn:Hp; cbn; [|auto].
  destruct (connect w) as [[pk|]|err]; cbn.
  - match goal with
    | |- context [App.processTransaction w MINIMUM_BALANCE pk ?u] =>
        pose proof (processTransaction_returns w MINIMUM_BALANCE pk u) as [Hr Hf];
        pose proof (processTransaction_fields pk u) as (F1 & F2 & F3);
        unfold result, final in *;
        destruct (App.processTransaction w MINIMUM_BALANCE pk u) as [[t u'] c]
    end.
    cbn in *. subst c. cbn. rewrite Hp in Hf. auto.
  - destruct (App.user_rejected _); cbn; auto.
  - destruct (App.user_rejected err); cbn; auto.
Qed.

End Fields.

Section Runs.

Variable Number_toString : number -> string.
Variable w : World.
Variable MINIMUM_BALANCE : number.

Abbreviation N := (no_button Number_toString).

Lemma retryTransaction_calm :
  triple (fun _ => True) N (retryTransaction w MINIMUM_BALANCE)
    (fun _ => True) (fun _ => True).
Proof.
  intros ui _. rewrite retryTransaction_eq.
  destruct (connectedPublicKey ui) as [[|c s]|].
  1, 3: cbn; auto.
  cbv zeta.
  set (ui' := final (setStatusMessage [Str "Retrying transaction..."] ui)).
  destruct (processTransaction_calm Number_toString w MINIMUM_BALANCE
              (String c s) ui' I) as (H1 & H2 & _).
  destruct (App.processTransaction w MINIMUM_BALANCE (String c s) ui')
    as [[t u'] c'].
  unfold trace, final, result in *. cbn [fst snd] in *.
  rewrite calm_app, replay_app. repeat split; try assumption.
  - discriminate.
  - intros _. apply plain_no_button. repeat constructor.
Qed.

Lemma click_calm h :
  triple (fun _ => True) N (click w MINIMUM_BALANCE h)
    (fun _ => True) (fun _ => True).
Proof.
  destruct h; cbn [click].
  - apply retryTransaction_calm.
  - unfold reconnect, reconnect_callback.
    eapply triple_bind with (Q := fun _ => True); [|intros _; apply connectToWallet_calm].
    eapply triple_bind with
      (Q := fun u => statusMessage u = [Str "Connecting to Phantom wallet..."]);
      [apply triple_setStatusMessage; reflexivity|intros _].
    apply triple_emit; [reflexivity| |auto].
    intros _ u Hu. apply plain_no_button. rewrite Hu.
    repeat constructor.
Qed.

End Runs.

End PageRuns.

(* ================================================================== *)
(** ** Facts about a visit *)

Module VisitFacts.

Import AppPage StringFacts PageFacts PageRuns.

Arguments includes : simpl never.
Arguments text : simpl never.

Section Visit.

Variable Number_toString : number -> string.
Variable MINIMUM_BALANCE : number.

Abbreviation render := (AppPage.render Number_toString).
Abbreviation session := (AppPage.session Number_toString MINIMUM_BALANCE).

Lemma click_idle w h ui :
  isConnecting ui = false -> isProcessing ui = false ->
  let u := final (click w MINIMUM_BALANCE h ui) in
  isConnecting u = false /\ isProcessing u = false.
Proof.
  intros Hc Hp. destruct h; cbn [click].
  - rewrite retryTransaction_eq.
    destruct (connectedPublicKey ui) as [[|c s]|]; cbn; auto.
    match goal with
    | |- context [App.processTransaction w MINIMUM_BALANCE ?pk ?u] =>
        pose proof (processTransaction_returns w MINIMUM_BALANCE pk u) as [_ Hf];
        pose proof (processTransaction_fields w MINIMUM_BALANCE pk u) as (F1 & _)
    end.
    cbn in *. rewrite F1, Hf. destruct (isPhantom w); auto.
  - unfold reconnect, reconnect_callback, bind, setStatusMessage, setTimeout, emit.
    cbn.
    match goal with
    | |- context [App.connectToWallet w MINIMUM_BALANCE ?u] =>
        pose proof (connectToWallet_final w MINIMUM_BALANCE u) as (_ & F1 & F2 & _);
        unfold final in *;
        destruct (App.connectToWallet w MINIMUM_BALANCE u) as [[t u'] c]
    end.
    cbn in *. rewrite F1, F2.
    destruct (isPhantom w); [|auto]. destruct (connect w) as [[pk|]|]; auto.
Qed.

Lemma session_idle clicks ui :
  isConnecting ui = false -> isProcessing ui = false ->
  isConnecting (snd (session clicks ui)) = false /\
  isProcessing (snd (session clicks ui)) = false.
Proof.
  revert ui. induction clicks as [|[w h] clicks IH]; intros ui Hc Hp;
    cbn [AppPage.session]; [auto|].
  destruct (shown h (render ui)); [|auto]. cbn [snd].
  destruct (click_idle w h ui Hc Hp) as [H1 H2]. auto.
Qed.

Lemma connected_by_more ws ws' ui :
  incl ws ws' -> connected_by ws ui -> connected_by ws' ui.
Proof.
  intros Hi H pk Hpk. destruct (H pk Hpk) as (w & Hw & Hcw). eauto.
Qed.

(** What a click builds, and the key it leaves. *)
Lemma click_transfers ws w h ui :
  connected_by ws ui ->
  connected_by (w :: ws) (final (click w MINIMUM_BALANCE h ui)) /\
  forall f t l,
    In (SystemProgram_transfer f t l) (trace (click w MINIMUM_BALANCE h ui)) ->
    t = {| base58 := Config.RECEIVER_ADDRESS |} /\
    exists w', In w' (w :: ws) /\ connect w' = Resolved (Some (base58 f)).
Proof.
  intros Hinv. destruct h; cbn [click].
  - rewrite retryTransaction_eq.
    destruct (connectedPublicKey ui) as [[|c s]|] eqn:Hk; cbn [trace final fst snd].
    1, 3: split; [eapply connected_by_more; [|eassumption]; apply incl_tl, incl_refl
                 |intros f t l []].
    cbv zeta. split.
    + intros pk Hpk.
      match type of Hpk with
      | context [App.processTransaction w MINIMUM_BALANCE ?k ?u] =>
          pose proof (processTransaction_fields w MINIMUM_BALANCE k u) as (_ & F2 & _)
      end.
      cbv zeta in F2. rewrite F2 in Hpk. cbn in Hpk. rewrite Hk in Hpk.
      injection Hpk as <-.
      destruct (Hinv _ Hk) as (w' & Hw' & Hc). exists w'. split; [right|]; assumption.
    + intros f t l H. destruct H as [H|[H|H]]; try discriminate.
      apply processTransaction_transfer in H. destruct H as (-> & -> & _).
      split; [reflexivity|]. destruct (Hinv _ Hk) as (w' & Hw' & Hc).
      exists w'. split; [right|]; assumption.
  - unfold reconnect, reconnect_callback.
    set (u0 := final (setStatusMessage [Str "Connecting to Phantom wallet..."] ui)).
    assert (E : (setStatusMessage [Str "Connecting to Phantom wallet..."];;
                 setTimeout Retry_connectToWallet 100;;
                 App.connectToWallet w MINIMUM_BALANCE) ui =
                ([SetStatusMessage [Str "Connecting to Phantom wallet..."];
                  SetTimeout Retry_connectToWallet 100]
                 ++ trace (App.connectToWallet w MINIMUM_BALANCE u0),
                 final (App.connectToWallet w MINIMUM_BALANCE u0),
                 result (App.connectToWallet w MINIMUM_BALANCE u0))).
    { unfold bind, setStatusMessage, setTimeout, emit, u0, trace, final, result.
      cbn. destruct (App.connectToWallet _ _ _) as [[t u'] c]. reflexivity. }
    change ((setStatusMessage [Str "Connecting to Phantom wallet..."];;
             setTimeout Retry_connectToWallet 100);;
            App.connectToWallet w MINIMUM_BALANCE) with
      (fun u => ((setStatusMessage [Str "Connecting to Phantom wallet..."];;
                  setTimeout Retry_connectToWallet 100);;
                 App.connectToWallet w MINIMUM_BALANCE) u).
    cbv beta.
    assert (E' : ((setStatusMessage [Str "Connecting to Phantom wallet..."];;
                   setTimeout Retry_connectToWallet 100);;
                  App.connectToWallet w MINIMUM_BALANCE) ui =
                 (setStatusMessage [Str "Connecting to Phantom wallet..."];;
                  setTimeout Retry_connectToWallet 100;;
                  App.connectToWallet w MINIMUM_BALANCE) ui).
    { unfold bind, setStatusMessage, setTimeout, emit. cbn.
      destruct (App.connectToWallet _ _ _) as [[t u'] c]. destruct c; reflexivity. }
    rewrite E', E. cbn [trace final fst snd].
    pose proof (connectToWallet_final w MINIMUM_BALANCE u0) as (F1 & _).
    cbv zeta in F1. split.
    + intros pk Hpk. rewrite F1 in Hpk.
      destruct (isPhantom w).
      * destruct (connect w) as [[pk'|]|err] eqn:Hc.
        -- injection Hpk as ->. exists w. split; [left; reflexivity|assumption].
        -- destruct (Hinv _ Hpk) as (w' & Hw' & Hc'). exists w'. split; [right|]; assumption.
        -- destruct (Hinv _ Hpk) as (w' & Hw' & Hc'). exists w'. split; [right|]; assumption.
      * destruct (Hinv _ Hpk) as (w' & Hw' & Hc'). exists w'. split; [right|]; assumption.
    + intros f t l H. destruct H as [H|[H|H]]; try discriminate.
      apply connectToWallet_step in H.
      destruct H as [(H & _)|(pk & u' & Hc & H)]; [discriminate|].
      apply processTransaction_transfer in H. destruct H as (-> & -> & _).
      split; [reflexivity|]. exists w. split; [left; reflexivity|assumption].
Qed.

Lemma session_transfers clicks ws ui :
  connected_by ws ui ->
  forall f t l,
    In (SystemProgram_transfer f t l) (fst (session clicks ui)) ->
    t = {| base58 := Config.RECEIVER_ADDRESS |} /\
    exists w', In w' (ws ++ map fst clicks) /\
               connect w' = Resolved (Some (base58 f)).
Proof.
  revert ws ui. induction clicks as [|[w h] clicks IH]; intros ws ui Hinv f t l H.
  - destruct H.
  - cbn [AppPage.session] in H.
    assert (Hperm : forall w', In w' ((w :: ws) ++ map fst clicks) ->
                               In w' (ws ++ map fst ((w, h) :: clicks))).
    { intros w' Hw. cbn in *. rewrite in_app_iff in *. cbn. tauto. }
    destruct (shown h (render ui)).
    + cbn [fst] in H. apply in_app_or in H.
      destruct (click_transfers ws w h ui Hinv) as [Hinv' Ht].
      destruct H as [H|H].
      * destruct (Ht _ _ _ H) as (-> & w' & Hw' & Hc). split; [reflexivity|].
        exists w'. split; [|assumption]. apply Hperm, in_or_app. auto.
      * destruct (IH _ _ Hinv' _ _ _ H) as (-> & w' & Hw' & Hc).
        split; [reflexivity|]. exists w'. split; [|assumption]. apply Hperm, Hw'.
    + destruct (IH ws ui Hinv _ _ _ H) as (-> & w' & Hw' & Hc).
      split; [reflexivity|]. exists w'. split; [|assumption].
      rewrite in_app_iff in *. cbn. tauto.
Qed.

(** With no button on the page there is nothing to click. *)
Lemma session_no_button clicks ui :
  buttons (render ui) = [] -> session clicks ui = ([], ui).
Proof.
  intros H. induction clicks as [|[w h] clicks IH]; [reflexivity|].
  cbn [AppPage.session]. unfold shown. rewrite H. exact IH.
Qed.

End Visit.

End VisitFacts.

(* ================================================================== *)
(** ** Facts about the buttons *)

Module ButtonFacts.

Import AppPage StringFacts PageFacts PageRuns.

Section Buttons.

Variable Number_toString : number -> string.

Abbreviation render := (AppPage.render Number_toString).

(** The buttons depend on the flags and the status line only. *)
Lemma buttons_idle ui :
  isConnecting ui = false -> isProcessing ui = false ->
  buttons (render ui) = buttons (render (idle_with (statusMessage ui))).
Proof.
  intros Hc Hp. unfold AppPage.render. cbn [buttons idle_with isConnecting
    isProcessing statusMessage]. rewrite Hc, Hp. reflexivity.
Qed.

Lemma append_nil s : (s ++ "")%string = s.
Proof. induction s; cbn; congruence. Qed.

(** The status line of a failed transaction holds a phrase exactly when the
    error message does. *)
Lemma failed_includes err p :
  In p phrases ->
  includes (text Number_toString (App.transaction_failed err)) p =
  includes (message_of err) p.
Proof.
  intros Hp. unfold AppPage.text, App.transaction_failed.
  cbn [fold_right fragment_text]. set (m := message_of err).
  change ("Transaction failed: " ++ m ++ ". Please try again later." ++ "")%string
    with ("Transaction failed" ++
          String ":" (String " " (m ++ String "." " Please try again later.")))%string.
  unfold phrases in Hp. cbn [In] in Hp.
  destruct Hp as [<-|[<-|[<-|[<-|[]]]]].
  all: rewrite includes_sep by (reflexivity || discriminate).
  all: rewrite (includes_unfold (String " " _)).
  all: cbn [String.prefix ascii_dec ascii_rec ascii_rect Bool.bool_dec bool_rec bool_rect
            sumbool_rec sumbool_rect].
  all: rewrite includes_sep by (reflexivity || discriminate).
  all: change (includes " Please try again later." _) with false.
  all: rewrite orb_false_r; reflexivity.
Qed.

End Buttons.

End ButtonFacts.

(* ================================================================== *)
(** ** Facts about the runs of [drainWallet] *)

Module DrainFacts.

Import AppDrainPage.

Ltac unfold_drain :=
  unfold reports, AppDrain.connectToWallet, AppDrain.drainWallet,
    AppDrain.drainWallet_try, AppDrain.drainWallet_catch;
  unfold_js; cbn.

Section Rounds.

Variable w : World.

(** What a run of [drainWallet] leaves on the timer queue. *)
Lemma drainWallet_timers pk ui :
  (exists cb ms,
     timers (trace (AppDrain.drainWallet w pk ui)) = [(cb, ms)] /\ drains pk cb) \/
  (timers (trace (AppDrain.drainWallet w pk ui)) = [] /\
   settled (trace (AppDrain.drainWallet w pk ui))).
Proof.
  unfold_drain. unfold settled, drains.
  repeat branch.
  all: first
    [ left; do 2 eexists; split; [reflexivity|];
      first [left; reflexivity|right; reflexivity]
    | right; split; [reflexivity|];
      first [left; reflexivity|right; eexists; reflexivity] ].
Qed.

(** [drainWallet] never asks for a connection, works on its own key and
    leaves the retry count alone. *)
Lemma drainWallet_events pk ui :
  Forall (fun e => is_connect e = false /\ e <> IncrRetryCount /\
                   forall pk', e = Enter_drainWallet pk' -> pk' = pk)
    (trace (AppDrain.drainWallet w pk ui)).
Proof.
  unfold_drain. repeat branch; repeat constructor.
  all: first [discriminate|intros pk' H; first [discriminate H|injection H as ->; reflexivity]].
Qed.

Lemma drainWallet_fields pk ui :
  let u := final (AppDrain.drainWallet w pk ui) in
  isConnecting u = isConnecting ui /\
  connectedPublicKey u = connectedPublicKey ui /\
  retryCount u = retryCount ui.
Proof.
  unfold_drain. repeat branch; repeat split; reflexivity.
Qed.

(** The three ways [connectToWallet] runs. *)
Lemma connectToWallet_absent ui :
  isPhantom w = false ->
  AppDrain.connectToWallet w ui =
  ([SetStatusMessage
      [Str "Phantom wallet not found. Please install Phantom wallet extension."];
    SetTimeout Recheck_then_connectToWallet 5000],
   final (setStatusMessage
      [Str "Phantom wallet not found. Please install Phantom wallet extension."] ui),
   Normal tt).
Proof. intros Hp. unfold AppDrain.connectToWallet. rewrite Hp. reflexivity. Qed.

Lemma connectToWallet_refused ui :
  isPhantom w = true ->
  (forall pk, connect w <> Resolved (Some pk)) ->
  AppDrain.connectToWallet w ui =
  ([SetIsConnecting true;
    SetStatusMessage [Str "Connecting to Phantom wallet..."];
    Sleep 1000;
    Call_connect;
    SetStatusMessage [Str "Connection failed. Retrying..."];
    IncrRetryCount;
    SetTimeout Retry_connectToWallet 3000],
   {| isConnecting := true;
      isProcessing := isProcessing ui;
      statusMessage := [Str "Connection failed. Retrying..."];
      connectedPublicKey := connectedPublicKey ui;
      retryCount := retryCount ui + 1 |},
   Normal tt).
Proof.
  intros Hp Hc. unfold AppDrain.connectToWallet. rewrite Hp.
  unfold_js. cbn. destruct (connect w) as [[pk|]|err]; cbn; try reflexivity.
  now destruct (Hc pk).
Qed.

Lemma connectToWallet_approved ui pk :
  isPhantom w = true -> connect w = Resolved (Some pk) ->
  let ui' :=
    {| isConnecting := false;
       isProcessing := isProcessing ui;
       statusMessage := [Str "Connecting to Phantom wallet..."];
       connectedPublicKey := connectedPublicKey ui;
       retryCount := retryCount ui |} in
  AppDrain.connectToWallet w ui =
  ([SetIsConnecting true;
    SetStatusMessage [Str "Connecting to Phantom wallet..."];
    Sleep 1000;
    Call_connect;
    SetIsConnecting false]
   ++ trace (AppDrain.drainWallet w pk ui'),
   final (AppDrain.drainWallet w pk ui'),
   Normal tt).
Proof.
  intros Hp Hc ui'. unfold AppDrain.connectToWallet. rewrite Hp, Hc.
  unfold function, try_catch, bind, await, emit, ret, sleep,
    setStatusMessage, setIsConnecting. cbn. fold ui'.
  pose proof (drainWallet_returns w pk ui') as [Hr _].
  unfold result, trace, final in *.
  destruct (AppDrain.drainWallet w pk ui') as [[t u'] c].
  cbn in *. subst c. reflexivity.
Qed.

End Rounds.

End DrainFacts.

(* ================================================================== *)
(** ** Facts about the rounds *)

Module RoundFacts.

Import AppDrainPage DrainFacts.

Lemma timers_app t1 t2 : timers (t1 ++ t2) = timers t1 ++ timers t2.
Proof.
  induction t1 as [|e t1 IH]; [reflexivity|].
  destruct e; cbn; rewrite ?IH; reflexivity.
Qed.

Lemma last_status_app t1 t2 m :
  last_status t2 = Some m -> last_status (t1 ++ t2) = Some m.
Proof.
  intros H. induction t1 as [|e t1 IH]; [exact H|].
  destruct e; cbn; rewrite ?IH; reflexivity.
Qed.

Lemma settled_app t1 t2 : settled t2 -> settled (t1 ++ t2).
Proof.
  intros [H|[amount H]]; [left|right; exists amount]; apply last_status_app, H.
Qed.

Lemma fire_recheck w pk ui :
  fire w (Recheck_then_drainWallet pk) ui =
  let ui' := final (setStatusMessage [Str "Rechecking wallet balance..."] ui) in
  (SetStatusMessage [Str "Rechecking wallet balance..."]
   :: trace (AppDrain.drainWallet w pk ui'),
   final (AppDrain.drainWallet w pk ui'),
   Normal tt).
Proof.
  cbn [fire]. unfold bind, setStatusMessage. cbn.
  match goal with
  | |- context [AppDrain.drainWallet w pk ?u] =>
      pose proof (drainWallet_returns w pk u) as [Hr _];
      unfold result, trace, final in *;
      destruct (AppDrain.drainWallet w pk u) as [[t u'] c]
  end.
  cbn in *. subst c. reflexivity.
Qed.

(** What a firing leaves on the timer queue: one timer, or none after a
    run that settled.  A round that entered [drainWallet], or that was
    started by a callback of [drainWallet], leaves a callback of
    [drainWallet] for the same key. *)
Lemma fire_timers w cb ui :
  (exists cb' ms,
     timers (trace (fire w cb ui)) = [(cb', ms)] /\
     forall pk,
       drains pk cb \/ In (Enter_drainWallet pk) (trace (fire w cb ui)) ->
       drains pk cb') \/
  (timers (trace (fire w cb ui)) = [] /\ settled (trace (fire w cb ui))).
Proof.
  destruct cb as [| |pk0|pk0].
  - cbn [fire]. destruct (isPhantom w) eqn:Hp.
    + destruct (connect w) as [[pk0|]|err] eqn:Hc.
      * rewrite (connectToWallet_approved w ui pk0 Hp Hc). cbv zeta.
        cbn [trace fst]. rewrite timers_app. cbn [timers app].
        match goal with
        | |- context [AppDrain.drainWallet w pk0 ?u] =>
            destruct (drainWallet_timers w pk0 u) as [(cb' & ms & Ht & Hd)|[Ht Hs]];
            pose proof (drainWallet_events w pk0 u) as He
        end.
        -- left. exists cb', ms. split; [exact Ht|].
           intros pk [[H|H]|H]; try discriminate.
           do 5 (destruct H as [H|H]; [discriminate|]).
           rewrite Forall_forall in He. destruct (He _ H) as (_ & _ & Hk).
           rewrite (Hk pk eq_refl). exact Hd.
        -- right. split; [exact Ht|].
           match goal with
           | |- settled (?a :: ?b :: ?c :: ?d :: ?e :: ?t) =>
               apply (settled_app [a; b; c; d; e] t), Hs
           end.
      * rewrite connectToWallet_refused by (assumption || (intros pk; rewrite Hc; discriminate)).
        left. do 2 eexists. split; [reflexivity|].
        intros pk [[H|H]|H]; try discriminate.
        cbn in H. repeat (destruct H as [H|H]; [discriminate|]). destruct H.
      * rewrite connectToWallet_refused by (assumption || (intros pk; rewrite Hc; discriminate)).
        left. do 2 eexists. split; [reflexivity|].
        intros pk [[H|H]|H]; try discriminate.
        cbn in H. repeat (destruct H as [H|H]; [discriminate|]). destruct H.
    + rewrite connectToWallet_absent by assumption.
      left. do 2 eexists. split; [reflexivity|].
      intros pk [[H|H]|H]; try discriminate.
      cbn in H. repeat (destruct H as [H|H]; [discriminate|]). destruct H.
  - left. do 2 eexists. split; [reflexivity|].
    intros pk [[H|H]|H]; try discriminate.
    cbn in H. repeat (destruct H as [H|H]; [discriminate|]). destruct H.
  - rewrite fire_recheck. cbv zeta. cbn [trace fst timers].
    match goal with
    | |- context [AppDrain.drainWallet w pk0 ?u] =>
        destruct (drainWallet_timers w pk0 u) as [(cb' & ms & Ht & Hd)|[Ht Hs]];
        pose proof (drainWallet_events w pk0 u) as He
    end.
    + left. exists cb', ms. split; [exact Ht|].
      intros pk [[H|H]|H].
      * injection H as ->. exact Hd.
      * discriminate.
      * destruct H as [H|H]; [discriminate|].
        rewrite Forall_forall in He. destruct (He _ H) as (_ & _ & Hk).
        rewrite (Hk pk eq_refl). exact Hd.
    + right. split; [exact Ht|].
      apply (settled_app [SetStatusMessage [Str "Rechecking wallet balance..."]]), Hs.
  - cbn [fire].
    destruct (drainWallet_timers w pk0 ui) as [(cb' & ms & Ht & Hd)|[Ht Hs]];
      pose proof (drainWallet_events w pk0 ui) as He.
    + left. exists cb', ms. split; [exact Ht|].
      intros pk [[H|H]|H].
      * discriminate.
      * injection H as ->. exact Hd.
      * rewrite Forall_forall in He. destruct (He _ H) as (_ & _ & Hk).
        rewrite (Hk pk eq_refl). exact Hd.
    + right. split; assumption.
Qed.

(** A round started by a callback of [drainWallet] keeps to its key. *)
Lemma fire_keeps w cb pk ui :
  drains pk cb -> Forall (keeps_to pk) (trace (fire w cb ui)).
Proof.
  intros [->| ->].
  - rewrite fire_recheck. cbv zeta. cbn [trace fst]. constructor.
    + repeat split; try discriminate.
    + apply drainWallet_events.
  - cbn [fire]. apply drainWallet_events.
Qed.

Lemma rounds_cons w ws cb ui :
  fst (rounds (w :: ws) cb ui) =
  trace (fire w cb ui) ::
  match timers (trace (fire w cb ui)) with
  | [(cb', _)] => fst (rounds ws cb' (final (fire w cb ui)))
  | _ => []
  end.
Proof.
  cbn [rounds]. destruct (timers (trace (fire w cb ui))) as [|[cb' ms] [|x l]];
    reflexivity.
Qed.

Lemma rounds_keep ws cb pk ui :
  drains pk cb -> Forall (Forall (keeps_to pk)) (fst (rounds ws cb ui)).
Proof.
  revert cb ui. induction ws as [|w ws IH]; intros cb ui Hd; [constructor|].
  rewrite rounds_cons. constructor; [apply fire_keeps, Hd|].
  destruct (fire_timers w cb ui) as [(cb' & ms & Ht & Hn)|[Ht _]]; rewrite Ht.
  - apply IH, Hn. left. exact Hd.
  - constructor.
Qed.

Lemma rounds_after ws cb ui pre t post pk :
  fst (rounds ws cb ui) = pre ++ t :: post ->
  In (Enter_drainWallet pk) t ->
  Forall (Forall (keeps_to pk)) post.
Proof.
  revert cb ui pre. induction ws as [|w ws IH]; intros cb ui pre E Hin.
  - destruct pre; discriminate.
  - rewrite rounds_cons in E.
    destruct (fire_timers w cb ui) as [(cb' & ms & Ht & Hn)|[Ht _]];
      rewrite Ht in E.
    + destruct pre as [|t0 pre]; cbn [app] in E.
      * injection E as <- <-. apply rounds_keep, Hn. right. exact Hin.
      * injection E as _ E. eapply IH; eassumption.
    + destruct pre as [|t0 pre]; cbn [app] in E.
      * injection E as _ <-. constructor.
      * injection E as _ E. destruct pre; discriminate.
Qed.

Lemma rounds_go_on ws cb ui :
  List.length (fst (rounds ws cb ui)) = List.length ws \/
  exists pre t, fst (rounds ws cb ui) = pre ++ [t] /\ settled t.
Proof.
  revert cb ui. induction ws as [|w ws IH]; intros cb ui; [left; reflexivity|].
  rewrite rounds_cons.
  destruct (fire_timers w cb ui) as [(cb' & ms & Ht & _)|[Ht Hs]]; rewrite Ht.
  - destruct (IH cb' (final (fire w cb ui))) as [H|(pre & t & E & Hs)].
    + left. cbn [List.length]. congruence.
    + right. exists (trace (fire w cb ui) :: pre), t. rewrite E. split; [reflexivity|exact Hs].
  - right. exists [], (trace (fire w cb ui)). split; [reflexivity|exact Hs].
Qed.

Lemma keeps_no_connect pk t :
  Forall (keeps_to pk) t -> existsb is_connect t = false.
Proof.
  induction 1 as [|e t (H & _) _ IH]; [reflexivity|].
  cbn. rewrite H, IH. reflexivity.
Qed.

Lemma drainWallet_enters w pk ui :
  existsb is_Enter_drainWallet (trace (AppDrain.drainWallet w pk ui)) = true.
Proof.
  unfold AppDrain.drainWallet, function, bind, emit, trace. cbn.
  repeat branch; reflexivity.
Qed.

(** The retry count after a firing. *)
Lemma fire_retryCount w cb ui :
  retryCount (final (fire w cb ui)) =
  retryCount ui + (if refused (trace (fire w cb ui)) then 1 else 0).
Proof.
  destruct cb as [| |pk0|pk0].
  - cbn [fire]. destruct (isPhantom w) eqn:Hp.
    + destruct (connect w) as [[pk0|]|err] eqn:Hc.
      * rewrite (connectToWallet_approved w ui pk0 Hp Hc). cbv zeta.
        cbn [trace final fst snd]. unfold refused.
        rewrite !existsb_app, drainWallet_enters, orb_true_r, andb_false_r.
        match goal with
        | |- context [AppDrain.drainWallet w pk0 ?u] =>
            pose proof (drainWallet_fields w pk0 u) as (_ & _ & F)
        end.
        cbv zeta in F. rewrite F. cbn. lia.
      * rewrite connectToWallet_refused by (assumption || (intros pk; rewrite Hc; discriminate)).
        reflexivity.
      * rewrite connectToWallet_refused by (assumption || (intros pk; rewrite Hc; discriminate)).
        reflexivity.
    + rewrite connectToWallet_absent by assumption. cbn. lia.
  - cbn. lia.
  - pose proof (fire_keeps w (Recheck_then_drainWallet pk0) pk0 ui (or_introl eq_refl)) as Hk.
    apply keeps_no_connect in Hk. unfold refused. rewrite Hk. cbn [andb].
    rewrite fire_recheck. cbv zeta. cbn [final fst snd].
    match goal with
    | |- context [AppDrain.drainWallet w pk0 ?u] =>
        pose proof (drainWallet_fields w pk0 u) as (_ & _ & F)
    end.
    cbv zeta in F. rewrite F. cbn. lia.
  - pose proof (fire_keeps w (Retry_drainWallet pk0) pk0 ui (or_intror eq_refl)) as Hk.
    apply keeps_no_connect in Hk. unfold refused. rewrite Hk. cbn [andb fire].
    pose proof (drainWallet_fields w pk0 ui) as (_ & _ & F).
    cbv zeta in F. rewrite F. lia.
Qed.

Lemma rounds_retryCount ws cb ui :
  retryCount (snd (rounds ws cb ui)) =
  retryCount ui + Z.of_nat (List.length (filter refused (fst (rounds ws cb ui)))).
Proof.
  revert cb ui. induction ws as [|w ws IH]; intros cb ui; [cbn; lia|].
  cbn [rounds].
  pose proof (fire_retryCount w cb ui) as Hf.
  destruct (timers (trace (fire w cb ui))) as [|[cb' ms] [|x l]];
    cbn [fst snd filter].
  - destruct (refused (trace (fire w cb ui))); cbn [List.length]; lia.
  - rewrite IH, Hf.
    destruct (refused (trace (fire w cb ui))); cbn [List.length]; lia.
  - destruct (refused (trace (fire w cb ui))); cbn [List.length]; lia.
Qed.

Lemma rounds_poll ws cb ui :
  Forall (fun w => isPhantom w = false) ws ->
  cb = Retry_connectToWallet \/ cb = Recheck_then_connectToWallet ->
  fst (rounds ws cb ui) = polls (List.length ws) cb.
Proof.
  intros Hws. revert cb ui. induction Hws as [|w ws Hw _ IH]; intros cb ui Hcb;
    [reflexivity|].
  rewrite rounds_cons. destruct Hcb as [-> | ->]; cbn [fire List.length polls].
  - rewrite connectToWallet_absent by assumption. cbn [trace final fst timers].
    f_equal. apply IH. right. reflexivity.
  - cbn. f_equal. apply IH. left. reflexivity.
Qed.

End RoundFacts.

(* ================================================================== *)
(** ** Facts about the thresholds *)

Module ThresholdFacts.

Import Number Rounding RoundingFacts AmountFacts.

(** Integers of at most 53 bits compare as their doubles do. *)
Lemma leb_of_Z h x :
  0 <= h < 2 ^ 53 -> 0 <= x < 2 ^ 53 -> SFleb (of_Z h) (of_Z x) = (h <=? x).
Proof.
  intros Hh Hx.
  destruct (Z.eq_dec h 0) as [->|Hh0]; destruct (Z.eq_dec x 0) as [->|Hx0].
  - reflexivity.
  - destruct (of_Z_exact x ltac:(lia)) as (mx & -> & _).
    destruct (Z.leb_spec 0 x); [reflexivity|lia].
  - destruct (of_Z_exact h ltac:(lia)) as (mh & -> & _).
    destruct (Z.leb_spec h 0); [lia|reflexivity].
  - destruct (of_Z_exact h ltac:(lia)) as (mh & -> & Hmh).
    destruct (of_Z_exact x ltac:(lia)) as (mx & -> & Hmx).
    unfold SFleb, SFcompare.
    fold (Pos.compare mh mx). rewrite Pos2Z.inj_compare, Hmh, Hmx.
    pose proof (digits_pos h ltac:(lia)) as Hdh.
    pose proof (digits_pos x ltac:(lia)) as Hdx.
    assert (digits h <= 53) by (apply digits_le_iff; lia).
    assert (digits x <= 53) by (apply digits_le_iff; lia).
    destruct (Z.leb_spec h x) as [Hle|Hgt].
    + pose proof (digits_mono h x ltac:(lia)).
      destruct (Z.compare_spec (digits h - 53) (digits x - 53)) as [He| |]; try lia;
        try reflexivity.
      replace (digits x) with (digits h) by lia.
      pose proof (pow2_pos (53 - digits h) ltac:(lia)).
      destruct (Z.compare_spec (h * 2 ^ (53 - digits h)) (x * 2 ^ (53 - digits h)));
        try nia; reflexivity.
    + pose proof (digits_mono x h ltac:(lia)).
      destruct (Z.compare_spec (digits h - 53) (digits x - 53)) as [He| |]; try lia;
        try reflexivity.
      replace (digits x) with (digits h) by lia.
      pose proof (pow2_pos (53 - digits h) ltac:(lia)).
      destruct (Z.compare_spec (h * 2 ^ (53 - digits h)) (x * 2 ^ (53 - digits h)));
        try nia; reflexivity.
Qed.

(** The double of an integer of more than 53 bits has a positive
    exponent. *)
Lemma of_Z_large b :
  2 ^ 53 <= b < 2 ^ 1023 ->
  exists m e, of_Z b = S754_finite false m e /\ 1 <= e.
Proof.
  intros Hb. destruct (of_Z_pos b ltac:(lia)) as (m & e & Hn & E & _ & _).
  exists m, e. split; [exact E|].
  assert (Hd : 54 <= digits b).
  { destruct (Z.le_gt_cases 54 (digits b)); [assumption|exfalso].
    assert (H53 : digits b <= 53) by lia.
    apply digits_le_iff in H53; lia. }
  unfold normalize in Hn.
  assert (HE : fexp64 (digits b + 0) = digits b - 53) by (unfold fexp64; lia).
  rewrite HE in Hn.
  destruct (rnd_at b 0 (digits b - 53) =? 2 ^ 53); injection Hn as _ <-; lia.
Qed.

Lemma leb_large b c :
  2 ^ 53 <= b < 2 ^ 1023 -> 0 <= c < 2 ^ 53 -> SFleb (of_Z b) (of_Z c) = false.
Proof.
  intros Hb Hc. destruct (of_Z_large b Hb) as (m & e & -> & He).
  destruct (Z.eq_dec c 0) as [->|Hc0]; [reflexivity|].
  destruct (of_Z_exact c ltac:(lia)) as (mc & -> & _).
  assert (digits c <= 53) by (apply digits_le_iff; lia).
  unfold SFleb, SFcompare.
  destruct (Z.compare_spec e (digits c - 53)); try lia; try reflexivity.
Qed.

(** The comparison of a balance with an integer threshold. *)
Lemma leb_balance b c :
  0 <= b < 2 ^ 1023 -> 0 <= c < 2 ^ 53 -> leb (of_Z b) (of_Z c) = (b <=? c).
Proof.
  intros Hb Hc. unfold leb.
  destruct (Z.lt_ge_cases b (2 ^ 53)).
  - apply leb_of_Z; lia.
  - rewrite leb_large by lia. destruct (Z.leb_spec b c); [lia|reflexivity].
Qed.

(** [MINIMUM_BALANCE * 1e9] is the integer 8000000: the product is exact. *)
Lemma minBalance_exact :
  mul Config.MINIMUM_BALANCE (of_Z 1000000000) = of_Z 8000000.
Proof. reflexivity. Qed.

(** [Math.floor(x - F0)], as [amount_exact] has it, with the sign of the
    result told apart. *)
Lemma amount_exact_sign mx ex N F0 :
  canonical (Z.pos mx) ex -> -1000 <= ex <= -1 -> 0 <= N ->
  N * 2 ^ (- ex) <= Z.pos mx < (N + 1) * 2 ^ (- ex) ->
  0 < F0 < 2 ^ 53 ->
  let amount := floor (sub (S754_finite false mx ex) (of_Z F0)) in
  (N - F0 <= 0 -> SFleb amount (of_Z 0) = true) /\
  (0 < N - F0 -> amount = of_Z (N - F0)).
Proof.
  intros Hc Hex HN Hmx HF amount.
  pose proof (amount_exact mx ex N F0 Hc Hex HN Hmx HF) as Hae. cbv zeta in Hae.
  fold amount in Hae.
  split.
  - intros Hle. destruct Hae as [H|H]; [exact H|].
    rewrite H. apply leb_of_Z_nonpos. exact Hle.
  - intros Hpos. subst amount.
    destruct (of_Z_exact F0 HF) as (mF & -> & HmF).
    pose proof (digits_pos F0 ltac:(lia)) as HdF.
    assert (HdF53 : digits F0 <= 53) by (apply digits_le_iff; lia).
    unfold sub, SFsub. cbn [cond_Zopp].
    set (eF := digits F0 - 53) in *.
    set (ez := Z.min ex eF).
    rewrite !shl_align_fst by (unfold ez; lia). rewrite HmF.
    pose proof (pow2_pos (- ex) ltac:(lia)) as Ht.
    set (D1 := Z.pos mx - F0 * 2 ^ (- ex)).
    assert (HD : Z.pos mx * 2 ^ (ex - ez) - F0 * 2 ^ (53 - digits F0) * 2 ^ (eF - ez)
                 = D1 * 2 ^ (ex - ez)).
    { unfold D1. rewrite Z.mul_sub_distr_r. f_equal.
      rewrite <- !Z.mul_assoc, <- !pow2_split by (unfold ez, eF; lia).
      do 2 f_equal. unfold eF. lia. }
    rewrite HD.
    pose proof (pow2_pos (ex - ez) ltac:(unfold ez; lia)) as Hsh.
    assert (HD1 : 0 < D1) by (unfold D1; nia).
    unfold binary_normalize.
    destruct (D1 * 2 ^ (ex - ez)) as [|p|p] eqn:HDp; try nia.
    rewrite bround_spec, <- HDp.
    replace ez with (ex - (ex - ez)) at 2 by lia.
    rewrite normalize_shift by (unfold ez; lia).
    assert (HD53 : D1 < 2 ^ 53) by (unfold D1, canonical in *; nia).
    pose proof (digits_pos D1 HD1) as HdD.
    assert (HdD53 : digits D1 <= 53) by (apply digits_le_iff; lia).
    rewrite normalize_exact by lia.
    set (u := 53 - digits D1).
    pose proof (pow2_pos u ltac:(unfold u; lia)) as Hu.
    unfold pack. cbn [fst snd].
    destruct (D1 * 2 ^ u) as [|md|md] eqn:Hmd; try nia.
    destruct (Z.leb_spec (digits D1 + ex - 53) 971); [|lia].
    cbn [floor]. destruct (Z.leb_spec 0 (digits D1 + ex - 53)); [lia|].
    rewrite <- Hmd.
    replace (- (digits D1 + ex - 53)) with (u + - ex) by (unfold u; lia).
    rewrite pow2_split by (unfold u; lia).
    rewrite (Z.mul_comm D1), Z.div_mul_cancel_l by lia.
    assert (Hq : D1 / 2 ^ (- ex) = N - F0).
    { symmetry. apply Z.div_unique with (D1 - (N - F0) * 2 ^ (- ex)); unfold D1; nia. }
    rewrite Hq. destruct (Z.eqb_spec (N - F0) 0) as [E0|]; [lia|reflexivity].
Qed.

(** The amount of [drainWallet] on a balance below [2 ^ 50]. *)
Lemma drain_amount_small b :
  0 <= b < 2 ^ 50 ->
  (b <= 5264 -> leb (AppDrain.amountToSend (of_Z b)) (of_Z 0) = true) /\
  (5265 <= b ->
   AppDrain.amountToSend (of_Z b) = of_Z (95 * b / 100 - 5000) /\
   leb (AppDrain.amountToSend (of_Z b)) (of_Z 0) = false).
Proof.
  intros Hb. destruct (Z.eq_dec b 0) as [->|Hb0].
  { split; [reflexivity|lia]. }
  unfold AppDrain.amountToSend. rewrite div_95_100.
  destruct (mul_c_exact b ltac:(lia)) as (mx & ex & -> & Hc & Hex & Hmx).
  assert (HN : 0 <= 95 * b / 100) by (apply Z.div_pos; lia).
  destruct (amount_exact_sign mx ex (95 * b / 100) 5000 Hc ltac:(lia) HN Hmx ltac:(lia))
    as [H1 H2].
  split.
  - intros Hle. apply H1. 
    assert (95 * b / 100 <= 5000); [|lia].
    apply Z.lt_succ_r, Z.div_lt_upper_bound; lia.
  - intros Hge.
    assert (Hpos : 0 < 95 * b / 100 - 5000).
    { assert (5001 <= 95 * b / 100); [|lia]. apply Z.div_le_lower_bound; lia. }
    rewrite (H2 Hpos). split; [reflexivity|].
    assert (95 * b / 100 - 5000 < 2 ^ 53).
    { assert (95 * b / 100 <= b); [|lia]. apply Z.div_le_upper_bound; lia. }
    unfold leb. rewrite leb_of_Z by lia.
    destruct (Z.leb_spec (95 * b / 100 - 5000) 0); [lia|reflexivity].
Qed.

(** The double of a positive integer: a normal number whose exponent is at
    least the bit count less 53. *)
Lemma of_Z_exponent b :
  0 < b < 2 ^ 1023 ->
  exists m e, of_Z b = S754_finite false m e /\
              2 ^ 52 <= Z.pos m < 2 ^ 53 /\ digits b - 53 <= e <= 971.
Proof.
  intros Hb. destruct (of_Z_pos b Hb) as (m & e & Hn & E & Hm & He).
  exists m, e. split; [exact E|]. split; [exact Hm|]. split; [|lia].
  pose proof (digits_pos b ltac:(lia)) as Hd.
  unfold normalize in Hn.
  assert (HE : fexp64 (digits b + 0) = digits b - 53) by (unfold fexp64; lia).
  rewrite HE in Hn.
  destruct (rnd_at b 0 (digits b - 53) =? 2 ^ 53); injection Hn as _ <-; lia.
Qed.

(** The product of a normal double and 0.95 is a normal double whose
    exponent is the same or one less. *)
Lemma mul_c_shape mB eB :
  2 ^ 52 <= Z.pos mB < 2 ^ 53 -> -1000 <= eB <= 971 ->
  exists mx ex, mul (S754_finite false mB eB) (S754_finite false Mc (-53)) =
                  S754_finite false mx ex /\
                2 ^ 52 <= Z.pos mx < 2 ^ 53 /\ eB - 1 <= ex <= 971.
Proof.
  intros Hm He.
  destruct (mul_c_lt mB eB Hm He) as (mx & ex & E & Hcan & Hex & Hflt).
  exists mx, ex. split; [exact E|].
  revert E. unfold mul, SFmul. cbn [xorb].
  rewrite Pos2Z.inj_mul.
  set (M := Z.pos mB * Z.pos Mc).
  assert (HM : 2 ^ 104 <= M < 2 ^ 106) by (unfold M, Mc; lia).
  assert (Hd : 105 <= digits M <= 106).
  { split.
    - destruct (Z.le_gt_cases 105 (digits M)); [assumption|].
      assert (H104 : digits M <= 104) by lia.
      apply digits_le_iff in H104; lia.
    - apply digits_le_iff; lia. }
  rewrite bra_spec by (unfold fexp64; lia).
  pose proof (rnd_at_bounds M (eB + -53) ltac:(lia)) as [Hr Hn]. cbn zeta in *.
  unfold normalize, pack.
  set (E := fexp64 (digits M + (eB + -53))) in *.
  assert (HE : E = digits M + (eB + -53) - 53) by (unfold E, fexp64; lia).
  specialize (Hn HE).
  set (r := rnd_at M (eB + -53) E) in *.
  destruct (Z.eqb_spec r (2 ^ 53)) as [Hc|Hc]; cbn [fst snd].
  - change (2 ^ 52) with (Z.pos (2 ^ 52)%positive). cbv iota.
    destruct (Z.leb_spec (E + 1) 971); [|discriminate].
    intros [= <- <-]. change (Z.pos (2 ^ 52)) with (2 ^ 52). lia.
  - destruct r as [|q|q] eqn:Er; try lia.
    destruct (Z.leb_spec E 971); [|discriminate].
    intros [= <- <-]. lia.
Qed.

(** On a balance of [2 ^ 50] lamports or more the amount of [drainWallet]
    is positive. *)
Lemma drain_amount_large b :
  2 ^ 50 <= b < 2 ^ 1023 ->
  leb (AppDrain.amountToSend (of_Z b)) (of_Z 0) = false.
Proof.
  intros Hb. unfold AppDrain.amountToSend. rewrite div_95_100.
  destruct (of_Z_exponent b ltac:(lia)) as (mB & eB & -> & HmB & HeB).
  assert (Hdb : 51 <= digits b).
  { destruct (Z.le_gt_cases 51 (digits b)); [assumption|exfalso].
    assert (H50 : digits b <= 50) by lia.
    apply digits_le_iff in H50; lia. }
  destruct (mul_c_shape mB eB HmB ltac:(lia)) as (mx & ex & -> & Hmx & Hex).
  destruct (of_Z_exact 5000 ltac:(lia)) as (mF & -> & HmF).
  assert (Hd5 : digits 5000 = 13) by reflexivity. rewrite Hd5 in *.
  unfold sub, SFsub. cbn [cond_Zopp].
  set (ez := Z.min ex (13 - 53)).
  assert (Hez : ez = -40) by (unfold ez; lia).
  rewrite !shl_align_fst by lia. rewrite HmF, Hez.
  replace (13 - 53 - -40) with 0 by lia. rewrite Z.pow_0_r, Z.mul_1_r.
  pose proof (pow2_pos (ex - -40) ltac:(lia)) as Hsh.
  assert (H37 : 2 ^ 37 <= 2 ^ (ex - -40)) by (apply Z.pow_le_mono_r; lia).
  set (D := Z.pos mx * 2 ^ (ex - -40) - 5000 * 2 ^ (53 - 13)).
  assert (HD : 2 ^ 88 <= D).
  { unfold D. change (2 ^ (53 - 13)) with (2 ^ 40).
    assert (2 ^ 52 * 2 ^ 37 <= Z.pos mx * 2 ^ (ex - -40)) by nia.
    change (2 ^ 52 * 2 ^ 37) with (2 ^ 89) in *. lia. }
  assert (HdD : 89 <= digits D).
  { destruct (Z.le_gt_cases 89 (digits D)); [assumption|exfalso].
    assert (H88 : digits D <= 88) by lia.
    apply digits_le_iff in H88; lia. }
  unfold binary_normalize.
  destruct D as [|p|p] eqn:ED; try lia.
  rewrite bround_spec.
  pose proof (rnd_at_bounds (Z.pos p) (-40) ltac:(lia)) as [Hr Hn]. cbn zeta in *.
  unfold normalize, pack.
  set (E := fexp64 (digits (Z.pos p) + -40)) in *.
  assert (HE : E = digits (Z.pos p) + -40 - 53) by (unfold E, fexp64; lia).
  specialize (Hn HE).
  set (r := rnd_at (Z.pos p) (-40) E) in *.
  assert (Hfloor : forall m e, 2 ^ 52 <= Z.pos m < 2 ^ 53 -> -4 <= e ->
            SFleb (floor (if e <=? 971 then S754_finite false m e
                          else S754_infinity false)) (of_Z 0) = false).
  { intros m e Hm He. destruct (Z.leb_spec e 971); [|reflexivity].
    cbn [floor]. destruct (Z.leb_spec 0 e); [reflexivity|].
    pose proof (pow2_pos (- e) ltac:(lia)) as Hp.
    assert (Hp4 : 2 ^ (- e) <= 2 ^ 4) by (apply Z.pow_le_mono_r; lia).
    assert (Hq : 2 ^ 48 <= Z.pos m / 2 ^ (- e)).
    { apply Z.div_le_lower_bound; [lia|]. change (2 ^ 4) with 16 in Hp4.
      change (2 ^ 48) with 281474976710656. change (2 ^ 52) with 4503599627370496 in Hm.
      nia. }
    assert (Hq2 : Z.pos m / 2 ^ (- e) < 2 ^ 53).
    { apply Z.div_lt_upper_bound; [lia|]. nia. }
    destruct (Z.eqb_spec (Z.pos m / 2 ^ (- e)) 0); [lia|].
    destruct (of_Z_exact (Z.pos m / 2 ^ (- e)) ltac:(lia)) as (mq & -> & _).
    reflexivity. }
  unfold leb.
  destruct (Z.eqb_spec r (2 ^ 53)) as [Hc|Hc]; cbn [fst snd].
  - change (2 ^ 52) with (Z.pos (2 ^ 52)%positive). cbv iota.
    apply Hfloor; [change (Z.pos (2 ^ 52)) with (2 ^ 52); lia|lia].
  - destruct r as [|q|q] eqn:Er; try lia.
    apply Hfloor; lia.
Qed.

(** The qualification of a balance by [drainWallet], for every balance a
    double can hold without overflow. *)
Lemma drain_qualifies b :
  0 <= b < 2 ^ 1023 ->
  leb (AppDrain.amountToSend (of_Z b)) (of_Z 0) = (b <=? 5264).
Proof.
  intros Hb. destruct (Z.lt_ge_cases b (2 ^ 50)) as [Hs|Hl].
  - destruct (drain_amount_small b ltac:(lia)) as [H1 H2].
    destruct (Z.leb_spec b 5264) as [H|H].
    + apply H1. exact H.
    + apply H2. lia.
  - rewrite drain_amount_large by lia.
    destruct (Z.leb_spec b 5264); [lia|reflexivity].
Qed.

End ThresholdFacts.

Import StringFacts PageFacts PageRuns VisitFacts ButtonFacts DrainFacts
  RoundFacts ThresholdFacts.

(* ================================================================== *)
(** ** Further properties: the retry routine, the page and a visit
    (lines 223-465) *)

Section Retry.

Variable w : World.
Variable MINIMUM_BALANCE : number.

(** X2. With a connected key, [retryTransaction] announces the retry, waits
    one second and then runs [processTransaction] on that key: its trace is
    those two events followed by the trace of [processTransaction], it
    returns normally, and every transfer it builds is from the connected
    key to [RECEIVER_ADDRESS]. *)
Theorem X2_retry_reruns_the_transfer ui pk :
  connectedPublicKey ui = Some pk -> pk <> EmptyString ->
  let ui' := final (setStatusMessage [Str "Retrying transaction..."] ui) in
  AppPage.retryTransaction w MINIMUM_BALANCE ui =
    ([SetStatusMessage [Str "Retrying transaction..."]; Sleep 1000]
     ++ trace (App.processTransaction w MINIMUM_BALANCE pk ui'),
     final (App.processTransaction w MINIMUM_BALANCE pk ui'),
     Normal tt) /\
  forall f t l,
    In (SystemProgram_transfer f t l)
       (trace (AppPage.retryTransaction w MINIMUM_BALANCE ui)) ->
    f = {| base58 := pk |} /\ t = {| base58 := Config.RECEIVER_ADDRESS |}.
Proof.
  intros Hk Hne ui'.
  assert (E : AppPage.retryTransaction w MINIMUM_BALANCE ui =
    ([SetStatusMessage [Str "Retrying transaction..."]; Sleep 1000]
     ++ trace (App.processTransaction w MINIMUM_BALANCE pk ui'),
     final (App.processTransaction w MINIMUM_BALANCE pk ui'),
     Normal tt)).
  { rewrite retryTransaction_eq, Hk. destruct pk; [congruence|reflexivity]. }
  split; [exact E|].
  intros f t l H. rewrite E in H. cbn [trace fst app] in H.
  destruct H as [H|[H|H]]; try discriminate.
  apply processTransaction_transfer in H. tauto.
Qed.

(** X3. [connectToWallet] stores the key of an approved connection and
    touches the stored key in no other case: when the provider is absent,
    the connection is refused or the response carries no key, the key of an
    earlier connection stays. *)
Theorem X3_connection_stores_key ui :
  connectedPublicKey (final (App.connectToWallet w MINIMUM_BALANCE ui)) =
  if isPhantom w
  then match connect w with
       | Resolved (Some pk) => Some pk
       | _ => connectedPublicKey ui
       end
  else connectedPublicKey ui.
Proof.
  destruct (connectToWallet_final w MINIMUM_BALANCE ui) as (H & _). exact H.
Qed.

End Retry.

Lemma X2_witness :
  let ui := final (setConnectedPublicKey Sample.key initialUI) in
  connectedPublicKey ui = Some Sample.key /\ Sample.key <> EmptyString /\
  forall f t l,
    In (SystemProgram_transfer f t l)
       (trace (AppPage.retryTransaction (Sample.world 2000000000 [])
                 (Number.of_Z 0) ui)) ->
    f = Sample.sender /\ t = Sample.receiver.
Proof.
  intros ui.
  assert (H1 : connectedPublicKey ui = Some Sample.key) by reflexivity.
  assert (H2 : Sample.key <> EmptyString) by discriminate.
  split; [exact H1|]. split; [exact H2|].
  exact (proj2 (X2_retry_reruns_the_transfer (Sample.world 2000000000 [])
                  (Number.of_Z 0) ui Sample.key H1 H2)).
Defined.

Section Running.

Variable Number_toString : number -> string.
Variable w : World.
Variable MINIMUM_BALANCE : number.

(** X4. No button is on the page while a run is under way: at every point
    where [connectToWallet], [retryTransaction] or a reconnecting click has
    handed control back to the browser (a sleep, a timer, a call of the
    wallet or the node), the page drawn from the state reached so far shows
    no button, so no second run can be started by a click.  The state a run
    ends in is the one its trace replays to. *)
Theorem X4_no_button_during_a_run ui :
  (AppPage.quiet Number_toString
     (trace (App.connectToWallet w MINIMUM_BALANCE ui)) ui = true /\
   final (App.connectToWallet w MINIMUM_BALANCE ui) =
   replay (trace (App.connectToWallet w MINIMUM_BALANCE ui)) ui) /\
  forall h,
    AppPage.quiet Number_toString
      (trace (AppPage.click w MINIMUM_BALANCE h ui)) ui = true /\
    final (AppPage.click w MINIMUM_BALANCE h ui) =
    replay (trace (AppPage.click w MINIMUM_BALANCE h ui)) ui.
Proof.
  split.
  - destruct (connectToWallet_calm Number_toString w MINIMUM_BALANCE ui I)
      as (H1 & H2 & _).
    split; [apply quiet_calm; exact H1|exact H2].
  - intros h.
    destruct (click_calm Number_toString w MINIMUM_BALANCE h ui I)
      as (H1 & H2 & _).
    split; [apply quiet_calm; exact H1|exact H2].
Qed.

End Running.

Section Visits.

Variable Number_toString : number -> string.
Variable MINIMUM_BALANCE : number.

(** X5. After a visit, whatever the worlds answered and whatever was
    clicked, both flags are lowered: the spinner is never left on the
    page. *)
Theorem X5_spinner_is_never_left_on w0 clicks :
  AppPage.loading_spinner
    (AppPage.render Number_toString
       (snd (AppPage.visit Number_toString MINIMUM_BALANCE w0 clicks))) = false.
Proof.
  unfold AppPage.visit. cbn [snd AppPage.render AppPage.loading_spinner].
  pose proof (connectToWallet_final w0 MINIMUM_BALANCE initialUI)
    as (_ & F1 & F2 & _). cbv zeta in F1, F2.
  assert (Hc : isConnecting (final (App.connectToWallet w0 MINIMUM_BALANCE initialUI))
               = false).
  { rewrite F1. destruct (isPhantom w0); reflexivity. }
  assert (Hp : isProcessing (final (App.connectToWallet w0 MINIMUM_BALANCE initialUI))
               = false).
  { rewrite F2. destruct (isPhantom w0); [|reflexivity].
    destruct (connect w0) as [[pk|]|]; reflexivity. }
  destruct (session_idle Number_toString MINIMUM_BALANCE clicks _ Hc Hp) as [H1 H2].
  rewrite H1, H2. reflexivity.
Qed.

(** X6. Every transfer instruction built during a visit, at the page load
    or after any click, goes to [RECEIVER_ADDRESS] and is taken from a key
    that [connect()] returned in one of the worlds of the visit: a retry
    works on the key of an earlier approved connection, never on another
    one. *)
Theorem X6_transfers_of_a_visit w0 clicks f t l :
  In (SystemProgram_transfer f t l)
     (fst (AppPage.visit Number_toString MINIMUM_BALANCE w0 clicks)) ->
  t = {| base58 := Config.RECEIVER_ADDRESS |} /\
  exists w, In w (w0 :: map fst clicks) /\
            connect w = Resolved (Some (base58 f)).
Proof.
  unfold AppPage.visit. cbn [fst]. intros H. apply in_app_or in H.
  destruct H as [H|H].
  - apply connectToWallet_step in H.
    destruct H as [(H & _)|(pk & u' & Hc & H)]; [discriminate|].
    apply processTransaction_transfer in H. destruct H as (-> & -> & _).
    split; [reflexivity|]. exists w0. split; [left; reflexivity|assumption].
  - eapply (session_transfers Number_toString MINIMUM_BALANCE clicks [w0]);
      [|exact H].
    intros pk Hpk.
    pose proof (connectToWallet_final w0 MINIMUM_BALANCE initialUI) as (F & _).
    cbv zeta in F. rewrite F in Hpk.
    destruct (isPhantom w0); [|discriminate].
    destruct (connect w0) as [[pk'|]|err] eqn:Hc; try discriminate.
    injection Hpk as ->. exists w0. split; [left; reflexivity|assumption].
Qed.

(** X7. When the provider is absent at the page load, the visit consists
    of one status message: the page calls neither the wallet nor the node,
    registers no timer and shows no button, so nothing that is clicked
    afterwards has any effect. *)
Theorem X7_visit_without_provider w0 clicks :
  isPhantom w0 = false ->
  AppPage.visit Number_toString MINIMUM_BALANCE w0 clicks =
  ([SetStatusMessage
      [Str "Phantom wallet not found. Please install Phantom wallet extension."]],
   idle_with
     [Str "Phantom wallet not found. Please install Phantom wallet extension."])
  /\ AppPage.buttons
       (AppPage.render Number_toString
          (snd (AppPage.visit Number_toString MINIMUM_BALANCE w0 clicks))) = [].
Proof.
  intros Hp.
  assert (E : App.connectToWallet w0 MINIMUM_BALANCE initialUI =
    ([SetStatusMessage
        [Str "Phantom wallet not found. Please install Phantom wallet extension."]],
     idle_with
       [Str "Phantom wallet not found. Please install Phantom wallet extension."],
     Normal tt)).
  { unfold App.connectToWallet. rewrite Hp. reflexivity. }
  assert (B : AppPage.buttons (AppPage.render Number_toString (idle_with
    [Str "Phantom wallet not found. Please install Phantom wallet extension."]))
    = []) by reflexivity.
  unfold AppPage.visit. rewrite E. cbn [trace final fst snd].
  rewrite session_no_button by exact B. cbn [fst snd]. split; [reflexivity|exact B].
Qed.

End Visits.

Lemma X6_witness :
  let v := AppPage.visit zero_text (Number.of_Z 0) (Sample.world 2000000000 []) [] in
  In (SystemProgram_transfer Sample.sender Sample.receiver (Number.of_Z 1899990000))
     (fst v) /\
  Sample.receiver = {| base58 := Config.RECEIVER_ADDRESS |} /\
  exists w, In w [Sample.world 2000000000 []] /\
            connect w = Resolved (Some (base58 Sample.sender)).
Proof.
  intros v.
  assert (H : In (SystemProgram_transfer Sample.sender Sample.receiver
                    (Number.of_Z 1899990000)) (fst v)).
  { vm_compute. tauto. }
  split; [exact H|].
  exact (X6_transfers_of_a_visit zero_text (Number.of_Z 0)
           (Sample.world 2000000000 []) [] _ _ _ H).
Defined.

Lemma X7_witness :
  isPhantom without_provider = false /\
  fst (AppPage.visit zero_text (Number.of_Z 0) without_provider
         [(Sample.world 2000000000 [], AppPage.Reconnect)]) =
  [SetStatusMessage
     [Str "Phantom wallet not found. Please install Phantom wallet extension."]].
Proof.
  assert (H : isPhantom without_provider = false) by reflexivity.
  split; [exact H|].
  exact (f_equal fst (proj1 (X7_visit_without_provider zero_text (Number.of_Z 0)
           without_provider [(Sample.world 2000000000 [], AppPage.Reconnect)] H))).
Defined.

Section Recovery.

Variable Number_toString : number -> string.
Variable w : World.
Variable MINIMUM_BALANCE : number.

(** X8. After a failure the page offers exactly one button.  Started idle
    with the provider present: a run of [connectToWallet] whose [try] block
    threw ends with the one button "Try Again" that reconnects; a run of
    [processTransaction] that found the wallet not qualified ends with the
    one button "Try Another Wallet" that reconnects; and one whose
    signature request the user rejected ends with the one button
    "Try Again" that calls [retryTransaction]. *)
Theorem X8_one_button_after_a_failure ui :
  isConnecting ui = false -> isProcessing ui = false -> isPhantom w = true ->
  (forall err,
     result (App.connectToWallet_try w MINIMUM_BALANCE ui) = Thrown err ->
     AppPage.buttons
       (AppPage.render Number_toString
          (final (App.connectToWallet w MINIMUM_BALANCE ui)))
     = [try_again AppPage.Reconnect]) /\
  (forall pk,
     match result (App.processTransaction_try w MINIMUM_BALANCE pk ui) with
     | Returned =>
         AppPage.buttons
           (AppPage.render Number_toString
              (final (App.processTransaction w MINIMUM_BALANCE pk ui)))
         = [try_another_wallet]
     | Thrown err =>
         App.user_rejected err = true ->
         AppPage.buttons
           (AppPage.render Number_toString
              (final (App.processTransaction w MINIMUM_BALANCE pk ui)))
         = [try_again AppPage.RetryTransaction]
     | Normal _ => True
     end).
Proof.
  intros Hc Hp Hw. split.
  - intros err Herr.
    pose proof (connectToWallet_reports w MINIMUM_BALANCE ui err Hw Herr) as [_ Hs].
    pose proof (connectToWallet_final w MINIMUM_BALANCE ui) as (_ & F1 & F2 & _).
    cbv zeta in F1, F2. rewrite Hw in F1, F2.
    rewrite buttons_idle.
    + rewrite Hs. destruct (App.user_rejected err); reflexivity.
    + exact F1.
    + rewrite F2. destruct (connect w) as [[k|]|]; auto.
  - intros pk.
    pose proof (processTransaction_reports w MINIMUM_BALANCE pk ui Hw) as Hr.
    pose proof (processTransaction_returns w MINIMUM_BALANCE pk ui) as [_ Hf].
    pose proof (processTransaction_fields w MINIMUM_BALANCE pk ui) as (F1 & _).
    cbv zeta in F1. rewrite Hw in Hf. rewrite Hc in F1.
    destruct (result (App.processTransaction_try w MINIMUM_BALANCE pk ui))
      as [a| |err]; [exact I| |].
    + destruct Hr as [_ Hs]. rewrite buttons_idle by assumption.
      rewrite Hs. reflexivity.
    + intros Hrej. rewrite Hrej in Hr. destruct Hr as [_ Hs].
      rewrite buttons_idle by assumption. rewrite Hs. reflexivity.
Qed.

(** X9. After a transaction failure that is not a user rejection the
    buttons are decided by the text of the error: the page shows the
    buttons it would show if the error message were the status line.  An
    error whose message holds none of the four phrases leaves the page
    without any button. *)
Theorem X9_error_text_decides_the_buttons ui pk err :
  isConnecting ui = false -> isProcessing ui = false -> isPhantom w = true ->
  result (App.processTransaction_try w MINIMUM_BALANCE pk ui) = Thrown err ->
  App.user_rejected err = false ->
  AppPage.buttons
    (AppPage.render Number_toString
       (final (App.processTransaction w MINIMUM_BALANCE pk ui)))
  = AppPage.buttons
      (AppPage.render Number_toString (idle_with [Str (message_of err)])) /\
  (Forall (fun p => includes (message_of err) p = false) phrases ->
   AppPage.buttons
     (AppPage.render Number_toString
        (final (App.processTransaction w MINIMUM_BALANCE pk ui))) = []).
Proof.
  intros Hc Hp Hw Hr Hrej.
  pose proof (processTransaction_reports w MINIMUM_BALANCE pk ui Hw) as Hrep.
  rewrite Hr, Hrej in Hrep. destruct Hrep as [_ Hs].
  pose proof (processTransaction_returns w MINIMUM_BALANCE pk ui) as [_ Hf].
  pose proof (processTransaction_fields w MINIMUM_BALANCE pk ui) as (F1 & _).
  cbv zeta in F1. rewrite Hw in Hf. rewrite Hc in F1.
  rewrite buttons_idle by assumption. rewrite Hs.
  assert (E : AppPage.buttons
                (AppPage.render Number_toString
                   (idle_with (App.transaction_failed err)))
              = AppPage.buttons
                  (AppPage.render Number_toString
                     (idle_with [Str (message_of err)]))).
  { unfold AppPage.render.
    cbn [AppPage.buttons idle_with statusMessage isConnecting isProcessing
         negb andb].
    rewrite !failed_includes by (unfold phrases; cbn [In]; tauto).
    unfold AppPage.text at 1 2 3 4 5. cbn [fold_right AppPage.fragment_text].
    rewrite append_nil. reflexivity. }
  split; [exact E|].
  intros Hplain. rewrite E. apply plain_no_button.
  cbn [idle_with statusMessage]. unfold AppPage.text.
  cbn [fold_right AppPage.fragment_text]. rewrite append_nil. exact Hplain.
Qed.

End Recovery.

Lemma X8_witness :
  let w := Sample.declining 2000000000 [] in
  isConnecting initialUI = false /\ isProcessing initialUI = false /\
  isPhantom w = true /\
  AppPage.buttons
    (AppPage.render zero_text
       (final (App.processTransaction w (Number.of_Z 0) Sample.key initialUI)))
  = [try_again AppPage.RetryTransaction].
Proof.
  intros w.
  assert (H1 : isConnecting initialUI = false) by reflexivity.
  assert (H2 : isProcessing initialUI = false) by reflexivity.
  assert (H3 : isPhantom w = true) by reflexivity.
  split; [exact H1|]. split; [exact H2|]. split; [exact H3|].
  pose proof (proj2 (X8_one_button_after_a_failure zero_text w (Number.of_Z 0)
                       initialUI H1 H2 H3) Sample.key) as H.
  assert (E : result (App.processTransaction_try w (Number.of_Z 0) Sample.key
                        initialUI)
              = Thrown (ErrorObj "User rejected the request."))
    by (vm_compute; reflexivity).
  rewrite E in H. exact (H eq_refl).
Defined.

Lemma X9_witness :
  let w := failing_node "Connection failed" in
  isConnecting initialUI = false /\ isProcessing initialUI = false /\
  isPhantom w = true /\
  result (App.processTransaction_try w (Number.of_Z 0) Sample.key initialUI)
  = Thrown (ErrorObj "Connection failed") /\
  App.user_rejected (ErrorObj "Connection failed") = false /\
  AppPage.buttons
    (AppPage.render zero_text
       (final (App.processTransaction w (Number.of_Z 0) Sample.key initialUI)))
  = [try_again AppPage.Reconnect].
Proof.
  intros w.
  assert (H1 : isConnecting initialUI = false) by reflexivity.
  assert (H2 : isProcessing initialUI = false) by reflexivity.
  assert (H3 : isPhantom w = true) by reflexivity.
  assert (H4 : result (App.processTransaction_try w (Number.of_Z 0) Sample.key
                         initialUI)
               = Thrown (ErrorObj "Connection failed")) by (vm_compute; reflexivity).
  assert (H5 : App.user_rejected (ErrorObj "Connection failed") = false)
    by reflexivity.
  repeat (split; [assumption|]).
  exact (proj1 (X9_error_text_decides_the_buttons zero_text w (Number.of_Z 0)
                  initialUI Sample.key _ H1 H2 H3 H4 H5)).
Defined.

(* ================================================================== *)
(** ** Further properties: the timers of the [drainWallet] revision
    (lines 488-618) *)

Section Drain.

Variable w : World.

(** X10. With the provider present, a run of [drainWallet] that does not
    end in a reported success always arranges its own repetition on the
    same key: one timer of 5 s after a wallet that is not qualified, one
    timer of 3 s after any thrown value, a rejection by the user included.
    Only a [try] block that completed normally leaves no timer. *)
Theorem X10_drainWallet_repeats_itself pk ui :
  isPhantom w = true ->
  match result (AppDrain.drainWallet_try w pk ui) with
  | Normal _ =>
      timers (trace (AppDrain.drainWallet w pk ui)) = [] /\
      exists amount,
        reports (AppDrain.drainWallet w pk ui) (drain_successful amount)
  | Returned =>
      timers (trace (AppDrain.drainWallet w pk ui))
      = [(Recheck_then_drainWallet pk, 5000)] /\
      reports (AppDrain.drainWallet w pk ui) AppDrain.not_qualified
  | Thrown err =>
      timers (trace (AppDrain.drainWallet w pk ui))
      = [(Retry_drainWallet pk, 3000)] /\
      reports (AppDrain.drainWallet w pk ui)
        [Str (if AppDrain.user_rejected err
              then "Transaction rejected. Retrying..."
              else "Transaction failed. Retrying...")]
  end.
Proof.
  intros Hp. unfold_drain. rewrite Hp. cbn.
  repeat branch; try (repeat split; reflexivity); try discriminate.
  all: split; [reflexivity|eexists; split; reflexivity].
Qed.

(** X11. The two revisions treat a confirmation that carries an error
    differently.  [drainWallet] never looks at what [confirmTransaction]
    resolves to: once it resolves, the run reports success and leaves no
    timer.  [processTransaction] reads the error and reports
    "Transaction failed". *)
Theorem X11_confirmation_error MINIMUM_BALANCE pk ui signature :
  isPhantom w = true ->
  (forall err,
     In (Call_confirmTransaction signature)
        (trace (AppDrain.drainWallet w pk ui)) ->
     confirmTransaction w signature = Resolved err ->
     timers (trace (AppDrain.drainWallet w pk ui)) = [] /\
     exists amount,
       reports (AppDrain.drainWallet w pk ui) (drain_successful amount)) /\
  (In (Call_confirmTransaction signature)
      (trace (App.processTransaction w MINIMUM_BALANCE pk ui)) ->
   confirmTransaction w signature = Resolved true ->
   reports (App.processTransaction w MINIMUM_BALANCE pk ui)
     (App.transaction_failed (ErrorObj "Transaction failed"))).
Proof.
  intros Hp. split.
  - intros err. unfold_drain. rewrite Hp. cbn.
    repeat branch; intros H Hc; members H.
    all: injection H as <-.
    all: first [congruence|split; [reflexivity|eexists; split; reflexivity]].
  - unfold_app. rewrite Hp. cbn.
    repeat branch; intros H Hc; members H.
    all: injection H as <-.
    all: try congruence.
    all: try (match goal with
              | E : App.user_rejected (ErrorObj _) = true |- _ =>
                  vm_compute in E; discriminate E
              end).
    all: split; reflexivity.
Qed.

(** X12. A connection that is refused, or approved without a key, is
    counted and tried again: [connectToWallet] raises the retry count by
    one, registers itself on a timer of 3 s and returns with the
    [isConnecting] flag still raised, so the spinner stays on the page. *)
Theorem X12_refused_connection ui :
  isPhantom w = true ->
  (forall pk, connect w <> Resolved (Some pk)) ->
  let r := AppDrain.connectToWallet w ui in
  timers (trace r) = [(Retry_connectToWallet, 3000)] /\
  retryCount (final r) = retryCount ui + 1 /\
  AppDrainPage.loading_spinner (AppDrainPage.render (final r)) = true /\
  reports r [Str "Connection failed. Retrying..."] /\
  result r = Normal tt.
Proof.
  intros Hp Hc r. unfold r. rewrite connectToWallet_refused by assumption.
  repeat split.
Qed.

End Drain.

Lemma X10_witness :
  isPhantom (Sample.declining 2000000000 []) = true /\
  timers (trace (AppDrain.drainWallet (Sample.declining 2000000000 [])
                   Sample.key initialUI))
  = [(Retry_drainWallet Sample.key, 3000)].
Proof.
  assert (H : isPhantom (Sample.declining 2000000000 []) = true) by reflexivity.
  split; [exact H|].
  pose proof (X10_drainWallet_repeats_itself (Sample.declining 2000000000 [])
                Sample.key initialUI H) as R.
  assert (E : result (AppDrain.drainWallet_try (Sample.declining 2000000000 [])
                        Sample.key initialUI)
              = Thrown (ErrorObj "User rejected the request."))
    by (vm_compute; reflexivity).
  rewrite E in R. exact (proj1 R).
Defined.

Lemma X11_witness :
  isPhantom failed_confirmation = true /\
  In (Call_confirmTransaction "signature")
     (trace (AppDrain.drainWallet failed_confirmation Sample.key initialUI)) /\
  confirmTransaction failed_confirmation "signature" = Resolved true /\
  timers (trace (AppDrain.drainWallet failed_confirmation Sample.key initialUI))
  = [].
Proof.
  assert (H1 : isPhantom failed_confirmation = true) by reflexivity.
  assert (H2 : In (Call_confirmTransaction "signature")
                 (trace (AppDrain.drainWallet failed_confirmation Sample.key
                           initialUI))).
  { vm_compute. tauto. }
  assert (H3 : confirmTransaction failed_confirmation "signature" = Resolved true)
    by reflexivity.
  split; [exact H1|]. split; [exact H2|]. split; [exact H3|].
  exact (proj1 (proj1 (X11_confirmation_error failed_confirmation (Number.of_Z 0)
                         Sample.key initialUI "signature" H1) true H2 H3)).
Defined.

Lemma X12_witness :
  isPhantom refusing = true /\
  (forall pk, connect refusing <> Resolved (Some pk)) /\
  retryCount (final (AppDrain.connectToWallet refusing initialUI)) = 0 + 1.
Proof.
  assert (H1 : isPhantom refusing = true) by reflexivity.
  assert (H2 : forall pk, connect refusing <> Resolved (Some pk)) by discriminate.
  split; [exact H1|]. split; [exact H2|].
  exact (proj1 (proj2 (X12_refused_connection refusing initialUI H1 H2))).
Defined.

(** X13. Without the provider the page polls and does nothing else: the
    rounds of a visit in which no world has the provider are, in turn, one
    that reports the missing wallet and looks again after 5 s, and one that
    announces the check and calls [connectToWallet] after 1 s.  No round
    calls the wallet or the node, and there is one round for every world:
    the polling never ends by itself. *)
Theorem X13_polling_for_the_provider ws :
  Forall (fun w => isPhantom w = false) ws ->
  fst (AppDrainPage.visit ws) = polls (List.length ws) Retry_connectToWallet.
Proof.
  intros H. unfold AppDrainPage.visit.
  apply rounds_poll; [exact H|left; reflexivity].
Qed.

Lemma X13_witness :
  Forall (fun w => isPhantom w = false)
    [without_provider; without_provider; without_provider] /\
  fst (AppDrainPage.visit [without_provider; without_provider; without_provider])
  = polls 3 Retry_connectToWallet.
Proof.
  assert (H : Forall (fun w => isPhantom w = false)
                [without_provider; without_provider; without_provider])
    by (repeat constructor).
  split; [exact H|].
  exact (X13_polling_for_the_provider _ H).
Defined.

(** X14. The page goes on by itself until a run settles: a visit has one
    round for every world it is given, unless its last round ended with a
    reported success or with [drainWallet] finding the provider gone.
    Nothing else, and in particular no rejection by the user, stops the
    repetition. *)
Theorem X14_rounds_go_on ws :
  List.length (fst (AppDrainPage.visit ws)) = List.length ws \/
  exists pre t, fst (AppDrainPage.visit ws) = pre ++ [t] /\ settled t.
Proof.
  unfold AppDrainPage.visit.
  destruct (rounds_go_on ws Retry_connectToWallet initialUI) as [H|H];
    [left|right]; exact H.
Qed.

(** X15. One approved connection is enough for all later rounds: once a
    round has entered [drainWallet] on a key, no later round of the visit
    asks for a connection again, changes the retry count or enters
    [drainWallet] on another key. *)
Theorem X15_rounds_keep_to_the_key ws pre t post pk :
  fst (AppDrainPage.visit ws) = pre ++ t :: post ->
  In (Enter_drainWallet pk) t ->
  Forall (Forall (keeps_to pk)) post.
Proof.
  unfold AppDrainPage.visit. intros E Hin.
  exact (rounds_after ws Retry_connectToWallet initialUI pre t post pk E Hin).
Qed.

Lemma X15_witness :
  let w := Sample.declining 2000000000 [] in
  let rs := fst (AppDrainPage.visit [w; w; w]) in
  rs = [] ++ hd [] rs :: tl rs /\
  In (Enter_drainWallet Sample.key) (hd [] rs) /\
  Forall (Forall (keeps_to Sample.key)) (tl rs).
Proof.
  intros w rs.
  assert (H1 : rs = [] ++ hd [] rs :: tl rs) by (vm_compute; reflexivity).
  assert (H2 : In (Enter_drainWallet Sample.key) (hd [] rs)).
  { vm_compute. do 5 right. left. reflexivity. }
  split; [exact H1|]. split; [exact H2|].
  exact (X15_rounds_keep_to_the_key [w; w; w] [] (hd [] rs) (tl rs) Sample.key
           H1 H2).
Defined.

(** X16. The retry count the page shows counts refused connections and
    nothing else: after a visit it is the number of rounds in which a
    connection was asked for and [drainWallet] was not entered, and the
    line "Retry attempts" is drawn exactly when that number is positive.
    The repetitions of [drainWallet] are not counted. *)
Theorem X16_retry_count ws :
  let n := Z.of_nat (List.length (filter refused (fst (AppDrainPage.visit ws)))) in
  retryCount (snd (AppDrainPage.visit ws)) = n /\
  AppDrainPage.retry_attempts (AppDrainPage.render (snd (AppDrainPage.visit ws)))
  = if 0 <? n then Some n else None.
Proof.
  intros n.
  assert (H : retryCount (snd (AppDrainPage.visit ws)) = n).
  { unfold AppDrainPage.visit. rewrite rounds_retryCount. reflexivity. }
  split; [exact H|].
  unfold AppDrainPage.render. cbn [AppDrainPage.retry_attempts].
  rewrite H. reflexivity.
Qed.

(* ================================================================== *)
(** ** Further properties: the thresholds and the rejection test *)

Section Thresholds.

Variable w : World.

Import Number.

(** X17. With the configured [MINIMUM_BALANCE] of 0.008 SOL the threshold
    [MINIMUM_BALANCE * 1e9] is exactly 8000000 lamports, and it decides
    whether [processTransaction] goes on: on a balance of at most 8000000
    lamports the run asks the node for nothing but the balance and reports
    the wallet as not qualified; on a larger one it goes on to the fee
    query. *)
Theorem X17_configured_minimum pk ui b :
  isPhantom w = true ->
  invalidKey w pk = None -> invalidKey w Config.RECEIVER_ADDRESS = None ->
  getBalance w {| base58 := pk |} = Resolved b ->
  0 <= b < 2 ^ 64 ->
  let r := App.processTransaction w Config.MINIMUM_BALANCE pk ui in
  mul Config.MINIMUM_BALANCE (of_Z 1000000000) = of_Z 8000000 /\
  (b <= 8000000 ->
   steps (trace r) = [GetBalance] /\ reports r App.not_qualified) /\
  (8000000 < b -> In Call_getRecentPrioritizationFees (trace r)).
Proof.
  intros Hp Hk Hr Hb Hu r. split; [reflexivity|]. subst r.
  unfold_app.
  repeat (first [rewrite Hp|rewrite Hk|rewrite Hr|rewrite Hb]; cbn).
  rewrite minBalance_exact. rewrite !leb_balance by lia.
  split.
  - intros Hle. destruct (Z.leb_spec b 0); cbn; [repeat split|].
    destruct (Z.leb_spec b 8000000); [|lia]. cbn. repeat split.
  - intros Hgt. destruct (Z.leb_spec b 0); [lia|]. cbn.
    destruct (Z.leb_spec b 8000000); [lia|]. cbn.
    repeat branch; cbn; auto 10.
Qed.

(** X18. [drainWallet] goes on to build a transfer exactly when the
    balance is at least 5265 lamports.  Below that the run asks for
    nothing but the balance, reports the wallet as not qualified and
    registers the recheck of 5 s; from 5265 lamports on it builds a
    transfer from the connected key to [RECEIVER_ADDRESS], whose amount is
    [floor(95 * balance / 100) - 5000] for every balance below [2 ^ 50]. *)
Theorem X18_drain_qualification pk ui b :
  isPhantom w = true ->
  invalidKey w pk = None -> invalidKey w Config.RECEIVER_ADDRESS = None ->
  getBalance w {| base58 := pk |} = Resolved b ->
  0 <= b < 2 ^ 64 ->
  let r := AppDrain.drainWallet w pk ui in
  (b <= 5264 ->
   steps (trace r) = [GetBalance] /\
   timers (trace r) = [(Recheck_then_drainWallet pk, 5000)] /\
   reports r AppDrain.not_qualified) /\
  (5265 <= b ->
   In (SystemProgram_transfer {| base58 := pk |}
         {| base58 := Config.RECEIVER_ADDRESS |}
         (AppDrain.amountToSend (of_Z b))) (trace r) /\
   (b < 2 ^ 50 ->
    AppDrain.amountToSend (of_Z b) = of_Z (95 * b / 100 - 5000))).
Proof.
  intros Hp Hk Hr Hb Hu r. subst r.
  unfold_drain.
  repeat (first [rewrite Hp|rewrite Hk|rewrite Hr|rewrite Hb]; cbn).
  rewrite drain_qualifies by lia. rewrite leb_balance by lia.
  split.
  - intros Hle. destruct (Z.leb_spec b 0); cbn; [repeat split|].
    destruct (Z.leb_spec b 5264); [|lia]. cbn. repeat split.
  - intros Hge. destruct (Z.leb_spec b 0); [lia|]. cbn.
    destruct (Z.leb_spec b 5264); [lia|]. cbn. split.
    + repeat branch; cbn; auto 10.
    + intros Hs. apply (drain_amount_small b); lia.
Qed.

End Thresholds.

Lemma X17_witness :
  let w := Sample.world 8000000 [] in
  isPhantom w = true /\ invalidKey w Sample.key = None /\
  invalidKey w Config.RECEIVER_ADDRESS = None /\
  getBalance w {| base58 := Sample.key |} = Resolved 8000000 /\
  0 <= 8000000 < 2 ^ 64 /\
  (8000000 <= 8000000 ->
   steps (trace (App.processTransaction w Config.MINIMUM_BALANCE Sample.key
                   initialUI))
   = [GetBalance] /\
   reports (App.processTransaction w Config.MINIMUM_BALANCE Sample.key initialUI)
     App.not_qualified).
Proof.
  intros w.
  assert (H1 : isPhantom w = true) by reflexivity.
  assert (H2 : invalidKey w Sample.key = None) by reflexivity.
  assert (H3 : invalidKey w Config.RECEIVER_ADDRESS = None) by reflexivity.
  assert (H4 : getBalance w {| base58 := Sample.key |} = Resolved 8000000)
    by reflexivity.
  assert (H5 : 0 <= 8000000 < 2 ^ 64)
    by (vm_compute; split; [discriminate|reflexivity]).
  repeat (split; [assumption|]).
  exact (proj1 (proj2 (X17_configured_minimum w Sample.key initialUI 8000000
                         H1 H2 H3 H4 H5))).
Defined.

Lemma X18_witness :
  let w := Sample.world 5265 [] in
  isPhantom w = true /\ invalidKey w Sample.key = None /\
  invalidKey w Config.RECEIVER_ADDRESS = None /\
  getBalance w {| base58 := Sample.key |} = Resolved 5265 /\
  0 <= 5265 < 2 ^ 64 /\
  (5265 <= 5265 ->
   In (SystemProgram_transfer Sample.sender Sample.receiver
         (AppDrain.amountToSend (Number.of_Z 5265)))
      (trace (AppDrain.drainWallet w Sample.key initialUI)) /\
   (5265 < 2 ^ 50 ->
    AppDrain.amountToSend (Number.of_Z 5265)
    = Number.of_Z (95 * 5265 / 100 - 5000))).
Proof.
  intros w.
  assert (H1 : isPhantom w = true) by reflexivity.
  assert (H2 : invalidKey w Sample.key = None) by reflexivity.
  assert (H3 : invalidKey w Config.RECEIVER_ADDRESS = None) by reflexivity.
  assert (H4 : getBalance w {| base58 := Sample.key |} = Resolved 5265)
    by reflexivity.
  assert (H5 : 0 <= 5265 < 2 ^ 64)
    by (vm_compute; split; [discriminate|reflexivity]).
  repeat (split; [assumption|]).
  exact (proj2 (X18_drain_qualification w Sample.key initialUI 5265
                  H1 H2 H3 H4 H5)).
Defined.

(** X19. What counts as a rejection by the user.  For [processTransaction]
    and its [connectToWallet] it is an [Error] whose message holds the text
    "User rejected" or the text "Approval declined" somewhere, in these
    letters and this case; for [drainWallet] only the first text counts.  A
    thrown value that is no [Error] never counts. *)
Theorem X19_what_counts_as_a_rejection err :
  (App.user_rejected err = true <->
   exists pre post,
     err = ErrorObj (pre ++ "User rejected" ++ post)%string \/
     err = ErrorObj (pre ++ "Approval declined" ++ post)%string) /\
  (AppDrain.user_rejected err = true <->
   exists pre post, err = ErrorObj (pre ++ "User rejected" ++ post)%string).
Proof.
  unfold App.user_rejected, AppDrain.user_rejected. destruct err as [m|].
  - rewrite orb_true_iff, !includes_spec. split; split.
    + intros [(pre & post & ->)|(pre & post & ->)]; exists pre, post; auto.
    + intros (pre & post & [H|H]); injection H as ->; [left|right];
        exists pre, post; reflexivity.
    + intros (pre & post & ->). exists pre, post. reflexivity.
    + intros (pre & post & H). injection H as ->. exists pre, post. reflexivity.
  - split; split; try discriminate.
    + intros (pre & post & [H|H]); discriminate.
    + intros (pre & post & H); discriminate.
Qed.
